(** * CodeCollab swarm: extraction, pricing and history, verified

    A shallow embedding of the orchestration code of the repository:
    - [src/agents/payment_calculator.py]  (module [PaymentCalculator]),
    - [src/agents/swarm_orchestrator.py]  (module [SwarmOrchestrator]),
    - [src/simple_api_server.py]          (module [ApiServer]),
    and a model of the handoff state machine that the orchestrator
    delegates to the [strands] package (module [HandoffMachine]).

    Conventions of the embedding.
    - A Python [str] is a [string] whose characters are the code points
      below 256. On these, white space, decimal digits and [lower] are
      Python's; so is [upper], except on the three letters whose upper
      case is not a single code point below 256 (181, 223 and 255),
      which it leaves alone.
    - A Python [int] is a [Z]; its conversions from and to text obey
      the interpreter's limit of 4300 digits (module [PyInt]).
    - A Python [float] is the exact rational value of a finite binary64
      number; each arithmetic operation rounds the exact result to the
      nearest binary64 value, ties to even (module [Float64]).
    - A computation that may raise returns a [result]; the exceptions
      are those that [except Exception] catches.

    The definitions come first; the statements and their proofs follow
    from module [PyStrFacts] on. *)

From Stdlib Require Import String Ascii List ZArith QArith Qpower Qround Qabs Lia Lqa Bool.
From Stdlib Require Import SpecFloat.
From Stdlib Require DecimalString.
Import ListNotations.

Set Implicit Arguments.

(* ================================================================= *)
(** * Python strings *)

Module PyStr.

Local Open Scope string_scope.

(** The line feed, written ["\n"] in the source. *)
Definition nl : string := String (ascii_of_nat 10) EmptyString.

(** The double quote character as a string. *)
Definition dquote : string := String (ascii_of_nat 34) EmptyString.

(** [s.startswith(p)]. *)
Fixpoint starts_with (p s : string) : bool :=
  match p, s with
  | EmptyString, _ => true
  | String a p', String b s' => if Ascii.eqb a b then starts_with p' s' else false
  | String _ _, EmptyString => false
  end.

(** [p in s] for two strings: naive search of [p] at every offset. *)
Fixpoint contains (p s : string) : bool :=
  if starts_with p s then true
  else match s with
       | EmptyString => false
       | String _ s' => contains p s'
       end.

(** What [p in s] means: [s] splits around an occurrence of [p]. *)
Definition occurs (p s : string) : Prop :=
  exists pre post, s = pre ++ p ++ post.

(** [s[n:]]. *)
Fixpoint drop (n : nat) (s : string) : string :=
  match n, s with
  | O, _ => s
  | S n', String _ s' => drop n' s'
  | S _, EmptyString => EmptyString
  end.

(** [s.partition(p)] restricted to the found case: the text before the
    first occurrence of [p] and the text after it. *)
Fixpoint split_at (p s : string) : option (string * string) :=
  if starts_with p s then Some (EmptyString, drop (String.length p) s)
  else match s with
       | EmptyString => None
       | String a s' =>
           match split_at p s' with
           | Some (pre, post) => Some (String a pre, post)
           | None => None
           end
       end.

(** The lower-case letters whose upper case is the code point 32
    below: [a] to [z], and 224 to 254 without the division sign 247. *)
Definition is_lower (a : ascii) : bool :=
  let n := nat_of_ascii a in
  ((97 <=? n)%nat && (n <=? 122)%nat)
  || ((224 <=? n)%nat && (n <=? 254)%nat && negb (n =? 247)%nat).

(** The upper-case letters: [A] to [Z], and 192 to 222 without the
    multiplication sign 215; their lower case is the code point 32
    above. *)
Definition is_upper (a : ascii) : bool :=
  let n := nat_of_ascii a in
  ((65 <=? n)%nat && (n <=? 90)%nat)
  || ((192 <=? n)%nat && (n <=? 222)%nat && negb (n =? 215)%nat).

Definition upper_char (a : ascii) : ascii :=
  if is_lower a then ascii_of_nat (nat_of_ascii a - 32) else a.

Definition lower_char (a : ascii) : ascii :=
  if is_upper a then ascii_of_nat (nat_of_ascii a + 32) else a.

Fixpoint map_string (f : ascii -> ascii) (s : string) : string :=
  match s with
  | EmptyString => EmptyString
  | String a s' => String (f a) (map_string f s')
  end.

(** [s.upper()] and [s.lower()]. *)
Definition upper : string -> string := map_string upper_char.
Definition lower : string -> string := map_string lower_char.

(** [c.isspace()], the white space of [strip] and of the class [\s] of
    [re]: tab, line feed, vertical tab, form feed, carriage return, the
    four separators 28..31, the space, the next-line character 133 and
    the no-break space 160. *)
Definition is_space (a : ascii) : bool :=
  let n := nat_of_ascii a in
  ((9 <=? n)%nat && (n <=? 13)%nat) || ((28 <=? n)%nat && (n <=? 32)%nat)
  || (n =? 133)%nat || (n =? 160)%nat.

(** The white space that [int] skips around a literal: as [is_space],
    without the four separators 28..31. *)
Definition is_int_space (a : ascii) : bool :=
  let n := nat_of_ascii a in
  ((9 <=? n)%nat && (n <=? 13)%nat) || (n =? 32)%nat
  || (n =? 133)%nat || (n =? 160)%nat.

(** The decimal digits, the class [\d] of [re] below 256. *)
Definition is_digit (a : ascii) : bool :=
  let n := nat_of_ascii a in (48 <=? n)%nat && (n <=? 57)%nat.

Fixpoint lstrip (s : string) : string :=
  match s with
  | EmptyString => EmptyString
  | String a s' => if is_space a then lstrip s' else s
  end.

(** [rstrip] keeps a character when it is not a space or when something
    survives after it. *)
Fixpoint rstrip (s : string) : string :=
  match s with
  | EmptyString => EmptyString
  | String a s' =>
      match rstrip s' with
      | EmptyString => if is_space a then EmptyString else String a EmptyString
      | r => String a r
      end
  end.

(** [s.strip()]. *)
Definition strip (s : string) : string := rstrip (lstrip s).

(** The text holds a character that is not white space. *)
Definition has_solid (s : string) : Prop :=
  exists pre a post, s = pre ++ String a post /\ is_space a = false.

(** [sep.join(parts)]. *)
Fixpoint join (sep : string) (parts : list string) : string :=
  match parts with
  | [] => EmptyString
  | [x] => x
  | x :: rest => x ++ sep ++ join sep rest
  end.

(** [s[:n]]. *)
Definition take (n : nat) (s : string) : string := substring 0 n s.

(** Truthiness of a string: [bool(s)]. *)
Definition nonempty (s : string) : bool :=
  match s with EmptyString => false | _ => true end.

(** [str(n)] for a natural number. *)
Definition decimal_of_nat (n : nat) : string :=
  DecimalString.NilZero.string_of_uint (Nat.to_uint n).

(** ** [repr] *)

Definition hex_digit (n : nat) : ascii :=
  if (n <? 10)%nat then ascii_of_nat (48 + n) else ascii_of_nat (87 + n).

(** The characters that [repr] writes as they are: all but the control
    characters 0..31 and 127..160 and the soft hyphen 173. *)
Definition is_printable (a : ascii) : bool :=
  let n := nat_of_ascii a in
  ((32 <=? n)%nat && (n <? 127)%nat) || ((161 <=? n)%nat && negb (n =? 173)%nat).

Definition backslash : ascii := ascii_of_nat 92.

(** One character inside the quotes of [repr]. *)
Definition repr_char (quote a : ascii) : string :=
  let n := nat_of_ascii a in
  if Ascii.eqb a quote || Ascii.eqb a backslash
  then String backslash (String a EmptyString)
  else if (n =? 9)%nat then String backslash "t"
  else if (n =? 10)%nat then String backslash "n"
  else if (n =? 13)%nat then String backslash "r"
  else if is_printable a then String a EmptyString
  else String backslash
         (String "x" (String (hex_digit (n / 16)) (String (hex_digit (n mod 16)) EmptyString))).

Fixpoint repr_body (quote : ascii) (s : string) : string :=
  match s with
  | EmptyString => EmptyString
  | String a s' => repr_char quote a ++ repr_body quote s'
  end.

(** [repr(s)]: in single quotes, unless the text holds a single quote
    and no double quote. *)
Definition py_repr (s : string) : string :=
  let quote :=
    if contains "'" s && negb (contains dquote s)
    then ascii_of_nat 34 else ascii_of_nat 39 in
  String quote (repr_body quote s ++ String quote EmptyString).

End PyStr.

(* ================================================================= *)
(** * Exceptions *)

(** The outcome of a Python computation that may raise: the value, or
    the text [str(e)] of the exception. *)
Inductive result (A : Type) : Type :=
| Ok (a : A)
| Raise (e : string).

Arguments Ok {A} a.
Arguments Raise {A} e.

Definition bind {A B : Type} (m : result A) (k : A -> result B) : result B :=
  match m with
  | Ok a => k a
  | Raise e => Raise e
  end.

Notation "'let*' x ':=' m 'in' k" := (bind m (fun x => k))
  (at level 10, x name, m at level 100, k at level 200).

(* ================================================================= *)
(** * Python integers and their texts *)

Module PyInt.

Import PyStr.
Local Open Scope string_scope.

Definition digit_value (a : ascii) : Z := Z.of_nat (nat_of_ascii a) - 48.

(** Decimal digits with single underscores between them, the body of
    an [int] literal accepted by [int(str)]. *)
Fixpoint parse_digits (acc : Z) (after_digit : bool) (s : string) : option Z :=
  match s with
  | EmptyString => if after_digit then Some acc else None
  | String a s' =>
      if is_digit a then parse_digits (10 * acc + digit_value a) true s'
      else if Ascii.eqb a "_" then
             if after_digit then parse_digits acc false s' else None
           else None
  end.

(** The white space that [int] skips before and after the literal. *)
Fixpoint int_lstrip (s : string) : string :=
  match s with
  | EmptyString => EmptyString
  | String a s' => if is_int_space a then int_lstrip s' else s
  end.

Fixpoint int_rstrip (s : string) : string :=
  match s with
  | EmptyString => EmptyString
  | String a s' =>
      match int_rstrip s' with
      | EmptyString => if is_int_space a then EmptyString else String a EmptyString
      | r => String a r
      end
  end.

(** The run of digits and underscores at the head of [s], and what
    follows it. *)
Fixpoint scan_run (s : string) : string * string :=
  match s with
  | EmptyString => (EmptyString, EmptyString)
  | String a s' =>
      if is_digit a || Ascii.eqb a "_"
      then let (run, rest) := scan_run s' in (String a run, rest)
      else (EmptyString, s)
  end.

Fixpoint count_digits (s : string) : nat :=
  match s with
  | EmptyString => O
  | String a s' => if is_digit a then S (count_digits s') else count_digits s'
  end.

(** The limit on the number of digits that [int] and [str] convert,
    [sys.get_int_max_str_digits()] as the interpreter starts. *)
Definition int_max_str_digits : nat := 4300.

(** The outcome of reading a literal: not a literal, a literal of more
    digits than the limit, or its value. *)
Inductive IntLiteral :=
| BadLiteral
| TooManyDigits (digits : nat)
| Literal (z : Z).

(** The optional sign of a literal: whether it is a minus, and what
    follows it. *)
Definition split_sign (body : string) : bool * string :=
  match body with
  | String "-" ds => (true, ds)
  | String "+" ds => (false, ds)
  | ds => (false, ds)
  end.

(** [int(s)] reads a sign, then the run of digits and underscores,
    which must be well formed; the number of digits is checked against
    the limit before what follows the run is looked at. *)
Definition parse_int (s : string) : IntLiteral :=
  let body := int_rstrip (int_lstrip s) in
  let (negative, body) := split_sign body in
  let (run, rest) := scan_run body in
  match parse_digits 0 false run with
  | None => BadLiteral
  | Some z =>
      if (int_max_str_digits <? count_digits run)%nat then TooManyDigits (count_digits run)
      else if nonempty rest then BadLiteral
      else Literal (if negative then Z.opp z else z)
  end.

(** The texts of the two [ValueError]s of [int(s)]. *)
Definition invalid_literal (s : string) : string :=
  "invalid literal for int() with base 10: " ++ take 200 (py_repr s).

Definition too_many_digits (digits : nat) : string :=
  "Exceeds the limit (4300 digits) for integer string conversion: value has "
  ++ decimal_of_nat digits
  ++ " digits; use sys.set_int_max_str_digits() to increase the limit".

(** [str(n)], as far as its outcome matters here: the conversion of an
    integer of more than 4300 digits raises [ValueError]. *)
Definition int_str_bound : Z := (10 ^ Z.of_nat int_max_str_digits)%Z.

Definition format_int (n : Z) : result unit :=
  if (int_str_bound <=? Z.abs n)%Z
  then Raise "Exceeds the limit (4300 digits) for integer string conversion; use sys.set_int_max_str_digits() to increase the limit"
  else Ok tt.

End PyInt.

(* ================================================================= *)
(** * Binary64 arithmetic *)

Module Float64.

Local Open Scope Q_scope.

(** A float is the exact rational value of a finite binary64 number. *)
Definition float : Type := Q.

(** [ilog2 x] is the binary exponent of a positive rational: the [e]
    with [2^e <= x < 2^(e+1)]. *)
Definition ilog2 (x : Q) : Z :=
  let k := (Z.log2 (Qnum x) - Z.log2 (Zpos (Qden x)))%Z in
  if Qle_bool (2 ^ k) x then k else (k - 1)%Z.

(** Rounding of a rational to the nearest integer, ties to even. *)
Definition rne (x : Q) : Z :=
  let f := Qfloor x in
  match Qcompare (x - inject_Z f) (1 # 2) with
  | Lt => f
  | Gt => (f + 1)%Z
  | Eq => if Z.even f then f else (f + 1)%Z
  end.

(** Exponent of the unit in the last place of the binary64 numbers
    around a positive [x]: 53 significant bits, and never below the
    subnormal spacing [2^-1074]. *)
Definition ulp_exp (x : Q) : Z := Z.max (ilog2 x - 52) (-1074).

(** Round to nearest binary64, ties to even, in lowest terms. *)
Definition RN (x : Q) : float :=
  match Qnum x with
  | Z0 => 0
  | Zpos _ => let q := ulp_exp x in
              Qred (inject_Z (rne (x / 2 ^ q)) * 2 ^ q)
  | Zneg _ => let q := ulp_exp (- x) in
              Qred (- (inject_Z (rne (- x / 2 ^ q)) * 2 ^ q))
  end.

(** A decimal literal of the source, such as [0.03]. *)
Definition lit (q : Q) : float := RN q.

Definition fmul (a b : float) : float := RN (a * b).
Definition fadd (a b : float) : float := RN (a + b).
Definition fdiv (a b : float) : float := RN (a / b).

(** [float(n)] for an [int]: correctly rounded, and [OverflowError]
    when the rounded value leaves the binary64 range. *)
Definition float_of_int (n : Z) : result float :=
  let r := RN (inject_Z n) in
  if Qle_bool (2 ^ 1024) (Qabs r)
  then Raise "int too large to convert to float"
  else Ok r.

(** [round(x, ndigits)] on a float, for [ndigits >= 0]: the decimal
    with [ndigits] places nearest to the exact value of [x], ties to
    even, converted back to the nearest float. *)
Definition py_round (x : float) (ndigits : Z) : float :=
  let scale := inject_Z (10 ^ ndigits) in
  RN (inject_Z (rne (x * scale)) / scale).

(** [max(a, b)] on floats: the first argument unless the second is
    strictly greater. *)
Definition py_max (a b : float) : float :=
  if Qle_bool b a then a else b.

(** [a < b], [a <= b] on floats. *)
Definition flt (a b : float) : bool := negb (Qle_bool b a).
Definition fle (a b : float) : bool := Qle_bool a b.

(** ** Comparison with the binary64 operations of the standard library *)

(** A float as a [spec_float] of precision 53 and maximal exponent
    1024, and back. *)
Definition to_spec (x : float) : spec_float :=
  binary_normalize 53 1024 (Qnum x) (- Z.log2 (Zpos (Qden x))) false.

Definition of_spec (f : spec_float) : float :=
  match f with
  | S754_finite s m e => Qred ((if s then -1 else 1) * inject_Z (Zpos m) * 2 ^ e)
  | _ => 0
  end.

(** The rounded exact operation [op] and the operation [sop] of the
    library give the same float on [a] and [b]. *)
Definition agrees (op : Q -> Q -> Q) (sop : spec_float -> spec_float -> spec_float)
    (a b : float) : bool :=
  Qeq_bool (of_spec (sop (to_spec a) (to_spec b))) (RN (op a b)).

(** The constants of the calculator and a few other floats. *)
Definition sample_floats : list float :=
  map RN [3 # 100; 8 # 100; 20 # 100; 5 # 100; 13 # 10; 115 # 100; 1; 8 # 10;
          11 # 10; 105 # 100; 95 # 100; 1 # 10000; 1000; 1 # 100; 123456789; 7].

Definition agrees_on_samples (op : Q -> Q -> Q)
    (sop : spec_float -> spec_float -> spec_float) : bool :=
  forallb (fun a => forallb (agrees op sop a) sample_floats) sample_floats.

End Float64.

(* ================================================================= *)
(** * [payment_calculator.py] *)

Module PaymentCalculator.

Import PyInt Float64.
Local Open Scope Q_scope.
Local Open Scope string_scope.

Inductive QualityTier := excellent | good | acceptable | needs_work.
Inductive TimeTier := very_fast | fast | normal | slow.

(** [BASE_PRICING.get(key, BASE_PRICING["unknown"])]. *)
Definition BASE_PRICING (key : string) : float :=
  if String.eqb key "simple" then lit (3 # 100)
  else if String.eqb key "medium" then lit (8 # 100)
  else if String.eqb key "complex" then lit (20 # 100)
  else lit (5 # 100).

Definition QUALITY_MULTIPLIERS (t : QualityTier) : float :=
  match t with
  | excellent => lit (13 # 10)
  | good => lit (115 # 100)
  | acceptable => lit 1
  | needs_work => lit (8 # 10)
  end.

Definition TIME_BONUS (t : TimeTier) : float :=
  match t with
  | very_fast => lit (11 # 10)
  | fast => lit (105 # 100)
  | normal => lit 1
  | slow => lit (95 # 100)
  end.

Definition TOKEN_COST_PER_1K : float := lit (1 # 10000).

Definition _get_quality_tier (score : Z) : QualityTier :=
  if (score >=? 95)%Z then excellent
  else if (score >=? 85)%Z then good
  else if (score >=? 70)%Z then acceptable
  else needs_work.

Definition _get_time_tier (execution_time_sec : float) : TimeTier :=
  if flt execution_time_sec 30 then very_fast
  else if flt execution_time_sec 60 then fast
  else if fle execution_time_sec 120 then normal
  else slow.

Record Breakdown := {
  base_price : float;
  complexity : string;
  quality_score : Z;
  quality_tier : QualityTier;
  quality_multiplier : float;
  execution_time_sec : float;
  time_tier : TimeTier;
  time_multiplier : float;
  token_cost : float;
  tokens_used : Z;
  code_lines : Z
}.

Record Payment := {
  amount : float;
  currency : string;
  breakdown : Breakdown
}.

(** [calculate_payment]. The f-string of its log line converts
    [quality_score] and [tokens_used] to text before the function
    returns; the other conversions of that line cannot fail. *)
Definition calculate_payment
    (complexity : string) (quality_score execution_time_ms tokens_used code_lines : Z)
    : result Payment :=
  let complexity_lower :=
    if PyStr.nonempty complexity then PyStr.lower complexity else "unknown" in
  let base_price := BASE_PRICING complexity_lower in
  let quality_tier := _get_quality_tier quality_score in
  let quality_multiplier := QUALITY_MULTIPLIERS quality_tier in
  let* execution_time_sec :=
    if (execution_time_ms >? 0)%Z
    then let* ms := float_of_int execution_time_ms in Ok (fdiv ms (lit 1000))
    else Ok 0 in
  let time_tier := _get_time_tier execution_time_sec in
  let time_multiplier := TIME_BONUS time_tier in
  let* token_cost :=
    if (tokens_used >? 0)%Z
    then let* n := float_of_int tokens_used in
         Ok (fmul (fdiv n (lit 1000)) TOKEN_COST_PER_1K)
    else Ok 0 in
  let adjusted_price := fmul (fmul base_price quality_multiplier) time_multiplier in
  let final_payment := fadd adjusted_price token_cost in
  let final_payment := py_round final_payment 2 in
  let final_payment := py_max (lit (1 # 100)) final_payment in
  let* _ := format_int quality_score in
  let* _ := format_int tokens_used in
  Ok {| amount := final_payment;
        currency := "USD";
        breakdown := {|
          base_price := base_price;
          complexity := complexity_lower;
          quality_score := quality_score;
          quality_tier := quality_tier;
          quality_multiplier := quality_multiplier;
          execution_time_sec := py_round execution_time_sec 2;
          time_tier := time_tier;
          time_multiplier := time_multiplier;
          token_cost := py_round token_cost 4;
          tokens_used := tokens_used;
          code_lines := code_lines |} |}.

(** The convenience wrapper of the module. *)
Definition calculate_task_payment := calculate_payment.

End PaymentCalculator.

(* ================================================================= *)
(** * [swarm_orchestrator.py] *)

Module SwarmOrchestrator.

Import PyStr PyInt.
Local Open Scope string_scope.

(** ** Python values carried by payloads and mock results *)

Inductive PyVal :=
| PyNone
| PyBool (b : bool)
| PyInt (z : Z)
| PyStr (s : string).

(** [bool(v)]. *)
Definition truthy (v : PyVal) : bool :=
  match v with
  | PyNone => false
  | PyBool b => b
  | PyInt z => negb (z =? 0)%Z
  | PyStr s => nonempty s
  end.

(** [a and b]. *)
Definition py_and (a b : PyVal) : PyVal := if truthy a then b else a.

(** A [dict] with string keys, as an association list. *)
Definition Dict (V : Type) : Type := list (string * V).

(** [d.get(k)]; [None] when the key is missing. *)
Fixpoint get {V : Type} (d : Dict V) (k : string) : option V :=
  match d with
  | [] => None
  | (k', v) :: d' => if String.eqb k' k then Some v else get d' k
  end.

(** [int(v)]. *)
Definition py_int (v : PyVal) : result Z :=
  match v with
  | PyNone => Raise "int() argument must be a string, a bytes-like object or a real number, not 'NoneType'"
  | PyBool b => Ok (if b then 1 else 0)%Z
  | PyInt z => Ok z
  | PyStr s =>
      match parse_int s with
      | Literal z => Ok z
      | TooManyDigits digits => Raise (too_many_digits digits)
      | BadLiteral => Raise (invalid_literal s)
      end
  end.

(** ** The result object of the swarm *)

(** One entry of a message's [content] list: a dict with a ['text']
    key, a dict without it, or something that is not a dict. *)
Inductive ContentItem :=
| TextItem (text : string)
| DictItem
| OtherItem.

(** [message] is absent when the attribute is missing or is not a dict;
    a dict without ['content'] has the empty content. *)
Record AgentResult := { message : option (list ContentItem) }.

(** An entry of [result.results]: [nr_result] is its [result]
    attribute, [nr_context] its [context] attribute when that is a
    dict. *)
Record NodeResult := {
  nr_result : option AgentResult;
  nr_context : option (Dict PyVal)
}.

(** An entry of [result.node_history]. *)
Record Node := {
  node_id : string;
  node_result : option NodeResult
}.

(** The attributes read by [process_task]; [None] is a missing
    attribute ([hasattr] is false). [accumulated_usage] is present when
    it is a dict of integer counters. [repr] is [str(result)]. *)
Record ResultObject := {
  node_history : option (list Node);
  execution_time : option Z;
  results : option (Dict NodeResult);
  status : option string;
  accumulated_usage : option (Dict Z);
  repr : string
}.

(** What the swarm call returns: an object, or a plain dict (the mock
    used in tests) together with its [str]. *)
Inductive SwarmResult :=
| ResultObj (o : ResultObject)
| ResultDict (d : Dict PyVal) (repr : string).

Definition node_history_of (r : SwarmResult) : option (list Node) :=
  match r with ResultObj o => node_history o | ResultDict _ _ => None end.

Definition execution_time_of (r : SwarmResult) : option Z :=
  match r with ResultObj o => execution_time o | ResultDict _ _ => None end.

Definition results_of (r : SwarmResult) : option (Dict NodeResult) :=
  match r with ResultObj o => results o | ResultDict _ _ => None end.

Definition accumulated_usage_of (r : SwarmResult) : option (Dict Z) :=
  match r with ResultObj o => accumulated_usage o | ResultDict _ _ => None end.

Definition str_of (r : SwarmResult) : string :=
  match r with ResultObj o => repr o | ResultDict _ s => s end.

(** [result.results[name]] guarded by [hasattr] and [in]. *)
Definition agent_entry (r : SwarmResult) (name : string) : option NodeResult :=
  match results_of r with
  | Some d => get d name
  | None => None
  end.

(** ** Text of a message *)

(** [[item['text'] for item in content if isinstance(item, dict) and
    'text' in item]]. *)
Fixpoint text_parts (content : list ContentItem) : list string :=
  match content with
  | [] => []
  | TextItem t :: rest => t :: text_parts rest
  | _ :: rest => text_parts rest
  end.

(** [[item.get('text', '') for item in content if isinstance(item, dict)]]. *)
Fixpoint dict_texts (content : list ContentItem) : list string :=
  match content with
  | [] => []
  | TextItem t :: rest => t :: dict_texts rest
  | DictItem :: rest => EmptyString :: dict_texts rest
  | OtherItem :: rest => dict_texts rest
  end.

(** The clean text of an agent's message, empty when any link of the
    attribute chain is missing. *)
Definition agent_message_text (nr : NodeResult) : string :=
  match nr_result nr with
  | Some agent_result =>
      match message agent_result with
      | Some content => join nl (text_parts content)
      | None => EmptyString
      end
  | None => EmptyString
  end.

(** The text of the terminal agent: the escalation agent's entry of
    [results], else the last node of the history, else the first 1000
    characters of [str(result)]. *)
Definition final_result_str_of (r : SwarmResult) : string :=
  let s1 :=
    match agent_entry r "escalation_agent" with
    | Some escalation_result => agent_message_text escalation_result
    | None => EmptyString
    end in
  let s2 :=
    if nonempty s1 then s1
    else match node_history_of r with
         | Some (n :: h) =>
             match node_result (last h n) with
             | Some nr => agent_message_text nr
             | None => s1
             end
         | _ => s1
         end in
  if nonempty s2 then s2 else take 1000 (str_of r).

(** ** Code extraction *)

Definition fence_open : string := "```python" ++ nl.
Definition fence_close : string := "```".

(** [re.findall(r'```python\n(.*?)```', s, re.DOTALL)]: the shortest
    body after each opener, scanning on after its closing fence. *)
Fixpoint findall_blocks (fuel : nat) (s : string) : list string :=
  match fuel with
  | O => []
  | S fuel' =>
      match split_at fence_open s with
      | None => []
      | Some (_, rest) =>
          match split_at fence_close rest with
          | None => []
          | Some (body, rest') => body :: findall_blocks fuel' rest'
          end
      end
  end.

Definition code_blocks (s : string) : list string :=
  findall_blocks (String.length s) s.

(** A block with real implementation: ['def ' in block or 'class ' in
    block]. *)
Definition has_definition (block : string) : bool :=
  contains "def " block || contains "class " block.

(** The test on a block of the terminal text (the first loop). *)
Definition is_main_terminal (block : string) : bool :=
  negb (contains "def test_" block) && negb (contains "import pytest" block)
  && has_definition block.

(** The test on a block of the builder's text (the second loop). *)
Definition is_main_builder (block : string) : bool :=
  negb (contains "def test_" block) && negb (contains "import unittest" block)
  && has_definition block.

(** The loop [for block in blocks: if test(block): code = block.strip();
    break]. *)
Fixpoint first_main (test : string -> bool) (blocks : list string) : option string :=
  match blocks with
  | [] => None
  | block :: rest => if test block then Some (strip block) else first_main test rest
  end.

(** Truthiness of [deliverables.get('code')]. *)
Definition has_code (code : option string) : bool :=
  match code with
  | Some c => nonempty c
  | None => false
  end.

(** [deliverables['code']] after the scan of the terminal text; [None]
    when the key is not set. *)
Definition code_from_terminal (final_result_str : string) : option string :=
  match code_blocks final_result_str with
  | [] => None
  | (first :: _) as blocks =>
      match first_main is_main_terminal blocks with
      | Some main_code => if nonempty main_code then Some main_code else Some (strip first)
      | None => Some (strip first)
      end
  end.

(** The fallback on the builder's text, entered when no code was found
    so far. *)
Definition code_from_builder (code : option string) (builder_str : string) : option string :=
  match code_blocks builder_str with
  | [] => code
  | (first :: _) as blocks =>
      let code := match first_main is_main_builder blocks with
                  | Some c => Some c
                  | None => code
                  end in
      if has_code code then code else Some (strip first)
  end.

(** The joined text of the builder's message, when the whole attribute
    chain is there. *)
Definition builder_text (r : SwarmResult) : option string :=
  match agent_entry r "builder_agent" with
  | Some builder_result =>
      match nr_result builder_result with
      | Some agent_result =>
          match message agent_result with
          | Some content => Some (join nl (text_parts content))
          | None => None
          end
      | None => None
      end
  | None => None
  end.

(** [deliverables.get('code')] at the end of the extraction. *)
Definition extract_code (final_result_str : string) (builder_str : option string)
    : option string :=
  let code := code_from_terminal final_result_str in
  if has_code code then code
  else match builder_str with
       | Some b => code_from_builder code b
       | None => code
       end.

(** ** Decision *)

Definition extract_decision (final_result_str : string) : string :=
  let final_decision := "COMPLETE" in
  if contains "DECISION: ESCALATE" final_result_str then "ESCALATE"
  else if contains "DECISION: COMPLETE" final_result_str then "COMPLETE"
  else if contains "ESCALATE" (upper final_result_str)
          && negb (contains "DO NOT ESCALATE" (upper final_result_str))
       then "ESCALATE"
  else final_decision.

(** ** Complexity and quality score *)

(** [' '.join(...)] over the dict items of an agent's message; [None]
    when the attribute chain is broken. *)
Definition agent_joined_text (nr : NodeResult) : option string :=
  match nr_result nr with
  | Some agent_result =>
      match message agent_result with
      | Some content => Some (join " " (dict_texts content))
      | None => None
      end
  | None => None
  end.

(** The structured form of a tag: [complexity": "simple] with the two
    double quotes of the JSON text. *)
Definition json_tag (tag : string) : string :=
  "complexity" ++ dquote ++ ": " ++ dquote ++ tag.

(** The [if]/[elif] chain on the lower-cased text of the requirements
    agent. *)
Definition complexity_of_text (text : string) : string :=
  let text_lower := lower text in
  if contains (json_tag "simple") text_lower || contains "complexity: simple" text_lower
  then "simple"
  else if contains (json_tag "medium") text_lower || contains "complexity: medium" text_lower
  then "medium"
  else if contains (json_tag "complex") text_lower || contains "complexity: complex" text_lower
  then "complex"
  else "unknown".

Definition _extract_complexity (r : SwarmResult) : string :=
  match agent_entry r "requirements_agent" with
  | None => "unknown"
  | Some req_result =>
      match agent_joined_text req_result with
      | Some text => complexity_of_text text
      | None => "unknown"
      end
  end.

(** The longest run of digits at the head of [s]. *)
Fixpoint take_digits (s : string) : string :=
  match s with
  | String a s' => if is_digit a then String a (take_digits s') else EmptyString
  | EmptyString => EmptyString
  end.

(** The pattern [[Ss]core:?\s*(\d+)(?:/100)?] anchored at the head of
    [s]; the result is group 1. *)
Definition match_score (s : string) : option string :=
  match s with
  | String c rest =>
      if (Ascii.eqb c "S" || Ascii.eqb c "s") && starts_with "core" rest then
        let rest := drop 4 rest in
        let rest := match rest with
                    | String ":" rest' => rest'
                    | _ => rest
                    end in
        let digits := take_digits (lstrip rest) in
        if nonempty digits then Some digits else None
      else None
  | EmptyString => None
  end.

(** [re.search]: the match at the leftmost offset. *)
Fixpoint search_score (s : string) : option string :=
  match match_score s with
  | Some digits => Some digits
  | None =>
      match s with
      | EmptyString => None
      | String _ s' => search_score s'
      end
  end.

Definition _extract_quality_score (r : SwarmResult) : result Z :=
  match agent_entry r "quality_agent" with
  | None => Ok 85%Z
  | Some quality_result =>
      match agent_joined_text quality_result with
      | Some text =>
          match search_score text with
          | Some digits => py_int (PyStr digits)
          | None =>
              match nr_context quality_result with
              | Some context =>
                  match get context "quality_score" with
                  | Some v => py_int v
                  | None => Ok 85%Z
                  end
              | None => Ok 85%Z
              end
          end
      | None => Ok 85%Z
      end
  end.

(** ** [process_task] *)

(** The run result. [agent_outputs], [quality_metrics] and
    [shared_knowledge] are display copies of the node history and are
    not represented; [passthrough] holds the extra keys copied from a
    mock dict. *)
Record RunRecord := {
  success : PyVal;
  task_description : string;
  final_result : string;
  final_message : string;
  agent_sequence : list string;
  deliverables : option string;
  handoff_count : Z;
  execution_time_ms : Z;
  total_tokens : Z;
  code : PyVal;
  final_decision : PyVal;
  payment : PaymentCalculator.Payment;
  passthrough : Dict PyVal
}.

(** What the caller receives: the run result, or the error record
    [{"success": False, "task_description": ..., "error": str(e)}]. *)
Inductive Response :=
| RunResponse (r : RunRecord)
| ErrorResponse (success : bool) (task_description error : string).

(** [len(code.split('\n'))]. *)
Fixpoint count_lines (code : string) : Z :=
  match code with
  | EmptyString => 1
  | String a rest => if Ascii.eqb a (ascii_of_nat 10) then 1 + count_lines rest
                     else count_lines rest
  end.

(** [result.status == "success"] when there is a status, else the mock's
    ['success'] entry (default [True]), else [True]. *)
Definition success_status_of (r : SwarmResult) : PyVal :=
  match r with
  | ResultObj o =>
      match status o with
      | Some s => PyBool (String.eqb s "success")
      | None => PyBool true
      end
  | ResultDict d _ =>
      match get d "success" with
      | Some v => v
      | None => PyBool true
      end
  end.

(** The keys copied through from a mock dict. *)
Definition mock_get (r : SwarmResult) (key : string) : option PyVal :=
  match r with
  | ResultObj _ => None
  | ResultDict d _ => get d key
  end.

Definition mock_extra (r : SwarmResult) : Dict PyVal :=
  flat_map (fun key => match mock_get r key with
                       | Some v => [(key, v)]
                       | None => []
                       end)
           ["decision"; "tests"; "tokens_used"; "latency_ms"].

(** The body of the [try] block. *)
Definition process_task_body (swarm : string -> result SwarmResult)
    (task_description : string) : result RunRecord :=
  let* r := swarm task_description in
  let agent_sequence :=
    match node_history_of r with
    | Some h => map node_id h
    | None => []
    end in
  let handoff_count :=
    if (1 <? length agent_sequence)%nat
    then (Z.of_nat (length agent_sequence) - 1)%Z else 0%Z in
  let execution_time_ms :=
    match execution_time_of r with Some t => t | None => 0%Z end in
  let final_result_str := final_result_str_of r in
  let code := extract_code final_result_str (builder_text r) in
  let success_status := success_status_of r in
  let final_decision := extract_decision final_result_str in
  let complexity := _extract_complexity r in
  let* quality_score := _extract_quality_score r in
  let code_lines :=
    match code with
    | Some c => if nonempty c then count_lines c else 0%Z
    | None => 0%Z
    end in
  let tokens_used :=
    match accumulated_usage_of r with
    | Some usage => match get usage "totalTokens" with Some n => n | None => 0%Z end
    | None => 0%Z
    end in
  let* payment_info :=
    PaymentCalculator.calculate_task_payment
      complexity quality_score execution_time_ms tokens_used code_lines in
  Ok {| success := py_and success_status (PyBool (String.eqb final_decision "COMPLETE"));
        task_description := task_description;
        final_result := final_result_str;
        final_message := take 300 final_result_str;
        agent_sequence := agent_sequence;
        deliverables := code;
        handoff_count := handoff_count;
        execution_time_ms := execution_time_ms;
        total_tokens := tokens_used;
        code := match mock_get r "code" with
                | Some v => v
                | None => match code with Some c => PyStr c | None => PyNone end
                end;
        final_decision := match mock_get r "final_decision" with
                          | Some v => v
                          | None => PyStr final_decision
                          end;
        payment := payment_info;
        passthrough := mock_extra r |}.

(** [process_task]: the [try] body, and the [except Exception] handler
    that turns an exception into the error record. *)
Definition process_task (swarm : string -> result SwarmResult)
    (task_description : string) : Response :=
  match process_task_body swarm task_description with
  | Ok response => RunResponse response
  | Raise e => ErrorResponse false task_description e
  end.

(** The ['success'] entry of what the caller receives. *)
Definition response_success (resp : Response) : PyVal :=
  match resp with
  | RunResponse r => success r
  | ErrorResponse s _ _ => PyBool s
  end.

(** The ['error'] entry, when there is one. *)
Definition response_error (resp : Response) : option string :=
  match resp with
  | RunResponse _ => None
  | ErrorResponse _ _ e => Some e
  end.

End SwarmOrchestrator.

(* ================================================================= *)
(** * The handoff state machine *)

Module HandoffMachine.

Inductive Role := requirements | context | builder | quality | escalation.

Definition Role_eqb (a b : Role) : bool :=
  match a, b with
  | requirements, requirements | context, context | builder, builder
  | quality, quality | escalation, escalation => true
  | _, _ => false
  end.

(** The bounds passed to [Swarm(...)] by [CodeCollabSwarm.__init__]. *)
Record Config := {
  max_handoffs : nat;
  max_iterations : nat;
  repetitive_handoff_detection_window : nat;
  repetitive_handoff_min_unique_agents : nat
}.

Definition swarm_config : Config :=
  {| max_handoffs := 10;
     max_iterations := 10;
     repetitive_handoff_detection_window := 5;
     repetitive_handoff_min_unique_agents := 3 |}.

(** Modelled from the spec: what an activation yields (the spec's
    tagged transition result). The activation itself is the [Swarm]
    class of the [strands] package, which is not part of the sources. *)
Inductive Directive :=
| Handoff (target : Role)
| NoDirective
| NodeTimeout
| InvocationFailure.

(** Modelled from the spec: why a run stopped. [Finished] is the normal
    end; the others are the failure tags of the spec. *)
Inductive Termination :=
| Finished
| HandoffLimit
| IterationLimit
| RepetitiveHandoff
| TimedOut
| Failed.

Definition is_failure (t : Termination) : bool :=
  match t with Finished => false | _ => true end.

(** The distinct roles of a list. *)
Fixpoint distinct (l : list Role) : list Role :=
  match l with
  | [] => []
  | r :: l' => if existsb (Role_eqb r) l' then distinct l' else r :: distinct l'
  end.

(** Modelled from the spec: the repetitive-handoff test on the last
    [window] activations of the sequence, once that many exist. *)
Definition repetitive (cfg : Config) (seq : list Role) : bool :=
  let window := repetitive_handoff_detection_window cfg in
  (window <=? length seq)%nat
  && (length (distinct (skipn (length seq - window) seq))
      <? repetitive_handoff_min_unique_agents cfg)%nat.

(** Modelled from the spec: the run of the machine. [budget] is the
    number of activations still allowed by [max_iterations]; [seq] is
    the agent sequence so far and [current] the role to activate. The
    capability is an arbitrary function of the history: the machine
    does not trust it. An activation is recorded, then its directive is
    checked against the bounds before the transition is taken. *)
Fixpoint run_from (cfg : Config) (capability : list Role -> Role -> Directive)
    (budget : nat) (seq : list Role) (current : Role)
    : list Role * Termination :=
  match budget with
  | O => (seq, IterationLimit)
  | S budget' =>
      let seq' := seq ++ [current] in
      match capability seq current with
      | NoDirective => (seq', Finished)
      | NodeTimeout => (seq', TimedOut)
      | InvocationFailure => (seq', Failed)
      | Handoff target =>
          if (max_handoffs cfg <=? length seq)%nat then (seq', HandoffLimit)
          else if repetitive cfg seq' then (seq', RepetitiveHandoff)
          else run_from cfg capability budget' seq' target
      end
  end.

(** Modelled from the spec: a run starts in the [requirements] state
    with an empty sequence. *)
Definition run (cfg : Config) (capability : list Role -> Role -> Directive)
    : list Role * Termination :=
  run_from cfg capability (max_iterations cfg) [] requirements.

(** Transitions of a sequence: its length minus one, none for a
    sequence of at most one activation (the [handoff_count] of
    [process_task]). *)
Definition transitions (seq : list Role) : nat :=
  if (1 <? length seq)%nat then length seq - 1 else 0.

(** What holds of a result of [run_from] entered with [budget] and
    [seq]: its length, its transitions and the reason of its end. *)
Definition run_invariant (cfg : Config) (capability : list Role -> Role -> Directive)
    (budget : nat) (seq : list Role) (out : list Role * Termination) : Prop :=
  (length (fst out) <= length seq + budget
   /\ length (fst out) <= S (max_handoffs cfg)
   /\ (snd out = Finished ->
       exists s c, fst out = s ++ [c] /\ capability s c = NoDirective)
   /\ (snd out = HandoffLimit ->
       exists s c target, fst out = s ++ [c] /\ capability s c = Handoff target
                          /\ max_handoffs cfg <= length s)
   /\ (snd out = IterationLimit -> length (fst out) = length seq + budget))%nat.

End HandoffMachine.

(* ================================================================= *)
(** * [simple_api_server.py] *)

Module ApiServer.

Section History.

(** The response dicts stored in the history. *)
Variable Entry : Type.

(** The requests that touch [task_history]. [PostProcess (Some resp)]
    is a [POST /api/process] whose handler reached the store with the
    response [resp]; [PostProcess None] is one whose handler raised
    before and answered 500. *)
Inductive Request :=
| PostProcess (outcome : option Entry)
| PostClear
| OtherRequest.

(** [task_history.append(response)], then [task_history.pop(0)] when
    the length exceeds 50. *)
Definition store (task_history : list Entry) (response : Entry) : list Entry :=
  let task_history := task_history ++ [response] in
  if (50 <? length task_history)%nat then tl task_history else task_history.

(** The effect of one request on the global list. *)
Definition handle (task_history : list Entry) (req : Request) : list Entry :=
  match req with
  | PostProcess (Some response) => store task_history response
  | PostProcess None => task_history
  | PostClear => []
  | OtherRequest => task_history
  end.

(** The server handles its requests one after the other, starting with
    [task_history = []]. *)
Definition serve (reqs : list Request) : list Entry :=
  fold_left handle reqs [].

(** [task_history[-10:]], the body of [GET /api/history]. *)
Definition history_view (task_history : list Entry) : list Entry :=
  skipn (length task_history - 10) task_history.

End History.

End ApiServer.

(* ================================================================= *)
(** * The statements of the specification, as definitions *)

Module SpecWords.

Import PyStr PyInt SwarmOrchestrator.
Local Open Scope string_scope.

(** ** Decision: the precedence of the four rules *)

Inductive decision_spec (text : string) : string -> Prop :=
| decide_escalate_marker :
    occurs "DECISION: ESCALATE" text ->
    decision_spec text "ESCALATE"
| decide_complete_marker :
    ~ occurs "DECISION: ESCALATE" text ->
    occurs "DECISION: COMPLETE" text ->
    decision_spec text "COMPLETE"
| decide_escalate_token :
    ~ occurs "DECISION: ESCALATE" text ->
    ~ occurs "DECISION: COMPLETE" text ->
    occurs "ESCALATE" (upper text) ->
    ~ occurs "DO NOT ESCALATE" (upper text) ->
    decision_spec text "ESCALATE"
| decide_default :
    ~ occurs "DECISION: ESCALATE" text ->
    ~ occurs "DECISION: COMPLETE" text ->
    ~ (occurs "ESCALATE" (upper text) /\ ~ occurs "DO NOT ESCALATE" (upper text)) ->
    decision_spec text "COMPLETE".

(** ** Complexity *)

(** A tag is named by the text when one of its two phrases occurs in
    the lower-cased text. *)
Definition names_tag (tag text : string) : Prop :=
  occurs (json_tag tag) (lower text) \/ occurs ("complexity: " ++ tag) (lower text).

(** The precedence of the code: simple, then medium, then complex. *)
Inductive complexity_spec (text : string) : string -> Prop :=
| complexity_simple :
    names_tag "simple" text -> complexity_spec text "simple"
| complexity_medium :
    ~ names_tag "simple" text -> names_tag "medium" text ->
    complexity_spec text "medium"
| complexity_complex :
    ~ names_tag "simple" text -> ~ names_tag "medium" text ->
    names_tag "complex" text -> complexity_spec text "complex"
| complexity_unknown :
    ~ names_tag "simple" text -> ~ names_tag "medium" text ->
    ~ names_tag "complex" text -> complexity_spec text "unknown".

(** The tag of a phrase that starts at the head of [s], if any. *)
Definition tag_here (s : string) : option string :=
  let hit tag := starts_with (json_tag tag) s || starts_with ("complexity: " ++ tag) s in
  if hit "simple" then Some "simple"
  else if hit "medium" then Some "medium"
  else if hit "complex" then Some "complex"
  else None.

(** The reading in which the first match in the text wins: the phrase
    at the smallest offset of the lower-cased text gives the tag. *)
Fixpoint first_tag (s : string) : string :=
  match tag_here s with
  | Some tag => tag
  | None =>
      match s with
      | EmptyString => "unknown"
      | String _ s' => first_tag s'
      end
  end.

Definition complexity_first_match (text : string) : string :=
  first_tag (lower text).

(** ** Quality score *)

(** A run of characters that all satisfy [p]. *)
Fixpoint all_chars (p : ascii -> bool) (s : string) : bool :=
  match s with
  | EmptyString => true
  | String a s' => p a && all_chars p s'
  end.

(** The text does not go on with a digit. *)
Definition no_digit_ahead (s : string) : Prop :=
  match s with
  | EmptyString => True
  | String a _ => is_digit a = false
  end.

(** The match of the pattern [[Ss]core:?\s*(\d+)(?:/100)?] at the head
    of [s]: its quantifiers are greedy, so group 1 holds all the digits
    that stand there. *)
Definition score_match_here (s digits : string) : Prop :=
  exists c colon spaces rest,
    s = String c ("core" ++ colon ++ spaces ++ digits ++ rest)
    /\ (c = "S"%char \/ c = "s"%char)
    /\ (colon = EmptyString \/ colon = ":")
    /\ all_chars is_space spaces = true
    /\ all_chars is_digit digits = true
    /\ digits <> EmptyString
    /\ no_digit_ahead rest.

(** The pattern matches at the given offset of the text. *)
Definition score_match_at (text : string) (offset : nat) (digits : string) : Prop :=
  exists pre rest,
    text = pre ++ rest /\ String.length pre = offset /\ score_match_here rest digits.

(** What [re.search] reports: the match at the smallest offset. *)
Definition leftmost_score (text digits : string) : Prop :=
  exists offset,
    score_match_at text offset digits
    /\ forall offset' digits', score_match_at text offset' digits' -> (offset <= offset')%nat.

(** [re.search] finds nothing. *)
Definition no_score (text : string) : Prop :=
  forall offset digits, ~ score_match_at text offset digits.

(** The number that a run of decimal digits writes. *)
Fixpoint decimal (digits : string) : Z :=
  match digits with
  | EmptyString => 0
  | String a rest => digit_value a * 10 ^ Z.of_nat (String.length rest) + decimal rest
  end.

(** Where the score comes from, in the order of the code: the pattern
    in the text, then the [quality_score] entry of the context, then
    the default. *)
Inductive quality_spec (r : SwarmResult) : result Z -> Prop :=
| quality_no_agent :
    agent_entry r "quality_agent" = None ->
    quality_spec r (Ok 85%Z)
| quality_no_text nr :
    agent_entry r "quality_agent" = Some nr ->
    agent_joined_text nr = None ->
    quality_spec r (Ok 85%Z)
| quality_pattern nr text digits :
    agent_entry r "quality_agent" = Some nr ->
    agent_joined_text nr = Some text ->
    leftmost_score text digits ->
    (String.length digits <= 4300)%nat ->
    quality_spec r (Ok (decimal digits))
| quality_pattern_too_long nr text digits :
    agent_entry r "quality_agent" = Some nr ->
    agent_joined_text nr = Some text ->
    leftmost_score text digits ->
    (4300 < String.length digits)%nat ->
    quality_spec r (Raise (too_many_digits (String.length digits)))
| quality_context nr text ctx v :
    agent_entry r "quality_agent" = Some nr ->
    agent_joined_text nr = Some text ->
    no_score text ->
    nr_context nr = Some ctx ->
    get ctx "quality_score" = Some v ->
    quality_spec r (py_int v)
| quality_default nr text :
    agent_entry r "quality_agent" = Some nr ->
    agent_joined_text nr = Some text ->
    no_score text ->
    (nr_context nr = None \/
     exists ctx, nr_context nr = Some ctx /\ get ctx "quality_score" = None) ->
    quality_spec r (Ok 85%Z).

(** ** Code extraction *)

(** The preferred region: the first one that holds a definition and is
    not a test module, else the first region. *)
Definition select_block (test : string -> bool) (blocks : list string) : option string :=
  match blocks with
  | [] => None
  | first :: _ =>
      match first_main test blocks with
      | Some c => Some c
      | None => Some (strip first)
      end
  end.

(** The claim as worded: regions of the terminal text, else the same
    search on the fallback text, else nothing. *)
Definition extract_code_spec (terminal fallback : string) : option string :=
  match select_block is_main_terminal (code_blocks terminal) with
  | Some c => Some c
  | None => select_block is_main_terminal (code_blocks fallback)
  end.

(** The code as designed: an empty preferred region counts as no code,
    and the fallback text (when the builder's message is there) then
    supplies its preferred region. [test] is the test applied to the
    builder's regions. *)
Definition extract_code_design (test : string -> bool)
    (terminal : string) (fallback : option string) : option string :=
  let candidate := select_block is_main_terminal (code_blocks terminal) in
  if has_code candidate then candidate
  else match fallback with
       | Some b =>
           match select_block test (code_blocks b) with
           | Some c => Some c
           | None => candidate
           end
       | None => candidate
       end.

(** [p] stands in [s] after [pre] and before [post], and nowhere
    earlier. *)
Definition first_occurrence (p s pre post : string) : Prop :=
  s = pre ++ p ++ post
  /\ forall pre' post',
       s = pre' ++ p ++ post' -> (String.length pre <= String.length pre')%nat.

(** The fenced python regions of a text, from left to right, as the
    pattern of the code finds them: a region starts after the first
    opening fence, its body ends before the first closing fence that
    follows, and the search goes on behind that fence; an opening fence
    that is never closed ends the search. *)
Inductive fenced_regions : string -> list string -> Prop :=
| regions_no_opener s :
    ~ occurs fence_open s ->
    fenced_regions s []
| regions_unclosed s pre rest :
    first_occurrence fence_open s pre rest ->
    ~ occurs fence_close rest ->
    fenced_regions s []
| regions_next s pre rest body rest' regions :
    first_occurrence fence_open s pre rest ->
    first_occurrence fence_close rest body rest' ->
    fenced_regions rest' regions ->
    fenced_regions s (body :: regions).

(** A region that holds an implementation: a [def] or a [class], and
    no mark of a test module, [def test_] or [import pytest]. *)
Definition implementation_region (region : string) : Prop :=
  (occurs "def " region \/ occurs "class " region)
  /\ ~ occurs "def test_" region
  /\ ~ occurs "import pytest" region.

(** The region that the search prefers: the first one that holds an
    implementation, else the first region. *)
Inductive preferred_region : list string -> string -> Prop :=
| preferred_implementation before region after :
    (forall r, In r before -> ~ implementation_region r) ->
    implementation_region region ->
    preferred_region (before ++ region :: after) region
| preferred_first region rest :
    (forall r, In r (region :: rest) -> ~ implementation_region r) ->
    preferred_region (region :: rest) region.

(** What the terminal text leaves when it gives no code: nothing when
    it has no region, the empty text when its preferred region is
    blank. *)
Inductive no_code_in : list string -> option string -> Prop :=
| no_region : no_code_in [] None
| blank_region regions region :
    preferred_region regions region ->
    strip region = EmptyString ->
    no_code_in regions (Some EmptyString).

(** The scan of the builder's text looks for [import unittest] where
    the scan of the terminal text looks for [import pytest]. The two
    scans judge a region alike when it has no [def] or [class], or has
    a [def test_], or holds both imports or neither. *)
Definition scans_agree_on (region : string) : Prop :=
  (occurs "def " region \/ occurs "class " region) ->
  ~ occurs "def test_" region ->
  (occurs "import pytest" region <-> occurs "import unittest" region).

(** The scans agree on every region that the search looks at: the
    regions up to and including the first one that holds an
    implementation, all of them when there is none. *)
Definition scans_agree_until (regions : list string) : Prop :=
  forall before region after,
    regions = (before ++ region :: after)%list ->
    (forall r, In r before -> ~ implementation_region r) ->
    scans_agree_on region.

(** ** Success *)

(** The run counts as terminated normally: the status is ["success"],
    or there is no status and the mock's ['success'] entry, when given,
    is truthy. *)
Definition run_ok (r : SwarmResult) : Prop :=
  match r with
  | ResultObj o => status o = Some "success" \/ status o = None
  | ResultDict d _ =>
      match get d "success" with
      | Some v => truthy v = true
      | None => True
      end
  end.

(** The claim as worded: the run has the status ["success"]. *)
Definition status_is_success (r : SwarmResult) : Prop :=
  match r with
  | ResultObj o => status o = Some "success"
  | ResultDict _ _ => False
  end.

(** ** Sample results *)

(** The joined text of an agent's message, when the agent has one. *)
Definition agent_text (r : SwarmResult) (name : string) : option string :=
  match agent_entry r name with
  | Some nr => agent_joined_text nr
  | None => None
  end.

(** A result object whose [results] hold one agent with a one-item
    message, and whose status is [status]. *)
Definition result_with_agent (status : option string) (name text : string)
    : SwarmResult :=
  ResultObj
    {| node_history := None;
       execution_time := None;
       results := Some [(name, {| nr_result := Some {| message := Some [TextItem text] |};
                                  nr_context := None |})];
       status := status;
       accumulated_usage := None;
       repr := EmptyString |}.

(** A fenced region around [body], as it stands in a text. *)
Definition fenced (body : string) : string := fence_open ++ body ++ fence_close.

(** ** Pricing *)

Import PaymentCalculator Float64.

(** The float nearest to a whole number of cents. *)
Definition cents (n : Z) : float := RN (inject_Z n / 100).

(** The order of the quality tiers, lowest first. *)
Definition quality_rank (t : QualityTier) : nat :=
  match t with
  | needs_work => 0
  | acceptable => 1
  | good => 2
  | excellent => 3
  end.

(** The order of the time tiers, slowest first. *)
Definition speed_rank (t : TimeTier) : nat :=
  match t with
  | slow => 0
  | normal => 1
  | fast => 2
  | very_fast => 3
  end.

(** The integers from which [float] overflows: rounding to 53 bits
    takes them to [2^1024]. *)
Definition float_int_bound : Z := (2 ^ 1024 - 2 ^ 970)%Z.

(** The price formula of [calculate_payment]: the product of the three
    factors plus the token cost, rounded to cents, then raised to the
    minimum of one cent. *)
Definition price (base quality_multiplier time_multiplier token_cost : float) : float :=
  py_max (lit (1 # 100))
         (py_round (fadd (fmul (fmul base quality_multiplier) time_multiplier) token_cost) 2).

(** The two guarded conversions of [calculate_payment], by name. *)
Definition seconds_of (execution_time_ms : Z) : result float :=
  if (execution_time_ms >? 0)%Z
  then let* ms := float_of_int execution_time_ms in Ok (fdiv ms (lit 1000))
  else Ok 0.

Definition token_cost_of (tokens_used : Z) : result float :=
  if (tokens_used >? 0)%Z
  then let* n := float_of_int tokens_used in
       Ok (fmul (fdiv n (lit 1000)) TOKEN_COST_PER_1K)
  else Ok 0.

(** The amount of a payment computation, when it returns. *)
Definition amount_of (p : result Payment) : result float :=
  let* payment := p in Ok (amount payment).

End SpecWords.

(* ================================================================= *)
(** * [swarm_orchestrator.py], the other methods *)

Module SwarmOrchestratorMore.

Import PyStr SwarmOrchestrator.
Local Open Scope string_scope.

(** [d[k] = v] on a dict: the value of an existing key is replaced in
    place, a new key goes to the end. *)
Fixpoint dict_set {V : Type} (d : Dict V) (k : string) (v : V) : Dict V :=
  match d with
  | [] => [(k, v)]
  | (k', v') :: d' =>
      if String.eqb k' k then (k', v) :: d' else (k', v') :: dict_set d' k v
  end.

(** A node of the history with the attributes that
    [_extract_shared_knowledge] reads: [hn_context] is [str(node.context)]
    when the attribute is there and truthy, [hn_handoff_message] the
    attribute [handoff_message] when it is there. *)
Record HistoryNode := {
  hn_node : Node;
  hn_context : option string;
  hn_handoff_message : option PyVal
}.

(** An entry of the shared knowledge. *)
Record Knowledge := {
  contribution : string;
  handoff_message : PyVal
}.

(** The body of the loop of [_extract_shared_knowledge]. *)
Definition record_knowledge (knowledge : Dict Knowledge) (node : HistoryNode)
    : Dict Knowledge :=
  match hn_context node with
  | Some context =>
      dict_set knowledge (node_id (hn_node node))
        {| contribution := take 200 context;
           handoff_message := match hn_handoff_message node with
                              | Some m => m
                              | None => PyNone
                              end |}
  | None => knowledge
  end.

Definition _extract_shared_knowledge (node_history : list HistoryNode) : Dict Knowledge :=
  fold_left record_knowledge node_history [].

(** The record returned by [process_task_async]; [final_result] and
    [shared_knowledge] are not represented. *)
Record AsyncRecord := {
  a_success : PyVal;
  a_task_description : string;
  a_agent_sequence : list string;
  a_handoff_count : Z;
  a_execution_time_ms : Z
}.

Inductive AsyncResponse :=
| AsyncRun (r : AsyncRecord)
| AsyncError (success : bool) (task_description error : string).

(** [process_task_async]; [swarm] is the outcome of
    [await self.swarm.invoke_async(task_description)]. *)
Definition process_task_async (swarm : string -> result SwarmResult)
    (task_description : string) : AsyncResponse :=
  match swarm task_description with
  | Raise e => AsyncError false task_description e
  | Ok r =>
      let agent_sequence :=
        match node_history_of r with
        | Some h => map node_id h
        | None => []
        end in
      let handoff_count :=
        if (1 <? length agent_sequence)%nat
        then (Z.of_nat (length agent_sequence) - 1)%Z else 0%Z in
      AsyncRun
        {| a_success :=
             match r with
             | ResultObj o =>
                 match status o with
                 | Some s => PyBool (String.eqb s "success")
                 | None => PyBool true
                 end
             | ResultDict _ _ => PyBool true
             end;
           a_task_description := task_description;
           a_agent_sequence := agent_sequence;
           a_handoff_count := handoff_count;
           a_execution_time_ms :=
             match execution_time_of r with Some t => t | None => 0%Z end |}
  end.

End SwarmOrchestratorMore.

(* ================================================================= *)
(** * [simple_api_server.py], the handler of [POST /api/process] *)

Module ApiHandler.

Import PyStr SwarmOrchestrator.
Local Open Scope string_scope.

(** The parsed body of the request: the three entries read with
    [data.get(key, '')]. *)
Record ProcessRequest := {
  task : string;
  github_url : string;
  requirements : string
}.

(** The ['payment'] entry of the answer: the payment of the run, or the
    default [{"amount": 0.05, "currency": "USD"}]. *)
Inductive ApiPayment :=
| RunPayment (p : PaymentCalculator.Payment)
| DefaultPayment.

(** The answer built from the result of the swarm; the copy of
    [agent_outputs] is not represented. *)
Record SwarmAnswer := {
  ans_success : PyVal;
  ans_task_description : string;
  ans_github_url : string;
  ans_requirements : string;
  ans_agent_sequence : list string;
  ans_final_result : option string;
  ans_code : PyVal;
  ans_final_decision : PyVal;
  ans_execution_time_ms : Z;
  ans_tokens_used : PyVal;
  ans_payment : ApiPayment
}.

(** The mock answer. *)
Record MockAnswer := {
  mock_success : bool;
  mock_task_description : string;
  mock_github_url : string;
  mock_requirements : string;
  mock_agent_sequence : list string;
  mock_final_decision : string;
  mock_code : option string;
  mock_execution_time_ms : Z;
  mock_tokens_used : Z;
  mock_github_analyzed : bool
}.

Inductive Answer :=
| FromSwarm (a : SwarmAnswer)
| FromMock (m : MockAnswer).

Definition display_agents : list string :=
  ["RequirementsAgent"; "ContextAgent"; "BuilderAgent"; "QualityAgent"; "EscalationAgent"].

(** The task handed to the swarm: the description, then the repository
    and the requirements when given. *)
Definition full_task_of (req : ProcessRequest) : string :=
  let full_task := task req in
  let full_task :=
    if nonempty (github_url req)
    then full_task ++ nl ++ nl ++ "GitHub Repository: " ++ github_url req
    else full_task in
  if nonempty (requirements req)
  then full_task ++ nl ++ nl ++ "Additional Requirements: " ++ requirements req
  else full_task.

(** [any(word in task_description.lower() for word in [...])]. *)
Definition is_complex (task_description : string) : bool :=
  existsb (fun word => contains word (lower task_description))
          ["microservice"; "architecture"; "distributed"].

(** The code of the mock answer. *)
Definition mock_code_text : string :=
  "def process_task(task: str) -> str:" ++ nl
  ++ "    " ++ dquote ++ dquote ++ dquote ++ "Process the given task"
  ++ dquote ++ dquote ++ dquote ++ nl
  ++ "    # Implementation here" ++ nl
  ++ "    return f" ++ dquote ++ "Processed: {task}" ++ dquote.

(** [result.get(key, default)] on what [process_task] returned, for
    the keys that the handler reads. *)
Definition answer_of_result (req : ProcessRequest) (result : Response) : SwarmAnswer :=
  match result with
  | RunResponse r =>
      {| ans_success := success r;
         ans_task_description := task req;
         ans_github_url := github_url req;
         ans_requirements := requirements req;
         ans_agent_sequence := agent_sequence r;
         ans_final_result := Some (final_result r);
         ans_code := code r;
         ans_final_decision := final_decision r;
         ans_execution_time_ms := execution_time_ms r;
         ans_tokens_used := match get (passthrough r) "tokens_used" with
                            | Some v => v
                            | None => PyInt 500
                            end;
         ans_payment := RunPayment (payment r) |}
  | ErrorResponse s _ _ =>
      {| ans_success := PyBool s;
         ans_task_description := task req;
         ans_github_url := github_url req;
         ans_requirements := requirements req;
         ans_agent_sequence := display_agents;
         ans_final_result := None;
         ans_code := PyNone;
         ans_final_decision := PyStr "COMPLETE";
         ans_execution_time_ms := 2500;
         ans_tokens_used := PyInt 500;
         ans_payment := DefaultPayment |}
  end.

Definition mock_answer (req : ProcessRequest) : MockAnswer :=
  let complex := is_complex (task req) in
  {| mock_success := true;
     mock_task_description := task req;
     mock_github_url := github_url req;
     mock_requirements := requirements req;
     mock_agent_sequence := display_agents;
     mock_final_decision := if complex then "ESCALATE" else "COMPLETE";
     mock_code := if negb complex then Some mock_code_text else None;
     mock_execution_time_ms := 2500;
     mock_tokens_used := 750;
     mock_github_analyzed := nonempty (github_url req) |}.

(** The answer to a well-formed request; [swarm] is the global of the
    module, [None] when the orchestrator could not be built. *)
Definition answer (swarm : option (string -> result SwarmResult))
    (req : ProcessRequest) : Answer :=
  match swarm with
  | Some sw =>
      if nonempty (task req)
      then FromSwarm (answer_of_result req (process_task sw (full_task_of req)))
      else FromMock (mock_answer req)
  | None => FromMock (mock_answer req)
  end.

(** The handler: the answer is stored in the history and sent. *)
Definition do_POST_process (swarm : option (string -> result SwarmResult))
    (task_history : list Answer) (req : ProcessRequest)
    : Answer * list Answer :=
  let response := answer swarm req in
  (response, ApiServer.store task_history response).

End ApiHandler.

(* ================================================================= *)
(** * Further statements, as definitions *)

Module MoreWords.

Import PyStr PaymentCalculator Float64.
Local Open Scope string_scope.

(** The time tier read off the milliseconds: below 30 s, below 60 s, up
    to 120 s, beyond. *)
Definition tier_of_ms (execution_time_ms : Z) : TimeTier :=
  if (execution_time_ms <? 30000)%Z then very_fast
  else if (execution_time_ms <? 60000)%Z then fast
  else if (execution_time_ms <=? 120000)%Z then normal
  else slow.

(** The lower-cased tag is one of the three priced complexities. *)
Definition priced_tag (complexity : string) : bool :=
  let tag := lower complexity in
  String.eqb tag "simple" || String.eqb tag "medium" || String.eqb tag "complex".


Import SwarmOrchestrator SpecWords.

(** The text is ASCII: all its characters are below 128. On such a
    text [upper] is exactly [str.upper]. *)
Definition is_ascii (s : string) : bool :=
  all_chars (fun a => (nat_of_ascii a <? 128)%nat) s.

(** ** Texts with fenced regions *)

Definition backtick : ascii := ascii_of_nat 96.

(** No backtick in the text. *)
Definition no_backtick (s : string) : bool :=
  all_chars (fun a => negb (Ascii.eqb a backtick)) s.

(** A text made of pieces of prose, each followed by a fenced region,
    and a last piece of prose. *)
Fixpoint document (parts : list (string * string)) (tail : string) : string :=
  match parts with
  | [] => tail
  | (prose, body) :: rest => prose ++ fenced body ++ document rest tail
  end.

(** The first character of a text, when it has one, is not white
    space. *)
Definition head_solid (s : string) : bool :=
  match s with
  | EmptyString => true
  | String a _ => negb (is_space a)
  end.


Import SwarmOrchestratorMore.

(** ** Shared knowledge *)

(** What a node contributes, when it has a context. *)
Definition knowledge_entry (node : HistoryNode) : option Knowledge :=
  match hn_context node with
  | Some context =>
      Some {| contribution := take 200 context;
              handoff_message := match hn_handoff_message node with
                                 | Some m => m
                                 | None => PyNone
                                 end |}
  | None => None
  end.

(** The contribution of the last node of the history that has the
    given id and a context. *)
Fixpoint latest (id : string) (node_history : list HistoryNode) : option Knowledge :=
  match node_history with
  | [] => None
  | node :: rest =>
      match latest id rest with
      | Some k => Some k
      | None =>
          if String.eqb (node_id (hn_node node)) id then knowledge_entry node else None
      end
  end.


(** ** The history of the server *)

(** The last [n] entries of a list. *)
Definition last_n {A : Type} (n : nat) (l : list A) : list A :=
  skipn (length l - n)%nat l.

(** The responses sent since the history was last cleared, all of them,
    oldest first. *)
Definition record_response {Entry : Type} (log : list Entry)
    (req : ApiServer.Request Entry) : list Entry :=
  match req with
  | ApiServer.PostProcess (Some response) => log ++ [response]
  | ApiServer.PostProcess None => log
  | ApiServer.PostClear _ => []
  | ApiServer.OtherRequest _ => log
  end.

Definition responses_since_clear {Entry : Type} (reqs : list (ApiServer.Request Entry))
    : list Entry :=
  fold_left record_response reqs [].

(** The words that make the mock answer escalate. *)
Definition complex_words : list string :=
  ["microservice"; "architecture"; "distributed"].

End MoreWords.

(* ================================================================= *)
(** * Facts about strings *)

Module PyStrFacts.

Import PyStr.
Local Open Scope string_scope.

Lemma starts_with_spec p s :
  starts_with p s = true <-> exists post, s = p ++ post.
Proof.
  revert s; induction p as [|a p IH]; intros s; simpl.
  - split; [intros _; now exists s | reflexivity].
  - destruct s as [|b s].
    + split; [discriminate | intros [post H]; discriminate].
    + destruct (Ascii.eqb_spec a b) as [->|ne].
      * rewrite IH. split; intros [post H]; exists post.
        -- now rewrite H.
        -- now inversion H.
      * split; [discriminate | intros [post H]; inversion H; congruence].
Qed.

Lemma contains_here p s : starts_with p s = true -> contains p s = true.
Proof. intros H. destruct s; simpl; now rewrite H. Qed.

Lemma contains_occurs p s : contains p s = true <-> occurs p s.
Proof.
  induction s as [|b s IH].
  - simpl. destruct (starts_with p EmptyString) eqn:E.
    + split; [intros _ | reflexivity].
      apply starts_with_spec in E as [post H]. exists EmptyString, post. exact H.
    + split; [discriminate|]. intros [pre [post H]].
      destruct pre; simpl in H; [|discriminate].
      assert (starts_with p EmptyString = true)
        by (apply starts_with_spec; now exists post).
      congruence.
  - simpl. destruct (starts_with p (String b s)) eqn:E.
    + split; [intros _ | reflexivity].
      apply starts_with_spec in E as [post H]. exists EmptyString, post. exact H.
    + rewrite IH. split.
      * intros [pre [post H]]. exists (String b pre), post. simpl. now rewrite H.
      * intros [pre [post H]]. destruct pre as [|c pre]; simpl in H.
        -- assert (starts_with p (String b s) = true)
             by (apply starts_with_spec; now exists post).
           congruence.
        -- inversion H; subst. now exists pre, post.
Qed.

Lemma contains_false_iff p s : contains p s = false <-> ~ occurs p s.
Proof.
  rewrite <- contains_occurs. destruct (contains p s); split; congruence.
Qed.

Lemma lstrip_solid s : has_solid s -> has_solid (lstrip s).
Proof.
  induction s as [|b s IH]; intros (pre & a & post & E & Ha).
  - destruct pre; discriminate.
  - simpl. destruct (is_space b) eqn:Hb.
    + apply IH. destruct pre as [|c pre]; simpl in E; inversion E; subst.
      * congruence.
      * now exists pre, a, post.
    + now exists pre, a, post.
Qed.

Lemma rstrip_solid s : has_solid s -> nonempty (rstrip s) = true.
Proof.
  induction s as [|b s IH]; intros (pre & a & post & E & Ha).
  - destruct pre; discriminate.
  - simpl. destruct (is_space b) eqn:Hb.
    + assert (N : nonempty (rstrip s) = true).
      { apply IH. destruct pre as [|c pre]; simpl in E; inversion E; subst.
        - congruence.
        - now exists pre, a, post. }
      destruct (rstrip s); [discriminate | reflexivity].
    + destruct (rstrip s); reflexivity.
Qed.

Lemma strip_solid s : has_solid s -> nonempty (strip s) = true.
Proof. intros H. apply rstrip_solid, lstrip_solid, H. Qed.

(** A text in which a pattern with a solid first character occurs is
    not blank. *)
Lemma occurs_solid a p s :
  is_space a = false -> contains (String a p) s = true -> has_solid s.
Proof.
  intros Ha H. apply contains_occurs in H as (pre & post & E).
  exists pre, a, (p ++ post). split; [exact E | exact Ha].
Qed.

Lemma length_app (x y : string) :
  String.length (x ++ y) = (String.length x + String.length y)%nat.
Proof. induction x as [|a x IH]; simpl; [reflexivity | now rewrite IH]. Qed.

Lemma starts_with_drop p s :
  starts_with p s = true -> s = p ++ drop (String.length p) s.
Proof.
  revert s. induction p as [|a p IH]; intros s H; simpl in *.
  - reflexivity.
  - destruct s as [|b s]; [discriminate|].
    destruct (Ascii.eqb_spec a b) as [->|]; [|discriminate].
    f_equal. now apply IH.
Qed.

(** [split_at] cuts the text around an occurrence of the pattern. *)
Lemma split_at_spec p s pre post :
  split_at p s = Some (pre, post) -> s = pre ++ p ++ post.
Proof.
  revert pre post. induction s as [|b s IH]; intros pre post; simpl.
  - destruct (starts_with p EmptyString) eqn:E; [|discriminate].
    intros H; inversion H; subst. now apply starts_with_drop in E.
  - destruct (starts_with p (String b s)) eqn:E.
    + intros H; inversion H; subst. now apply starts_with_drop in E.
    + destruct (split_at p s) as [[pre' post']|] eqn:S; [|discriminate].
      intros H; inversion H; subst. simpl. f_equal. now apply IH.
Qed.

Lemma split_at_length p s pre post :
  split_at p s = Some (pre, post) ->
  (String.length post + String.length p <= String.length s)%nat.
Proof.
  intros H. apply split_at_spec in H. subst s.
  rewrite !length_app. lia.
Qed.

(** [split_at] finds the pattern exactly when it occurs. *)
Lemma split_at_none p s : split_at p s = None <-> contains p s = false.
Proof.
  induction s as [|b s IH]; simpl.
  - destruct (starts_with p EmptyString); split; congruence.
  - destruct (starts_with p (String b s)); [split; congruence|].
    rewrite <- IH. destruct (split_at p s) as [[? ?]|]; split; congruence.
Qed.

End PyStrFacts.

(* ================================================================= *)
(** * The extractors of [process_task] *)

Module ExtractorProofs.

Import PyStr PyInt PyStrFacts SwarmOrchestrator SpecWords.
Local Open Scope string_scope.

(** Turns the boolean searches of the context into occurrences. *)
Ltac to_occurs :=
  repeat match goal with
  | H : contains _ _ = true |- _ => apply contains_occurs in H
  | H : contains _ _ = false |- _ => apply contains_false_iff in H
  end.

(** C2. For every terminal text the extracted decision is COMPLETE or
    ESCALATE, and it is the one given by the precedence of the rules:
    the marker DECISION: ESCALATE, else the marker DECISION: COMPLETE,
    else the token ESCALATE in the upper-cased text without DO NOT
    ESCALATE, else COMPLETE. *)
Theorem extract_decision_precedence (text : string) :
  (extract_decision text = "COMPLETE" \/ extract_decision text = "ESCALATE")
  /\ forall d, decision_spec text d <-> extract_decision text = d.
Proof.
  unfold extract_decision.
  destruct (contains "DECISION: ESCALATE" text) eqn:E1.
  { to_occurs. split; [now right|]. intros d; split.
    - intros H; inversion H; subst; tauto.
    - intros <-. now constructor. }
  destruct (contains "DECISION: COMPLETE" text) eqn:E2.
  { to_occurs. split; [now left|]. intros d; split.
    - intros H; inversion H; subst; tauto.
    - intros <-. now constructor. }
  destruct (contains "ESCALATE" (upper text)) eqn:E3;
    destruct (contains "DO NOT ESCALATE" (upper text)) eqn:E4;
    to_occurs; simpl.
  - split; [now left|]. intros d; split.
    + intros H; inversion H; subst; tauto.
    + intros <-. apply decide_default; tauto.
  - split; [now right|]. intros d; split.
    + intros H; inversion H; subst; tauto.
    + intros <-. now apply decide_escalate_token.
  - split; [now left|]. intros d; split.
    + intros H; inversion H; subst; tauto.
    + intros <-. apply decide_default; tauto.
  - split; [now left|]. intros d; split.
    + intros H; inversion H; subst; tauto.
    + intros <-. apply decide_default; tauto.
Qed.

Lemma extract_decision_precedence_witness :
  decision_spec "Too risky, we should escalate." "ESCALATE"
  /\ decision_spec "Do not escalate. All good." "COMPLETE".
Proof.
  split.
  - apply (proj2 (extract_decision_precedence "Too risky, we should escalate.")).
    reflexivity.
  - apply (proj2 (extract_decision_precedence "Do not escalate. All good.")).
    reflexivity.
Defined.

(** ** Complexity *)

Lemma names_tag_bool tag text :
  contains (json_tag tag) (lower text) || contains ("complexity: " ++ tag) (lower text) = true
  <-> names_tag tag text.
Proof.
  unfold names_tag. rewrite orb_true_iff, !contains_occurs. tauto.
Qed.

Lemma complexity_of_text_spec text d :
  complexity_spec text d <-> complexity_of_text text = d.
Proof.
  unfold complexity_of_text.
  pose proof (names_tag_bool "simple" text) as S.
  pose proof (names_tag_bool "medium" text) as M.
  pose proof (names_tag_bool "complex" text) as C.
  simpl in S, M, C.
  destruct (contains (json_tag "simple") (lower text)
            || contains "complexity: simple" (lower text)).
  { split; [intros H; inversion H; subst; tauto | intros <-; constructor; tauto]. }
  destruct (contains (json_tag "medium") (lower text)
            || contains "complexity: medium" (lower text)).
  { assert (~ names_tag "simple" text) by (rewrite <- S; discriminate).
    split; [intros H'; inversion H'; subst; tauto | intros <-; constructor; tauto]. }
  destruct (contains (json_tag "complex") (lower text)
            || contains "complexity: complex" (lower text)).
  { assert (~ names_tag "simple" text) by (rewrite <- S; discriminate).
    assert (~ names_tag "medium" text) by (rewrite <- M; discriminate).
    split; [intros H'; inversion H'; subst; tauto | intros <-; constructor; tauto]. }
  assert (~ names_tag "simple" text) by (rewrite <- S; discriminate).
  assert (~ names_tag "medium" text) by (rewrite <- M; discriminate).
  assert (~ names_tag "complex" text) by (rewrite <- C; discriminate).
  split; [intros H'; inversion H'; subst; tauto | intros <-; constructor; tauto].
Qed.

(** C8, as the code has it. The extracted complexity is one of simple,
    medium, complex, unknown. When the requirements agent has a text,
    the tag is chosen by the order of the tags (simple before medium
    before complex) among the phrases that occur anywhere in the
    lower-cased text, whatever their positions; without a text, or
    without a phrase, it is unknown. *)
Theorem extract_complexity_tag_order (r : SwarmResult) :
  In (_extract_complexity r) ["simple"; "medium"; "complex"; "unknown"]
  /\ match agent_text r "requirements_agent" with
     | Some text => forall d, complexity_spec text d <-> _extract_complexity r = d
     | None => _extract_complexity r = "unknown"
     end.
Proof.
  unfold _extract_complexity, agent_text.
  destruct (agent_entry r "requirements_agent") as [nr|]; [|simpl; tauto].
  destruct (agent_joined_text nr) as [text|]; [|simpl; tauto].
  split; [|intros d; apply complexity_of_text_spec].
  unfold complexity_of_text.
  repeat match goal with |- context [if ?b then _ else _] => destruct b end;
    simpl; tauto.
Qed.

Lemma extract_complexity_tag_order_witness :
  complexity_spec "Complexity: Medium, two functions" "medium".
Proof.
  exact (proj2 (proj2 (extract_complexity_tag_order
           (result_with_agent (Some "success") "requirements_agent"
              "Complexity: Medium, two functions")) "medium") eq_refl).
Defined.

(** C8, as worded, fails: in this text the first phrase names complex,
    and the code answers simple. *)
Lemma first_match_does_not_win :
  let text := "complexity: complex (a reviewer wrote complexity: simple)" in
  let r := result_with_agent (Some "success") "requirements_agent" text in
  complexity_first_match text = "complex"
  /\ _extract_complexity r = "simple"
  /\ _extract_complexity r <> complexity_first_match text.
Proof.
  cbv zeta. repeat split; try reflexivity. vm_compute. discriminate.
Qed.

(** ** Quality score *)

Lemma digit_not_space a : is_digit a = true -> is_space a = false.
Proof.
  unfold is_digit, is_space. cbv zeta. set (n := nat_of_ascii a). intros H.
  apply andb_true_iff in H as [L U].
  apply Nat.leb_le in L. apply Nat.leb_le in U.
  clearbody n.
  repeat (apply orb_false_iff; split); try (apply andb_false_iff);
    try (apply Nat.eqb_neq; lia).
  - right. apply Nat.leb_gt. lia.
  - right. apply Nat.leb_gt. lia.
Qed.

Lemma digit_not_colon a : is_digit a = true -> a <> ":"%char.
Proof. intros H ->. discriminate. Qed.

Lemma space_not_colon a : is_space a = true -> a <> ":"%char.
Proof. intros H ->. discriminate. Qed.

Lemma lstrip_split s :
  exists spaces, s = spaces ++ lstrip s /\ all_chars is_space spaces = true.
Proof.
  induction s as [|a s (spaces & E & A)]; simpl.
  - now exists EmptyString.
  - destruct (is_space a) eqn:Ha.
    + exists (String a spaces). simpl. rewrite Ha, A. split; [now f_equal | reflexivity].
    + now exists EmptyString.
Qed.

Lemma lstrip_no_space s :
  match lstrip s with
  | EmptyString => True
  | String a _ => is_space a = false
  end.
Proof.
  induction s as [|a s IH]; simpl; [exact I|].
  destruct (is_space a) eqn:Ha; [exact IH | exact Ha].
Qed.

Lemma lstrip_spaces spaces t :
  all_chars is_space spaces = true -> lstrip (spaces ++ t) = lstrip t.
Proof.
  induction spaces as [|a sp IH]; simpl; [reflexivity|].
  intros H. apply andb_true_iff in H as [Ha Hsp]. rewrite Ha. now apply IH.
Qed.

Lemma take_digits_split s :
  exists rest, s = take_digits s ++ rest
               /\ all_chars is_digit (take_digits s) = true
               /\ no_digit_ahead rest.
Proof.
  induction s as [|a s (rest & E & A & N)]; simpl.
  - now exists EmptyString.
  - destruct (is_digit a) eqn:Ha.
    + exists rest. simpl. rewrite Ha, A. repeat split; [now f_equal | exact N].
    + exists (String a s). repeat split. exact Ha.
Qed.

Lemma take_digits_run digits rest :
  all_chars is_digit digits = true -> no_digit_ahead rest ->
  take_digits (digits ++ rest) = digits.
Proof.
  induction digits as [|a ds IH]; simpl; intros H N.
  - destruct rest as [|b rest]; [reflexivity|]. simpl in N. simpl. now rewrite N.
  - apply andb_true_iff in H as [Ha Hds]. rewrite Ha. f_equal. now apply IH.
Qed.

(** The optional colon of the pattern. *)
Lemma skip_colon tail :
  exists colon,
    tail = colon ++ match tail with String ":" rest' => rest' | _ => tail end
    /\ ((colon = ":") \/
        (colon = EmptyString
         /\ match tail with String a _ => a <> ":"%char | EmptyString => True end)).
Proof.
  destruct tail as [|a t]; [exists EmptyString; auto|].
  destruct (Ascii.eqb_spec a ":") as [->|ne].
  - exists ":". auto.
  - exists EmptyString. split; [|auto].
    destruct a as [[] [] [] [] [] [] [] []]; try reflexivity; congruence.
Qed.

Lemma skip_no_colon a t :
  a <> ":"%char ->
  match String a t with String ":" rest' => rest' | _ => String a t end = String a t.
Proof.
  intros ne. destruct a as [[] [] [] [] [] [] [] []]; try reflexivity; congruence.
Qed.

(** The matcher at the head of a text finds what the pattern
    describes. *)
Lemma match_score_sound s digits :
  match_score s = Some digits -> score_match_here s digits.
Proof.
  unfold match_score. destruct s as [|c rest]; [discriminate|].
  destruct ((Ascii.eqb c "S" || Ascii.eqb c "s") && starts_with "core" rest) eqn:Hd;
    [|discriminate].
  apply andb_true_iff in Hd as [Hc Hcore].
  apply starts_with_drop in Hcore. simpl String.length in Hcore.
  set (tail := drop 4 rest) in *.
  set (after := match tail with String ":" rest' => rest' | _ => tail end).
  destruct (skip_colon tail) as (colon & Etail & Hcolon). fold after in Etail.
  destruct (lstrip_split after) as (spaces & Eafter & Hspaces).
  destruct (take_digits_split (lstrip after)) as (rest' & Edigits & Hdigits & Hrest).
  destruct (nonempty (take_digits (lstrip after))) eqn:Hne; [|discriminate].
  intros H; inversion H; subst digits; clear H.
  exists c, colon, spaces, rest'. repeat split; try assumption.
  - rewrite Hcore. f_equal. simpl. do 4 f_equal.
    rewrite Etail. f_equal. rewrite Eafter at 1. f_equal. exact Edigits.
  - apply orb_true_iff in Hc as [Hc|Hc]; apply Ascii.eqb_eq in Hc; auto.
  - destruct Hcolon as [->|[-> _]]; auto.
  - intros E. rewrite E in Hne. discriminate.
Qed.

(** What the pattern describes at the head of a text, the matcher
    finds. *)
Lemma match_score_complete s digits :
  score_match_here s digits -> match_score s = Some digits.
Proof.
  intros (c & colon & spaces & rest & -> & Hc & Hcolon & Hsp & Hd & Hne & Hrest).
  assert (Hhead : exists a ds, digits = String a ds /\ is_digit a = true).
  { destruct digits as [|a ds]; [congruence|]. exists a, ds.
    simpl in Hd. apply andb_true_iff in Hd as [Ha _]. auto. }
  destruct Hhead as (a & ds & Edigits & Ha).
  assert (Hstrip : lstrip (spaces ++ digits ++ rest) = digits ++ rest).
  { rewrite lstrip_spaces by exact Hsp. rewrite Edigits. simpl.
    now rewrite (digit_not_space _ Ha). }
  assert (Hafter : match colon ++ spaces ++ digits ++ rest with
                   | String ":" rest' => rest'
                   | _ => colon ++ spaces ++ digits ++ rest
                   end = spaces ++ digits ++ rest).
  { destruct Hcolon as [-> | ->]; [|reflexivity].
    change (EmptyString ++ spaces ++ digits ++ rest) with (spaces ++ digits ++ rest).
    destruct spaces as [|b sp].
    - rewrite Edigits. simpl. apply skip_no_colon. now apply digit_not_colon.
    - simpl in Hsp. apply andb_true_iff in Hsp as [Hb _].
      simpl. apply skip_no_colon. now apply space_not_colon. }
  unfold match_score.
  assert (Hcs : (Ascii.eqb c "S" || Ascii.eqb c "s") = true).
  { destruct Hc as [-> | ->]; reflexivity. }
  rewrite Hcs.
  change (starts_with "core" ("core" ++ colon ++ spaces ++ digits ++ rest)) with true.
  cbv beta iota. change (true && true) with true. cbv iota.
  change (drop 4 ("core" ++ colon ++ spaces ++ digits ++ rest))
    with (colon ++ spaces ++ digits ++ rest).
  rewrite Hafter, Hstrip, take_digits_run by assumption.
  rewrite Edigits. reflexivity.
Qed.

Lemma app_same_length (p1 p2 r1 r2 : string) :
  p1 ++ r1 = p2 ++ r2 -> String.length p1 = String.length p2 -> p1 = p2 /\ r1 = r2.
Proof.
  revert p2. induction p1 as [|a p1 IH]; intros [|b p2]; simpl; intros E L;
    try discriminate.
  - auto.
  - injection E as -> E. injection L as L. destruct (IH _ E L) as [-> ->]. auto.
Qed.

Lemma score_match_at_zero text digits :
  score_match_at text 0 digits <-> score_match_here text digits.
Proof.
  split.
  - intros (pre & rest & -> & L & H). destruct pre; [exact H | discriminate].
  - intros H. exists EmptyString, text. auto.
Qed.

Lemma score_match_at_succ a text offset digits :
  score_match_at (String a text) (S offset) digits <-> score_match_at text offset digits.
Proof.
  split.
  - intros (pre & rest & E & L & H). destruct pre as [|b pre]; [discriminate|].
    simpl in E, L. injection E as -> ->. injection L as L.
    exists pre, rest. auto.
  - intros (pre & rest & -> & L & H). exists (String a pre), rest.
    simpl. auto.
Qed.

(** [search_score] reports the match at the smallest offset. *)
Lemma search_score_some text : forall digits,
  search_score text = Some digits -> leftmost_score text digits.
Proof.
  induction text as [|a text IH]; intros digits H.
  - discriminate.
  - change (search_score (String a text))
      with (match match_score (String a text) with
            | Some ds => Some ds
            | None => search_score text
            end) in H.
    destruct (match_score (String a text)) as [ds|] eqn:M.
    + injection H as ->. exists 0%nat. split.
      * apply score_match_at_zero. now apply match_score_sound.
      * intros. lia.
    + destruct (IH _ H) as (offset & Hat & Hmin). exists (S offset). split.
      * now apply score_match_at_succ.
      * intros [|offset'] digits' H'.
        -- apply score_match_at_zero, match_score_complete in H'. congruence.
        -- apply score_match_at_succ in H'. apply Hmin in H'. lia.
Qed.

Lemma search_score_none text : search_score text = None -> no_score text.
Proof.
  induction text as [|a text IH]; intros H.
  - intros [|offset] digits H'.
    + apply score_match_at_zero, match_score_complete in H'. discriminate.
    + destruct H' as (pre & rest & E & L & _). destruct pre; discriminate.
  - change (search_score (String a text))
      with (match match_score (String a text) with
            | Some ds => Some ds
            | None => search_score text
            end) in H.
    destruct (match_score (String a text)) as [ds|] eqn:M; [discriminate|].
    intros [|offset] digits H'.
    + apply score_match_at_zero, match_score_complete in H'. congruence.
    + apply score_match_at_succ in H'. exact (IH H _ _ H').
Qed.

(** The leftmost match is unique, and excludes that there is none. *)
Lemma leftmost_score_unique text d1 d2 :
  leftmost_score text d1 -> leftmost_score text d2 -> d1 = d2.
Proof.
  intros (o1 & H1 & M1) (o2 & H2 & M2).
  pose proof (M1 _ _ H2). pose proof (M2 _ _ H1).
  assert (o1 = o2) by lia. subst o2.
  destruct H1 as (p1 & r1 & E1 & L1 & S1). destruct H2 as (p2 & r2 & E2 & L2 & S2).
  rewrite E1 in E2. destruct (app_same_length _ _ _ _ E2) as [_ <-]; [congruence|].
  apply match_score_complete in S1, S2. congruence.
Qed.

Lemma search_score_leftmost text digits :
  search_score text = Some digits <-> leftmost_score text digits.
Proof.
  split; [apply search_score_some|]. intros H.
  destruct (search_score text) as [d|] eqn:S.
  - f_equal. apply search_score_some in S. exact (leftmost_score_unique S H).
  - apply search_score_none in S. destruct H as (o & H & _). now destruct (S _ _ H).
Qed.

Lemma search_score_no_score text : search_score text = None <-> no_score text.
Proof.
  split; [apply search_score_none|]. intros H.
  destruct (search_score text) as [d|] eqn:S; [|reflexivity].
  apply search_score_some in S. destruct S as (o & S & _). now destruct (H _ _ S).
Qed.

(** *** The number written by the digits *)

Lemma digit_value_bounds a : is_digit a = true -> (0 <= digit_value a <= 9)%Z.
Proof.
  unfold is_digit, digit_value. cbv zeta.
  set (n := nat_of_ascii a). intros H.
  apply andb_true_iff in H as [L U].
  apply Nat.leb_le in L. apply Nat.leb_le in U. clearbody n. lia.
Qed.

Lemma decimal_nonneg digits :
  all_chars is_digit digits = true -> (0 <= decimal digits)%Z.
Proof.
  induction digits as [|a ds IH]; cbn [decimal all_chars]; intros H; [lia|].
  apply andb_true_iff in H as [Ha Hds].
  pose proof (digit_value_bounds _ Ha). specialize (IH Hds).
  assert (0 < 10 ^ Z.of_nat (String.length ds))%Z by (apply Z.pow_pos_nonneg; lia).
  nia.
Qed.

Lemma parse_digits_run digits : forall acc,
  all_chars is_digit digits = true -> digits <> EmptyString ->
  parse_digits acc false digits
  = Some (acc * 10 ^ Z.of_nat (String.length digits) + decimal digits)%Z.
Proof.
  assert (G : forall ds acc, all_chars is_digit ds = true ->
                parse_digits acc true ds
                = Some (acc * 10 ^ Z.of_nat (String.length ds) + decimal ds)%Z).
  { induction ds as [|a ds IH]; intros acc H; cbn [parse_digits decimal String.length].
    - f_equal. change (Z.of_nat 0) with 0%Z. rewrite Z.pow_0_r. lia.
    - cbn [all_chars] in H. apply andb_true_iff in H as [Ha Hds]. rewrite Ha.
      rewrite IH by exact Hds. f_equal.
      rewrite Nat2Z.inj_succ, Z.pow_succ_r by lia. ring. }
  intros acc H Hne. destruct digits as [|a ds]; [congruence|].
  cbn [parse_digits decimal String.length].
  cbn [all_chars] in H. apply andb_true_iff in H as [Ha Hds]. rewrite Ha.
  rewrite G by exact Hds. f_equal.
  rewrite Nat2Z.inj_succ, Z.pow_succ_r by lia. ring.
Qed.

Lemma digit_not_int_space a : is_digit a = true -> is_int_space a = false.
Proof.
  unfold is_digit, is_int_space. cbv zeta. set (n := nat_of_ascii a). intros H.
  apply andb_true_iff in H as [L U].
  apply Nat.leb_le in L. apply Nat.leb_le in U.
  clearbody n.
  repeat (apply orb_false_iff; split); try (apply andb_false_iff);
    try (apply Nat.eqb_neq; lia).
  right. apply Nat.leb_gt. lia.
Qed.

Lemma int_rstrip_digits digits :
  all_chars is_digit digits = true -> int_rstrip digits = digits.
Proof.
  induction digits as [|a ds IH]; cbn [int_rstrip all_chars]; [reflexivity|].
  intros H. apply andb_true_iff in H as [Ha Hds]. rewrite IH by exact Hds.
  destruct ds; [|reflexivity]. now rewrite (digit_not_int_space _ Ha).
Qed.

Lemma int_lstrip_digits digits :
  all_chars is_digit digits = true -> int_lstrip digits = digits.
Proof.
  destruct digits as [|a ds]; cbn [int_lstrip all_chars]; [reflexivity|].
  intros H. apply andb_true_iff in H as [Ha _]. now rewrite (digit_not_int_space _ Ha).
Qed.

Lemma scan_run_digits digits :
  all_chars is_digit digits = true -> scan_run digits = (digits, EmptyString).
Proof.
  induction digits as [|a ds IH]; cbn [scan_run all_chars]; [reflexivity|].
  intros H. apply andb_true_iff in H as [Ha Hds]. rewrite Ha, IH by exact Hds.
  reflexivity.
Qed.

Lemma count_digits_run digits :
  all_chars is_digit digits = true -> count_digits digits = String.length digits.
Proof.
  induction digits as [|a ds IH]; cbn [count_digits all_chars String.length]; [reflexivity|].
  intros H. apply andb_true_iff in H as [Ha Hds]. rewrite Ha, IH by exact Hds.
  reflexivity.
Qed.

Lemma digit_not_sign a t :
  is_digit a = true -> split_sign (String a t) = (false, String a t).
Proof.
  intros H. destruct a as [[] [] [] [] [] [] [] []]; try reflexivity; discriminate.
Qed.

(** [int] of a run of digits: its number, unless there are more than
    4300 of them. *)
Lemma py_int_digits digits :
  all_chars is_digit digits = true -> digits <> EmptyString ->
  py_int (PyStr digits) =
  if (String.length digits <=? 4300)%nat then Ok (decimal digits)
  else Raise (too_many_digits (String.length digits)).
Proof.
  intros H Hne. unfold py_int, parse_int.
  rewrite int_lstrip_digits, int_rstrip_digits by exact H.
  destruct digits as [|a ds] eqn:E; [congruence|]. rewrite <- E in *.
  assert (Ha : is_digit a = true).
  { rewrite E in H. cbn [all_chars] in H. now apply andb_true_iff in H as [Ha _]. }
  rewrite E at 1. rewrite (@digit_not_sign a ds Ha). rewrite <- E.
  cbv beta iota.
  rewrite scan_run_digits, parse_digits_run, count_digits_run by assumption.
  unfold int_max_str_digits.
  destruct (Nat.ltb_spec 4300 (String.length digits)) as [L|L].
  - destruct (Nat.leb_spec (String.length digits) 4300); [lia | reflexivity].
  - destruct (Nat.leb_spec (String.length digits) 4300); [|lia].
    cbn [nonempty]. f_equal; lia.
Qed.

(** C7, as the code has it. The score is what the first source gives
    that has one. When the quality agent has a message, the leftmost
    match of the pattern in its text (an S of either case, the
    lower-case letters core, an optional colon, optional white space,
    all the digits that follow) gives the number its digits write,
    without any upper bound, and [int] raises when there are more than
    4300 digits; when nothing in the text matches, [int] of the
    quality_score entry of the context is the score; in all other
    cases it is 85. *)
Theorem extract_quality_score_sources (r : SwarmResult) :
  (forall outcome, quality_spec r outcome <-> _extract_quality_score r = outcome)
  /\ forall text digits,
       agent_text r "quality_agent" = Some text ->
       leftmost_score text digits ->
       (String.length digits <= 4300)%nat ->
       _extract_quality_score r = Ok (decimal digits) /\ (0 <= decimal digits)%Z.
Proof.
  assert (Hdigits : forall text digits, leftmost_score text digits ->
            all_chars is_digit digits = true /\ digits <> EmptyString).
  { intros text digits (o & (pre & rest & _ & _ & Hm) & _).
    destruct Hm as (c & colon & spaces & rest' & _ & _ & _ & _ & D & N & _). auto. }
  assert (Hfun : forall outcome, quality_spec r outcome -> _extract_quality_score r = outcome).
  { intros outcome H. unfold _extract_quality_score.
    destruct H as [A | nr A T | nr text digits A T L B | nr text digits A T L B
                   | nr text ctx v A T N C G | nr text A T N C]; rewrite A; try reflexivity;
      rewrite T; try reflexivity.
    - destruct (Hdigits _ _ L) as [D Hne].
      apply search_score_leftmost in L. rewrite L, (py_int_digits D Hne).
      destruct (Nat.leb_spec (String.length digits) 4300); [reflexivity | lia].
    - destruct (Hdigits _ _ L) as [D Hne].
      apply search_score_leftmost in L. rewrite L, (py_int_digits D Hne).
      destruct (Nat.leb_spec (String.length digits) 4300); [lia | reflexivity].
    - apply search_score_no_score in N. now rewrite N, C, G.
    - apply search_score_no_score in N. rewrite N.
      destruct C as [-> | (ctx & -> & ->)]; reflexivity. }
  assert (Hspec : quality_spec r (_extract_quality_score r)).
  { unfold _extract_quality_score.
    destruct (agent_entry r "quality_agent") as [nr|] eqn:A;
      [|now apply quality_no_agent].
    destruct (agent_joined_text nr) as [text|] eqn:T;
      [|now apply quality_no_text with nr].
    destruct (search_score text) as [digits|] eqn:S.
    - apply search_score_leftmost in S. destruct (Hdigits _ _ S) as [D Hne].
      rewrite (py_int_digits D Hne).
      destruct (Nat.leb_spec (String.length digits) 4300).
      + now apply quality_pattern with nr text.
      + now apply quality_pattern_too_long with nr text.
    - apply search_score_no_score in S.
      destruct (nr_context nr) as [ctx|] eqn:C.
      + destruct (get ctx "quality_score") as [v|] eqn:G.
        * now apply quality_context with nr text ctx.
        * apply quality_default with nr text; auto. right. now exists ctx.
      + apply quality_default with nr text; auto. }
  split.
  - intros outcome. split; [apply Hfun | intros <-; exact Hspec].
  - intros text digits Ht L B. unfold agent_text in Ht.
    destruct (agent_entry r "quality_agent") as [nr|] eqn:A; [|discriminate].
    split.
    + apply Hfun. now apply quality_pattern with nr text.
    + apply decimal_nonneg. now destruct (Hdigits _ _ L).
Qed.

Lemma extract_quality_score_sources_witness :
  _extract_quality_score
    (result_with_agent (Some "success") "quality_agent" "PASS, Score: 92/100, clean")
  = Ok 92%Z.
Proof.
  refine (proj1 (proj2 (extract_quality_score_sources
            (result_with_agent (Some "success") "quality_agent"
               "PASS, Score: 92/100, clean"))
            "PASS, Score: 92/100, clean" "92" eq_refl _ _)).
  - apply search_score_leftmost. reflexivity.
  - simpl. lia.
Defined.

(** C7, as worded, fails: a score above 100 is returned as it is, and
    an upper-case SCORE is not matched. *)
Lemma quality_score_not_clamped :
  _extract_quality_score
    (result_with_agent (Some "success") "quality_agent" "PASS, Score: 150/100") = Ok 150%Z
  /\ ~ (0 <= 150 <= 100)%Z
  /\ _extract_quality_score
       (result_with_agent (Some "success") "quality_agent" "FAIL, SCORE: 40/100") = Ok 85%Z.
Proof.
  split; [vm_compute; reflexivity|]. split; [lia | vm_compute; reflexivity].
Qed.

(** ** Code extraction *)

(** The fuel of [code_blocks] is enough: more fuel finds the same
    regions. *)
Lemma findall_blocks_fuel n : forall m s,
  (String.length s <= n)%nat -> (String.length s <= m)%nat ->
  findall_blocks n s = findall_blocks m s.
Proof.
  assert (E : forall k, findall_blocks k EmptyString = []) by (intros [|k]; reflexivity).
  induction n as [|n IH]; intros m s Hn Hm.
  - destruct s; [now rewrite !E | simpl in Hn; lia].
  - destruct m as [|m].
    + destruct s; [now rewrite !E | simpl in Hm; lia].
    + simpl. destruct (split_at fence_open s) as [[pre rest]|] eqn:S1; [|reflexivity].
      destruct (split_at fence_close rest) as [[body rest']|] eqn:S2; [|reflexivity].
      apply split_at_length in S1, S2.
      change (String.length fence_open) with 10%nat in S1.
      change (String.length fence_close) with 3%nat in S2.
      f_equal. apply IH; lia.
Qed.

Lemma has_definition_solid block : has_definition block = true -> has_solid block.
Proof.
  unfold has_definition. intros H. apply orb_true_iff in H as [H|H].
  - now apply occurs_solid in H.
  - now apply occurs_solid in H.
Qed.

Lemma first_main_nonempty test blocks c :
  (forall b, test b = true -> has_definition b = true) ->
  first_main test blocks = Some c -> nonempty c = true.
Proof.
  intros Ht. induction blocks as [|b bs IH]; simpl; [discriminate|].
  destruct (test b) eqn:T; [|exact IH].
  intros H; inversion H; subst. apply strip_solid, has_definition_solid, Ht, T.
Qed.

Lemma is_main_terminal_definition b : is_main_terminal b = true -> has_definition b = true.
Proof. unfold is_main_terminal. intros H. now apply andb_true_iff in H as [_ H]. Qed.

Lemma is_main_builder_definition b : is_main_builder b = true -> has_definition b = true.
Proof. unfold is_main_builder. intros H. now apply andb_true_iff in H as [_ H]. Qed.

Lemma code_from_terminal_select text :
  code_from_terminal text = select_block is_main_terminal (code_blocks text).
Proof.
  unfold code_from_terminal, select_block.
  destruct (code_blocks text) as [|first rest]; [reflexivity|].
  cbn [first_main]. destruct (is_main_terminal first) eqn:T.
  - now rewrite (@strip_solid _ (@has_definition_solid _ (@is_main_terminal_definition _ T))).
  - destruct (first_main is_main_terminal rest) as [c|] eqn:F; [|reflexivity].
    now rewrite (@first_main_nonempty _ _ _ is_main_terminal_definition F).
Qed.

Lemma code_from_builder_select code text :
  has_code code = false ->
  code_from_builder code text =
  match select_block is_main_builder (code_blocks text) with
  | Some c => Some c
  | None => code
  end.
Proof.
  intros Hc. unfold code_from_builder, select_block.
  destruct (code_blocks text) as [|first rest]; [reflexivity|].
  cbn [first_main]. destruct (is_main_builder first) eqn:T.
  - cbn [has_code].
    now rewrite (@strip_solid _ (@has_definition_solid _ (@is_main_builder_definition _ T))).
  - destruct (first_main is_main_builder rest) as [c|] eqn:F.
    + cbn [has_code]. now rewrite (@first_main_nonempty _ _ _ is_main_builder_definition F).
    + now rewrite Hc.
Qed.

(** The whole extraction, with the test that the second loop applies. *)
Lemma extract_code_design_eq terminal fallback :
  extract_code terminal fallback = extract_code_design is_main_builder terminal fallback.
Proof.
  unfold extract_code, extract_code_design.
  rewrite code_from_terminal_select.
  destruct (has_code (select_block is_main_terminal (code_blocks terminal))) eqn:H;
    [reflexivity|].
  destruct fallback as [b|]; [|reflexivity].
  now apply code_from_builder_select.
Qed.

(** The fallback scan does not apply the test of the first scan: a
    region of the builder's text that imports pytest is accepted as the
    implementation, where the terminal scan would pass over it. *)
Lemma fallback_scan_differs :
  let blocks := ["import pytest" ++ nl ++ "def client(): return make()" ++ nl;
                 "def add(a, b): return a + b" ++ nl] in
  select_block is_main_builder blocks = Some ("import pytest" ++ nl ++ "def client(): return make()")
  /\ select_block is_main_terminal blocks = Some "def add(a, b): return a + b".
Proof. split; reflexivity. Qed.

End ExtractorProofs.

(* ================================================================= *)
(** * Facts about binary64 rounding *)

Module Float64Facts.

Import Float64.
Local Open Scope Q_scope.

Lemma rne_bounds x : (Qfloor x <= rne x <= Qfloor x + 1)%Z.
Proof.
  unfold rne. destruct (Qcompare _ _); [destruct (Z.even _)| |]; lia.
Qed.

Lemma rne_inject_Z m : rne (inject_Z m) = m.
Proof.
  unfold rne. rewrite Qfloor_Z.
  assert (E : Qcompare (inject_Z m - inject_Z m) (1 # 2) = Lt).
  { apply Qlt_alt. ring_simplify (inject_Z m - inject_Z m). reflexivity. }
  now rewrite E.
Qed.

Lemma rne_mono x y : x <= y -> (rne x <= rne y)%Z.
Proof.
  intros Hxy.
  pose proof (Qfloor_resp_le _ _ Hxy) as Hf.
  pose proof (rne_bounds x) as Bx. pose proof (rne_bounds y) as By.
  destruct (Z.eq_dec (Qfloor x) (Qfloor y)) as [E|NE]; [|lia].
  unfold rne. rewrite <- E.
  destruct (Qcompare (x - inject_Z (Qfloor x)) (1 # 2)) eqn:Cx;
  destruct (Qcompare (y - inject_Z (Qfloor x)) (1 # 2)) eqn:Cy;
    try (destruct (Z.even (Qfloor x))); try lia; exfalso.
  all: repeat match goal with
       | H : Qcompare _ _ = Eq |- _ => apply Qeq_alt in H
       | H : Qcompare _ _ = Lt |- _ => apply Qlt_alt in H
       | H : Qcompare _ _ = Gt |- _ => apply Qgt_alt in H
       end.
  all: lra.
Qed.

Lemma rne_le_Z x m : x <= inject_Z m -> (rne x <= m)%Z.
Proof. intros H. rewrite <- (rne_inject_Z m). now apply rne_mono. Qed.

Lemma rne_ge_Z x m : inject_Z m <= x -> (m <= rne x)%Z.
Proof. intros H. rewrite <- (rne_inject_Z m). now apply rne_mono. Qed.

Lemma pow2_pos k : 0 < 2 ^ k.
Proof. apply Qpower_0_lt. reflexivity. Qed.

Lemma pow2_le a b : (a <= b)%Z -> 2 ^ a <= 2 ^ b.
Proof. intros H. apply Qpower_le_compat_l; [exact H | discriminate]. Qed.

Lemma pow2_lt a b : (a < b)%Z -> 2 ^ a < 2 ^ b.
Proof. intros H. apply Qpower_lt_compat_l; [exact H | reflexivity]. Qed.

Lemma pow2_plus a b : 2 ^ (a + b) == 2 ^ a * 2 ^ b.
Proof. apply Qpower_plus. discriminate. Qed.

Lemma pow2_inject k : (0 <= k)%Z -> inject_Z (2 ^ k) == 2 ^ k.
Proof. intros H. now rewrite Zpower_Qpower. Qed.

Lemma Zlog2_Q n : (0 < n)%Z -> 2 ^ Z.log2 n <= inject_Z n < 2 ^ (Z.log2 n + 1).
Proof.
  intros Hn. destruct (Z.log2_spec n Hn) as [L U].
  pose proof (Z.log2_nonneg n) as Hl.
  split.
  - rewrite <- pow2_inject by lia. now rewrite <- Zle_Qle.
  - rewrite <- pow2_inject by lia. rewrite <- Zlt_Qlt. now rewrite Z.add_1_r.
Qed.

Lemma ilog2_spec x : 0 < x -> 2 ^ ilog2 x <= x < 2 ^ (ilog2 x + 1).
Proof.
  intros Hx. unfold ilog2.
  set (k := (Z.log2 (Qnum x) - Z.log2 (Z.pos (Qden x)))%Z).
  assert (Hn : (0 < Qnum x)%Z).
  { destruct x as [n d]. unfold Qlt in Hx. simpl in *. lia. }
  destruct (Zlog2_Q Hn) as [Ln Un].
  destruct (@Zlog2_Q (Z.pos (Qden x)) eq_refl) as [Ld Ud].
  assert (Ex : x == inject_Z (Qnum x) / inject_Z (Z.pos (Qden x))).
  { destruct x as [n d]. simpl. rewrite Qmake_Qdiv. reflexivity. }
  assert (Dpos : 0 < inject_Z (Z.pos (Qden x))) by reflexivity.
  assert (Lo : 2 ^ (k - 1) < x).
  { rewrite Ex. apply Qlt_shift_div_l; [exact Dpos|].
    apply Qlt_le_trans with (2 ^ (k - 1) * 2 ^ (Z.log2 (Z.pos (Qden x)) + 1)).
    - apply Qmult_lt_l; [apply pow2_pos | exact Ud].
    - rewrite <- pow2_plus. unfold k.
      replace (Z.log2 (Qnum x) - Z.log2 (Z.pos (Qden x)) - 1 + (Z.log2 (Z.pos (Qden x)) + 1))%Z
        with (Z.log2 (Qnum x)) by lia.
      exact Ln. }
  assert (Hi : x < 2 ^ (k + 1)).
  { rewrite Ex. apply Qlt_shift_div_r; [exact Dpos|].
    apply Qlt_le_trans with (2 ^ (Z.log2 (Qnum x) + 1)); [exact Un|].
    apply Qle_trans with (2 ^ (k + 1) * 2 ^ Z.log2 (Z.pos (Qden x))).
    - rewrite <- pow2_plus. apply pow2_le. unfold k. lia.
    - apply Qmult_le_l; [apply pow2_pos | exact Ld]. }
  destruct (Qle_bool (2 ^ k) x) eqn:E.
  - apply Qle_bool_iff in E. split; assumption.
  - assert (x < 2 ^ k).
    { apply Qnot_le_lt. intros H. apply Qle_bool_iff in H. congruence. }
    split; [now apply Qlt_le_weak|].
    now replace (k - 1 + 1)%Z with k by lia.
Qed.

Lemma ilog2_mono x y : 0 < x -> x <= y -> (ilog2 x <= ilog2 y)%Z.
Proof.
  intros Hx Hxy.
  assert (Hy : 0 < y) by (eapply Qlt_le_trans; eauto).
  destruct (ilog2_spec Hx) as [Lx Ux].
  destruct (ilog2_spec Hy) as [Ly Uy].
  destruct (Z_le_gt_dec (ilog2 x) (ilog2 y)) as [H|H]; [exact H|exfalso].
  assert (2 ^ (ilog2 y + 1) <= 2 ^ ilog2 x) by (apply pow2_le; lia).
  lra.
Qed.

Lemma RN_pos x : 0 < x ->
  RN x == inject_Z (rne (x / 2 ^ ulp_exp x)) * 2 ^ ulp_exp x.
Proof.
  intros Hx. unfold RN.
  destruct x as [[|n|n] d]; simpl Qnum; cbv zeta.
  - discriminate.
  - apply Qred_correct.
  - discriminate.
Qed.

Lemma RN_zero x : x == 0 -> RN x = 0.
Proof.
  intros Hx. unfold RN.
  destruct x as [[|n|n] d]; simpl Qnum; try reflexivity; discriminate.
Qed.

(** Any multiple of the unit in the last place that bounds [x] bounds
    its rounding. *)
Lemma RN_le_grid x m : 0 < x ->
  x <= inject_Z m * 2 ^ ulp_exp x -> RN x <= inject_Z m * 2 ^ ulp_exp x.
Proof.
  intros Hx H. rewrite (RN_pos Hx).
  apply Qmult_le_compat_r; [|apply Qlt_le_weak, pow2_pos].
  rewrite <- Zle_Qle. apply rne_le_Z.
  apply Qle_shift_div_r; [apply pow2_pos | exact H].
Qed.

Lemma RN_ge_grid x m : 0 < x ->
  inject_Z m * 2 ^ ulp_exp x <= x -> inject_Z m * 2 ^ ulp_exp x <= RN x.
Proof.
  intros Hx H. rewrite (RN_pos Hx).
  apply Qmult_le_compat_r; [|apply Qlt_le_weak, pow2_pos].
  rewrite <- Zle_Qle. apply rne_ge_Z.
  apply Qle_shift_div_l; [apply pow2_pos | exact H].
Qed.

Lemma pow2_grid e q : (q <= e)%Z -> 2 ^ e == inject_Z (2 ^ (e - q)) * 2 ^ q.
Proof.
  intros H. rewrite pow2_inject by lia. rewrite <- pow2_plus.
  now replace (e - q + q)%Z with e by lia.
Qed.

Lemma RN_nonneg x : 0 <= x -> 0 <= RN x.
Proof.
  intros Hx. destruct (Qlt_le_dec 0 x) as [P|NP].
  - assert (G := @RN_ge_grid x 0 P).
    rewrite Qmult_0_l in G. apply G. now apply Qlt_le_weak.
  - rewrite RN_zero; [apply Qle_refl | lra].
Qed.

Lemma RN_mono x y : 0 <= x -> x <= y -> RN x <= RN y.
Proof.
  intros Hx Hxy.
  destruct (Qlt_le_dec 0 x) as [Px|NPx].
  2:{ rewrite (RN_zero (x:=x)) by lra. apply RN_nonneg. lra. }
  assert (Py : 0 < y) by lra.
  pose proof (ilog2_mono Px Hxy) as He.
  destruct (ilog2_spec Px) as [Lx Ux].
  destruct (ilog2_spec Py) as [Ly Uy].
  destruct (Z.eq_dec (ulp_exp x) (ulp_exp y)) as [Eq|Ne].
  - rewrite (RN_pos Px), (RN_pos Py), Eq.
    apply Qmult_le_compat_r; [|apply Qlt_le_weak, pow2_pos].
    rewrite <- Zle_Qle. apply rne_mono.
    apply Qmult_le_compat_r; [exact Hxy|].
    apply Qlt_le_weak, Qinv_lt_0_compat, pow2_pos.
  - assert (Hq : (ulp_exp x < ulp_exp y)%Z) by (unfold ulp_exp in *; lia).
    set (b := Z.max (ilog2 x + 1) (ulp_exp x)).
    apply Qle_trans with (2 ^ b).
    + rewrite (@pow2_grid b (ulp_exp x)) by (unfold b; lia).
      apply RN_le_grid; [exact Px|].
      rewrite <- pow2_grid by (unfold b; lia).
      apply Qle_trans with (2 ^ (ilog2 x + 1)); [lra|].
      apply pow2_le. unfold b; lia.
    + apply Qle_trans with (2 ^ ilog2 y).
      * apply pow2_le. unfold b, ulp_exp in *. lia.
      * rewrite (@pow2_grid (ilog2 y) (ulp_exp y)) by (unfold ulp_exp in *; lia).
        apply RN_ge_grid; [exact Py|].
        rewrite <- pow2_grid by (unfold ulp_exp in *; lia).
        exact Ly.
Qed.

(** On every pair of sample floats, rounding the exact product, sum,
    difference and quotient gives the result of the binary64 operation
    of [SpecFloat]. *)
Lemma RN_agrees_with_SpecFloat :
  forallb (fun a => Qeq_bool (of_spec (to_spec a)) a) sample_floats = true
  /\ agrees_on_samples Qmult (SFmul 53 1024) = true
  /\ agrees_on_samples Qplus (SFadd 53 1024) = true
  /\ agrees_on_samples Qminus (SFsub 53 1024) = true
  /\ agrees_on_samples Qdiv (SFdiv 53 1024) = true.
Proof.
  split; [vm_compute; reflexivity|].
  split; [vm_compute; reflexivity|].
  split; [vm_compute; reflexivity|].
  split; vm_compute; reflexivity.
Qed.

(** ** The operations are monotone on non-negative floats *)

Lemma rne_nonneg x : 0 <= x -> (0 <= rne x)%Z.
Proof. intros H. now apply rne_ge_Z. Qed.

Lemma fmul_nonneg a b : 0 <= a -> 0 <= b -> 0 <= fmul a b.
Proof. intros Ha Hb. apply RN_nonneg. now apply Qmult_le_0_compat. Qed.

Lemma fadd_nonneg a b : 0 <= a -> 0 <= b -> 0 <= fadd a b.
Proof. intros Ha Hb. apply RN_nonneg. lra. Qed.

Lemma fmul_mono_r a b c : 0 <= a -> 0 <= b -> b <= c -> fmul a b <= fmul a c.
Proof.
  intros Ha Hb Hbc. apply RN_mono.
  - now apply Qmult_le_0_compat.
  - rewrite !(Qmult_comm a). now apply Qmult_le_compat_r.
Qed.

Lemma fmul_mono_l a b c : 0 <= c -> 0 <= a -> a <= b -> fmul a c <= fmul b c.
Proof.
  intros Hc Ha Hab. apply RN_mono.
  - now apply Qmult_le_0_compat.
  - now apply Qmult_le_compat_r.
Qed.

Lemma fadd_mono_l a b c : 0 <= a -> 0 <= c -> a <= b -> fadd a c <= fadd b c.
Proof. intros Ha Hc Hab. apply RN_mono; lra. Qed.

Lemma py_round_2_nonneg x : 0 <= x -> 0 <= py_round x 2.
Proof.
  intros Hx. unfold py_round. apply RN_nonneg.
  apply Qle_shift_div_l; [reflexivity|]. rewrite Qmult_0_l.
  change 0 with (inject_Z 0). rewrite <- Zle_Qle. apply rne_nonneg.
  apply Qmult_le_0_compat; [exact Hx | discriminate].
Qed.

Lemma py_round_2_mono x y : 0 <= x -> x <= y -> py_round x 2 <= py_round y 2.
Proof.
  intros Hx Hxy. unfold py_round. apply RN_mono.
  - apply Qle_shift_div_l; [reflexivity|]. rewrite Qmult_0_l.
    change 0 with (inject_Z 0). rewrite <- Zle_Qle. apply rne_nonneg.
    apply Qmult_le_0_compat; [exact Hx | discriminate].
  - apply Qmult_le_compat_r; [|discriminate].
    rewrite <- Zle_Qle. apply rne_mono.
    apply Qmult_le_compat_r; [exact Hxy | discriminate].
Qed.

Lemma py_max_cases a b :
  (py_max a b = a /\ b <= a) \/ (py_max a b = b /\ a < b).
Proof.
  unfold py_max. destruct (Qle_bool b a) eqn:E.
  - left. split; [reflexivity | now apply Qle_bool_iff].
  - right. split; [reflexivity|]. apply Qnot_le_lt. intros H.
    apply Qle_bool_iff in H. congruence.
Qed.

Lemma py_max_ge a b : a <= py_max a b.
Proof. destruct (py_max_cases a b) as [[-> _]|[-> H]]; lra. Qed.

Lemma py_max_mono a b c : b <= c -> py_max a b <= py_max a c.
Proof.
  intros H.
  destruct (py_max_cases a b) as [[-> Hb]|[-> Hb]];
    destruct (py_max_cases a c) as [[-> Hc]|[-> Hc]]; lra.
Qed.

(** [float(n)] succeeds on the positive integers below [2^1023]. *)
Lemma float_of_int_returns n :
  (0 < n < 2 ^ 1023)%Z -> exists r, float_of_int n = Ok r /\ 0 <= r.
Proof.
  intros [Hp Hn]. unfold float_of_int.
  assert (P : 0 <= inject_Z n) by (change 0 with (inject_Z 0); rewrite <- Zle_Qle; lia).
  pose proof (RN_nonneg P) as Hr.
  assert (B : RN (inject_Z n) <= RN (inject_Z (2 ^ 1023))).
  { apply RN_mono; [exact P|]. rewrite <- Zle_Qle. lia. }
  assert (E : RN (inject_Z (2 ^ 1023)) < 2 ^ 1024) by (vm_compute; reflexivity).
  destruct (Qle_bool (2 ^ 1024) (Qabs (RN (inject_Z n)))) eqn:O.
  - exfalso. apply Qle_bool_iff in O. rewrite Qabs_pos in O by exact Hr. lra.
  - exists (RN (inject_Z n)). split; [reflexivity | exact Hr].
Qed.

Lemma float_of_int_nonneg n r : (0 < n)%Z -> float_of_int n = Ok r -> 0 <= r.
Proof.
  intros Hp. unfold float_of_int.
  destruct (Qle_bool _ _); [discriminate|]. intros H; inversion H; subst.
  apply RN_nonneg. change 0 with (inject_Z 0). rewrite <- Zle_Qle. lia.
Qed.

(** [float(n)] succeeds on exactly the positive integers below
    [2^1024 - 2^970]. *)
Lemma float_of_int_range n :
  (0 < n)%Z ->
  (exists r, float_of_int n = Ok r) <-> (n < 2 ^ 1024 - 2 ^ 970)%Z.
Proof.
  intros Hp. unfold float_of_int.
  assert (P : 0 <= inject_Z n) by (change 0 with (inject_Z 0); rewrite <- Zle_Qle; lia).
  pose proof (RN_nonneg P) as Hr.
  destruct (Qle_bool (2 ^ 1024) (Qabs (RN (inject_Z n)))) eqn:O.
  - apply Qle_bool_iff in O. rewrite Qabs_pos in O by exact Hr.
    split; [intros [r H]; discriminate|]. intros Hn. exfalso.
    assert (B : RN (inject_Z n) <= RN (inject_Z (2 ^ 1024 - 2 ^ 970 - 1))).
    { apply RN_mono; [exact P|]. rewrite <- Zle_Qle. lia. }
    assert (E : RN (inject_Z (2 ^ 1024 - 2 ^ 970 - 1)) < 2 ^ 1024)
      by (vm_compute; reflexivity).
    lra.
  - split; [|intros _; eexists; reflexivity]. intros _.
    destruct (Z_lt_le_dec n (2 ^ 1024 - 2 ^ 970)) as [L|G]; [exact L|]. exfalso.
    assert (B : RN (inject_Z (2 ^ 1024 - 2 ^ 970)) <= RN (inject_Z n)).
    { apply RN_mono; [discriminate|]. rewrite <- Zle_Qle. exact G. }
    assert (E : 2 ^ 1024 <= RN (inject_Z (2 ^ 1024 - 2 ^ 970)))
      by (apply Qle_bool_iff; vm_compute; reflexivity).
    assert (O' : 2 ^ 1024 <= Qabs (RN (inject_Z n))).
    { rewrite Qabs_pos by exact Hr. lra. }
    apply Qle_bool_iff in O'. congruence.
Qed.

End Float64Facts.

(* ================================================================= *)
(** * The pricing of [calculate_payment] *)

Unset Implicit Arguments.

Module PaymentProofs.

Import PyInt Float64 Float64Facts PaymentCalculator SpecWords.
Local Open Scope Q_scope.
Local Open Scope string_scope.

(** Decides an inequality between two closed rationals. *)
Ltac qdecide :=
  match goal with
  | |- _ <= _ => apply Qle_bool_iff; vm_compute; reflexivity
  | |- _ < _ => vm_compute; reflexivity
  end.

Lemma BASE_PRICING_nonneg key : 0 <= BASE_PRICING key.
Proof.
  unfold BASE_PRICING.
  repeat match goal with |- context [if ?b then _ else _] => destruct b end; qdecide.
Qed.

Lemma QUALITY_MULTIPLIERS_nonneg t : 0 <= QUALITY_MULTIPLIERS t.
Proof. destruct t; qdecide. Qed.

Lemma TIME_BONUS_nonneg t : 0 <= TIME_BONUS t.
Proof. destruct t; qdecide. Qed.

Lemma QUALITY_MULTIPLIERS_mono t1 t2 :
  (quality_rank t1 <= quality_rank t2)%nat ->
  QUALITY_MULTIPLIERS t1 <= QUALITY_MULTIPLIERS t2.
Proof.
  destruct t1, t2; intros H;
    try (exfalso; cbv [quality_rank] in H; lia); qdecide.
Qed.

Lemma TIME_BONUS_mono t1 t2 :
  (speed_rank t1 <= speed_rank t2)%nat -> TIME_BONUS t1 <= TIME_BONUS t2.
Proof.
  destruct t1, t2; intros H;
    try (exfalso; cbv [speed_rank] in H; lia); qdecide.
Qed.

Lemma token_cost_of_nonneg k tc : token_cost_of k = Ok tc -> 0 <= tc.
Proof.
  unfold token_cost_of. destruct (k >? 0)%Z eqn:Hk.
  - destruct (float_of_int k) as [n|e] eqn:F; simpl; [|discriminate].
    intros H; inversion H; subst.
    apply fmul_nonneg; [|qdecide].
    apply RN_nonneg. apply Qle_shift_div_l; [qdecide|]. rewrite Qmult_0_l.
    apply (@float_of_int_nonneg k n); [lia | exact F].
  - intros H; inversion H; subst. apply Qle_refl.
Qed.

(** What a returned payment is made of. *)
Lemma calculate_payment_inv c q t k l p :
  calculate_payment c q t k l = Ok p ->
  exists ts tc,
    seconds_of t = Ok ts /\ token_cost_of k = Ok tc
    /\ quality_tier (breakdown p) = _get_quality_tier q
    /\ time_tier (breakdown p) = _get_time_tier ts
    /\ base_price (breakdown p) = BASE_PRICING (complexity (breakdown p))
    /\ complexity (breakdown p) = (if PyStr.nonempty c then PyStr.lower c else "unknown")
    /\ quality_multiplier (breakdown p) = QUALITY_MULTIPLIERS (quality_tier (breakdown p))
    /\ time_multiplier (breakdown p) = TIME_BONUS (time_tier (breakdown p))
    /\ amount p = price (base_price (breakdown p)) (quality_multiplier (breakdown p))
                        (time_multiplier (breakdown p)) tc.
Proof.
  unfold calculate_payment.
  change (if (t >? 0)%Z
          then let* ms := float_of_int t in Ok (fdiv ms (lit 1000))
          else Ok 0) with (seconds_of t).
  change (if (k >? 0)%Z
          then let* n := float_of_int k in Ok (fmul (fdiv n (lit 1000)) TOKEN_COST_PER_1K)
          else Ok 0) with (token_cost_of k).
  destruct (seconds_of t) as [ts|e]; [|discriminate].
  destruct (token_cost_of k) as [tc|e]; [|discriminate].
  cbn [bind].
  destruct (format_int q) as [[]|e]; [|discriminate].
  destruct (format_int k) as [[]|e]; [|discriminate].
  cbn [bind]. intros H. injection H as <-.
  cbn [amount breakdown quality_tier time_tier base_price complexity
       quality_multiplier time_multiplier].
  exists ts, tc. unfold price. repeat split.
Qed.

(** The conversion to text succeeds below the bound. *)
Lemma format_int_ok n : format_int n = Ok tt <-> (Z.abs n < int_str_bound)%Z.
Proof.
  unfold format_int. destruct (int_str_bound <=? Z.abs n)%Z eqn:E.
  - apply Z.leb_le in E. split; [discriminate | lia].
  - apply Z.leb_gt in E. split; [intros _; exact E | reflexivity].
Qed.

Lemma int_str_bound_large : (2 ^ 1024 < int_str_bound)%Z.
Proof. vm_compute. reflexivity. Qed.

(** [calculate_payment] returns when the two conversions to float and
    the two conversions to text succeed. *)
Lemma calculate_payment_returns_when c q t k l ts tc :
  seconds_of t = Ok ts -> token_cost_of k = Ok tc ->
  (Z.abs q < int_str_bound)%Z -> (Z.abs k < int_str_bound)%Z ->
  exists p, calculate_payment c q t k l = Ok p.
Proof.
  intros Hs Hc Hq Hk. unfold calculate_payment.
  change (if (t >? 0)%Z
          then let* ms := float_of_int t in Ok (fdiv ms (lit 1000))
          else Ok 0) with (seconds_of t).
  change (if (k >? 0)%Z
          then let* n := float_of_int k in Ok (fmul (fdiv n (lit 1000)) TOKEN_COST_PER_1K)
          else Ok 0) with (token_cost_of k).
  rewrite Hs, Hc. cbn [bind].
  apply format_int_ok in Hq, Hk. rewrite Hq, Hk. cbn [bind].
  eexists; reflexivity.
Qed.

Lemma seconds_of_returns t : (t < 2 ^ 1023)%Z -> exists ts, seconds_of t = Ok ts.
Proof.
  intros Ht. unfold seconds_of. destruct (t >? 0)%Z eqn:Et.
  - destruct (@float_of_int_returns t) as (ms & -> & _); [lia|].
    cbn [bind]. eexists; reflexivity.
  - eexists; reflexivity.
Qed.

Lemma token_cost_of_returns k : (k < 2 ^ 1023)%Z -> exists tc, token_cost_of k = Ok tc.
Proof.
  intros Hk. unfold token_cost_of. destruct (k >? 0)%Z eqn:Ek.
  - destruct (@float_of_int_returns k) as (n & -> & _); [lia|].
    cbn [bind]. eexists; reflexivity.
  - eexists; reflexivity.
Qed.

(** [calculate_payment] returns on all inputs of size below
    [2^1023]. *)
Lemma calculate_payment_returns c q t k l :
  (Z.abs q < 2 ^ 1023)%Z -> (t < 2 ^ 1023)%Z -> (Z.abs k < 2 ^ 1023)%Z ->
  exists p, calculate_payment c q t k l = Ok p.
Proof.
  intros Hq Ht Hk. pose proof int_str_bound_large as B.
  destruct (seconds_of_returns t Ht) as [ts Hs].
  destruct (token_cost_of_returns k) as [tc Hc]; [lia|].
  apply (calculate_payment_returns_when c q t k l ts tc Hs Hc); lia.
Qed.


(** C3. On the two end-to-end examples the amount is the float of 4
    cents, written 0.04, and the float of 15 cents, written 0.15. *)
Theorem calculate_payment_examples (code_lines : Z) :
  amount_of (calculate_payment "simple" 90 20000 1000 code_lines) = Ok (lit (4 # 100))
  /\ amount_of (calculate_payment "complex" 60 150000 0 code_lines) = Ok (lit (15 # 100))
  /\ lit (4 # 100) = cents 4 /\ lit (15 # 100) = cents 15.
Proof. repeat split; vm_compute; reflexivity. Qed.

Lemma one_cent_is_cents : lit (1 # 100) = cents 1.
Proof. vm_compute. reflexivity. Qed.

Lemma zero_cents_below_minimum : cents 0 < lit (1 # 100).
Proof. vm_compute. reflexivity. Qed.

Lemma py_round_2_cents x : py_round x 2 = cents (rne (x * inject_Z (10 ^ 2))).
Proof. unfold py_round, cents. do 2 f_equal. Qed.

(** The price of non-negative factors is a whole number of cents, at
    least one. *)
Lemma price_cents base qm tm tc :
  0 <= base -> 0 <= qm -> 0 <= tm -> 0 <= tc ->
  lit (1 # 100) <= price base qm tm tc
  /\ exists n, (1 <= n)%Z /\ price base qm tm tc = cents n.
Proof.
  intros Hb Hq Ht Hc. unfold price. split; [apply py_max_ge|].
  set (x := fadd (fmul (fmul base qm) tm) tc).
  assert (Hx : 0 <= x).
  { apply fadd_nonneg; [|exact Hc]. apply fmul_nonneg; [|exact Ht].
    now apply fmul_nonneg. }
  destruct (py_max_cases (lit (1 # 100)) (py_round x 2)) as [[E _]|[E Hlt]];
    rewrite E.
  - exists 1%Z. split; [lia | apply one_cent_is_cents].
  - rewrite py_round_2_cents in *.
    set (n := rne (x * inject_Z (10 ^ 2))) in *.
    exists n. split; [|reflexivity].
    assert (Hn : (0 <= n)%Z).
    { apply rne_nonneg. apply Qmult_le_0_compat; [exact Hx | discriminate]. }
    destruct (Z.eq_dec n 0) as [Z|NZ]; [|lia].
    exfalso. rewrite Z in Hlt.
    pose proof zero_cents_below_minimum as B.
    exact (Qlt_irrefl _ (Qlt_trans _ _ _ Hlt B)).
Qed.

Lemma seconds_of_range t :
  (exists ts, seconds_of t = Ok ts) <-> (t < float_int_bound)%Z.
Proof.
  unfold seconds_of, float_int_bound. destruct (t >? 0)%Z eqn:Et.
  - rewrite <- (float_of_int_range (n:=t)) by lia.
    destruct (float_of_int t) as [ms|e]; cbn [bind].
    + split; intros _; eexists; reflexivity.
    + split; intros [r H]; discriminate.
  - split; [intros _ | intros _; eexists; reflexivity].
    assert (0 < 2 ^ 1024 - 2 ^ 970)%Z by reflexivity. lia.
Qed.

Lemma token_cost_of_range k :
  (exists tc, token_cost_of k = Ok tc) <-> (k < float_int_bound)%Z.
Proof.
  unfold token_cost_of, float_int_bound. destruct (k >? 0)%Z eqn:Ek.
  - rewrite <- (float_of_int_range (n:=k)) by lia.
    destruct (float_of_int k) as [n|e]; cbn [bind].
    + split; intros _; eexists; reflexivity.
    + split; intros [r H]; discriminate.
  - split; [intros _ | intros _; eexists; reflexivity].
    assert (0 < 2 ^ 1024 - 2 ^ 970)%Z by reflexivity. lia.
Qed.

(** The conversions that [calculate_payment] went through when it
    returned. *)
Lemma calculate_payment_limits c q t k l p :
  calculate_payment c q t k l = Ok p ->
  (Z.abs q < int_str_bound)%Z /\ (Z.abs k < int_str_bound)%Z.
Proof.
  unfold calculate_payment.
  change (if (t >? 0)%Z
          then let* ms := float_of_int t in Ok (fdiv ms (lit 1000))
          else Ok 0) with (seconds_of t).
  change (if (k >? 0)%Z
          then let* n := float_of_int k in Ok (fmul (fdiv n (lit 1000)) TOKEN_COST_PER_1K)
          else Ok 0) with (token_cost_of k).
  destruct (seconds_of t) as [ts|e]; [|discriminate].
  destruct (token_cost_of k) as [tc|e]; [|discriminate].
  cbn [bind].
  destruct (format_int q) as [[]|e] eqn:Fq; [|discriminate].
  destruct (format_int k) as [[]|e] eqn:Fk; [|discriminate].
  intros _. apply format_int_ok in Fq, Fk. split; assumption.
Qed.

(** C4. [calculate_payment] returns exactly when its two conversions
    to float and the two conversions to text of its log line succeed:
    time and tokens below [2^1024 - 2^970], score and tokens of at
    most 4300 digits. Whenever it returns, the amount is the sum of
    adjusted price and token cost of these inputs, rounded to 2 places
    and then raised to the minimum of one cent: it is at least the
    float 0.01 and is the float of a whole number of cents. *)
Theorem amount_at_least_one_cent
    (c : string) (q t k l : Z) :
  ((exists p, calculate_payment c q t k l = Ok p) <->
   (t < float_int_bound)%Z /\ (k < float_int_bound)%Z
   /\ (Z.abs q < int_str_bound)%Z /\ (- int_str_bound < k)%Z)
  /\ forall p, calculate_payment c q t k l = Ok p ->
       exists execution_time_sec token_cost,
         seconds_of t = Ok execution_time_sec
         /\ token_cost_of k = Ok token_cost
         /\ amount p =
            price (BASE_PRICING (if PyStr.nonempty c then PyStr.lower c else "unknown"))
                  (QUALITY_MULTIPLIERS (_get_quality_tier q))
                  (TIME_BONUS (_get_time_tier execution_time_sec)) token_cost
         /\ lit (1 # 100) <= amount p
         /\ exists n, (1 <= n)%Z /\ amount p = cents n.
Proof.
  split.
  - split.
    + intros [p H].
      destruct (calculate_payment_inv _ _ _ _ _ _ H) as (ts & tc & Hs & Hc & _).
      destruct (calculate_payment_limits _ _ _ _ _ _ H) as [Hq Hk].
      split; [apply seconds_of_range; now exists ts|].
      split; [apply token_cost_of_range; now exists tc|].
      split; [exact Hq | lia].
    + intros (Ht & Hk & Hq & Hk').
      apply seconds_of_range in Ht as [ts Hs].
      pose proof Hk as Hk2. apply token_cost_of_range in Hk2 as [tc Hc].
      apply (calculate_payment_returns_when c q t k l ts tc Hs Hc Hq).
      pose proof int_str_bound_large as B. unfold float_int_bound in Hk.
      assert (0 < 2 ^ 970)%Z by reflexivity. lia.
  - intros p H.
    destruct (calculate_payment_inv _ _ _ _ _ _ H)
      as (ts & tc & Hts & Htc & Hqt & Htt & Hb & Hx & Hq & Ht & Ha).
    assert (P := @price_cents (base_price (breakdown p)) (quality_multiplier (breakdown p))
                   (time_multiplier (breakdown p)) tc).
    rewrite <- Ha in P.
    destruct P as [P1 P2].
    + rewrite Hb. apply BASE_PRICING_nonneg.
    + rewrite Hq. apply QUALITY_MULTIPLIERS_nonneg.
    + rewrite Ht. apply TIME_BONUS_nonneg.
    + exact (token_cost_of_nonneg _ _ Htc).
    + exists ts, tc. split; [exact Hts|]. split; [exact Htc|].
      split; [|split; [exact P1 | exact P2]].
      rewrite Ha, Hb, Hq, Ht, Hx, Hqt, Htt. reflexivity.
Qed.

Lemma amount_at_least_one_cent_witness :
  exists p, calculate_payment "medium" 72 45000 2500 12 = Ok p
            /\ lit (1 # 100) <= amount p.
Proof.
  destruct (proj2 (proj1 (amount_at_least_one_cent "medium" 72 45000 2500 12))) as [p Hp].
  { split; [vm_compute; reflexivity|]. split; [vm_compute; reflexivity|].
    split; vm_compute; reflexivity. }
  exists p. split; [exact Hp|].
  destruct (proj2 (amount_at_least_one_cent "medium" 72 45000 2500 12) p Hp)
    as (ts & tc & _ & _ & _ & Lo & _).
  exact Lo.
Defined.


(** Replaces both sides of an inequality by equal terms. *)
Lemma Qle_eq (a a' b b' : Q) : a = a' -> b = b' -> a' <= b' -> a <= b.
Proof. intros Ea Eb H. subst a' b'. exact H. Qed.

Lemma price_unfold base qm tm tc :
  price base qm tm tc =
  py_max (lit (1 # 100)) (py_round (fadd (fmul (fmul base qm) tm) tc) 2).
Proof. reflexivity. Qed.

(** The price grows with each multiplier. *)
Lemma sum_mono base qm1 qm2 tm1 tm2 tc :
  0 <= base -> 0 <= qm1 -> qm1 <= qm2 -> 0 <= tm1 -> tm1 <= tm2 -> 0 <= tc ->
  0 <= fadd (fmul (fmul base qm1) tm1) tc
  /\ fadd (fmul (fmul base qm1) tm1) tc <= fadd (fmul (fmul base qm2) tm2) tc.
Proof.
  intros Hb Hq1 Hq Ht1 Ht Hc.
  assert (Hq2 : 0 <= qm2) by (apply Qle_trans with qm1; assumption).
  assert (Ht2 : 0 <= tm2) by (apply Qle_trans with tm1; assumption).
  split.
  - apply fadd_nonneg; [|exact Hc]. apply fmul_nonneg; [|exact Ht1].
    apply fmul_nonneg; assumption.
  - apply fadd_mono_l; [| exact Hc |].
    + apply fmul_nonneg; [|exact Ht1]. apply fmul_nonneg; assumption.
    + apply Qle_trans with (fmul (fmul base qm2) tm1).
      * apply fmul_mono_l; [exact Ht1 | apply fmul_nonneg; assumption |].
        apply fmul_mono_r; assumption.
      * apply fmul_mono_r; [apply fmul_nonneg; assumption | exact Ht1 | exact Ht].
Qed.

Lemma floor_mono x y :
  0 <= x -> x <= y ->
  py_max (lit (1 # 100)) (py_round x 2) <= py_max (lit (1 # 100)) (py_round y 2).
Proof. intros Hx Hxy. apply py_max_mono. apply py_round_2_mono; assumption. Qed.

Lemma price_mono base qm1 qm2 tm1 tm2 tc :
  0 <= base -> 0 <= qm1 -> qm1 <= qm2 -> 0 <= tm1 -> tm1 <= tm2 -> 0 <= tc ->
  price base qm1 tm1 tc <= price base qm2 tm2 tc.
Proof.
  intros Hb Hq1 Hq Ht1 Ht Hc.
  destruct (sum_mono _ _ _ _ _ _ Hb Hq1 Hq Ht1 Ht Hc) as [H0 H1].
  exact (Qle_eq _ _ _ _ (price_unfold base qm1 tm1 tc) (price_unfold base qm2 tm2 tc)
                (floor_mono _ _ H0 H1)).
Qed.

(** Two payments for the same complexity and token count are ordered
    as their tiers are. *)
Lemma amount_mono c k q1 q2 t1 t2 l1 l2 p1 p2 :
  calculate_payment c q1 t1 k l1 = Ok p1 ->
  calculate_payment c q2 t2 k l2 = Ok p2 ->
  (quality_rank (quality_tier (breakdown p1)) <= quality_rank (quality_tier (breakdown p2)))%nat ->
  (speed_rank (time_tier (breakdown p1)) <= speed_rank (time_tier (breakdown p2)))%nat ->
  amount p1 <= amount p2.
Proof.
  intros H1 H2 Hq Ht.
  destruct (calculate_payment_inv _ _ _ _ _ _ H1)
    as (ts1 & tc1 & _ & Htc1 & _ & _ & Hb1 & Hc1 & Hq1 & Ht1 & Ha1).
  destruct (calculate_payment_inv _ _ _ _ _ _ H2)
    as (ts2 & tc2 & _ & Htc2 & _ & _ & Hb2 & Hc2 & Hq2 & Ht2 & Ha2).
  assert (tc2 = tc1) by congruence. subst tc2.
  assert (Eb : base_price (breakdown p2) = base_price (breakdown p1)) by congruence.
  rewrite Eb, Hq2, Ht2 in Ha2. rewrite Hq1, Ht1 in Ha1.
  apply (Qle_eq _ _ _ _ Ha1 Ha2).
  apply price_mono.
  - rewrite Hb1.
    apply BASE_PRICING_nonneg.
  - apply QUALITY_MULTIPLIERS_nonneg.
  - apply QUALITY_MULTIPLIERS_mono. exact Hq.
  - apply TIME_BONUS_nonneg.
  - apply TIME_BONUS_mono. exact Ht.
  - exact (token_cost_of_nonneg _ _ Htc1).
Qed.

(** C5. For a fixed complexity, execution time and token count the
    amount does not decrease when the quality tier rises through
    needs_work, acceptable, good, excellent; for a fixed complexity,
    quality score and token count it does not increase when the time
    tier falls through very_fast, fast, normal, slow. *)
Theorem payment_monotone_in_tiers (c : string) (k l : Z) :
  (forall t q1 q2 p1 p2,
     calculate_payment c q1 t k l = Ok p1 ->
     calculate_payment c q2 t k l = Ok p2 ->
     (quality_rank (quality_tier (breakdown p1))
      <= quality_rank (quality_tier (breakdown p2)))%nat ->
     amount p1 <= amount p2)
  /\ (forall q t1 t2 p1 p2,
        calculate_payment c q t1 k l = Ok p1 ->
        calculate_payment c q t2 k l = Ok p2 ->
        (speed_rank (time_tier (breakdown p1))
         <= speed_rank (time_tier (breakdown p2)))%nat ->
        amount p1 <= amount p2).
Proof.
  split.
  - intros t q1 q2 p1 p2 H1 H2 Hq.
    apply (amount_mono _ _ _ _ _ _ _ _ _ _ H1 H2 Hq).
    destruct (calculate_payment_inv _ _ _ _ _ _ H1) as (ts1 & tc1 & S1 & _ & _ & T1 & _).
    destruct (calculate_payment_inv _ _ _ _ _ _ H2) as (ts2 & tc2 & S2 & _ & _ & T2 & _).
    assert (ts2 = ts1) by congruence. subst ts2. rewrite T1, T2. apply Nat.le_refl.
  - intros q t1 t2 p1 p2 H1 H2 Ht.
    apply (amount_mono _ _ _ _ _ _ _ _ _ _ H1 H2); [|exact Ht].
    destruct (calculate_payment_inv _ _ _ _ _ _ H1) as (ts1 & tc1 & _ & _ & Q1 & _).
    destruct (calculate_payment_inv _ _ _ _ _ _ H2) as (ts2 & tc2 & _ & _ & Q2 & _).
    rewrite Q1, Q2. apply Nat.le_refl.
Qed.

Lemma payment_monotone_in_tiers_witness :
  exists p1 p2,
    calculate_payment "simple" 60 20000 1000 0 = Ok p1
    /\ calculate_payment "simple" 99 20000 1000 0 = Ok p2
    /\ amount p1 <= amount p2.
Proof.
  destruct (@calculate_payment_returns "simple" 60 20000 1000 0 eq_refl eq_refl eq_refl) as [p1 H1].
  destruct (@calculate_payment_returns "simple" 99 20000 1000 0 eq_refl eq_refl eq_refl) as [p2 H2].
  exists p1, p2. split; [exact H1|]. split; [exact H2|].
  apply (proj1 (payment_monotone_in_tiers "simple" 1000%Z 0%Z) 20000%Z 60%Z 99%Z p1 p2 H1 H2).
  destruct (calculate_payment_inv _ _ _ _ _ _ H1) as (ts1 & tc1 & _ & _ & Q1 & _).
  destruct (calculate_payment_inv _ _ _ _ _ _ H2) as (ts2 & tc2 & _ & _ & Q2 & _).
  rewrite Q1, Q2. vm_compute. repeat constructor.
Defined.

End PaymentProofs.

(* ================================================================= *)
(** * The task history of the server *)

Module ServerProofs.

Import ApiServer.
Local Open Scope nat_scope.

Section Bound.

Variable Entry : Type.

Lemma store_length (task_history : list Entry) (response : Entry) :
  length task_history <= 50 -> length (store task_history response) <= 50.
Proof.
  intros H. unfold store.
  assert (L : length (task_history ++ [response]) = S (length task_history))
    by (rewrite length_app; simpl; lia).
  destruct (50 <? length (task_history ++ [response])) eqn:E.
  - destruct (task_history ++ [response]) as [|x rest]; simpl in *; lia.
  - apply Nat.ltb_ge in E. exact E.
Qed.

Lemma handle_length (task_history : list Entry) (req : Request Entry) :
  length task_history <= 50 -> length (handle task_history req) <= 50.
Proof.
  intros H. destruct req as [[response|]| |]; simpl.
  - now apply store_length.
  - exact H.
  - lia.
  - exact H.
Qed.

Lemma fold_handle_length (reqs : list (Request Entry)) :
  forall task_history,
    length task_history <= 50 -> length (fold_left (@handle Entry) reqs task_history) <= 50.
Proof.
  induction reqs as [|req reqs IH]; intros h H; simpl.
  - exact H.
  - apply IH. now apply handle_length.
Qed.

(** A full history loses its oldest entry when a response is stored. *)
Lemma store_full (task_history : list Entry) (response : Entry) :
  length task_history = 50 -> store task_history response = tl task_history ++ [response].
Proof.
  intros H. unfold store.
  assert (L : length (task_history ++ [response]) = 51)
    by (rewrite length_app; simpl; lia).
  rewrite L. simpl. destruct task_history; [discriminate | reflexivity].
Qed.

(** C10. Starting from the empty list, after any sequence of requests
    the task history holds at most 50 entries; storing a response in a
    history of fewer than 50 entries appends it, and in a full history
    it also removes the oldest entry. *)
Theorem task_history_bounded (reqs : list (Request Entry)) :
  length (serve reqs) <= 50
  /\ forall response,
       length (serve (reqs ++ [PostProcess (Some response)])) <= 50
       /\ serve (reqs ++ [PostProcess (Some response)]) =
          (if length (serve reqs) <? 50
           then serve reqs ++ [response]
           else tl (serve reqs) ++ [response]).
Proof.
  assert (B : forall rs : list (Request Entry), length (serve rs) <= 50).
  { intros rs. apply fold_handle_length. simpl. lia. }
  split; [apply B|]. intros response. split; [apply B|].
  unfold serve. rewrite fold_left_app. simpl.
  fold (serve reqs). specialize (B reqs).
  destruct (length (serve reqs) <? 50) eqn:E.
  - apply Nat.ltb_lt in E. unfold store.
    assert (L : length (serve reqs ++ [response]) = S (length (serve reqs)))
      by (rewrite length_app; simpl; lia).
    assert (F : (50 <? length (serve reqs ++ [response])) = false)
      by (apply Nat.ltb_ge; lia).
    now rewrite F.
  - apply Nat.ltb_ge in E. apply store_full. lia.
Qed.

End Bound.

End ServerProofs.

(* ================================================================= *)
(** * The bounds of the handoff state machine *)

Module MachineProofs.

Import HandoffMachine.
Local Open Scope nat_scope.

Section Run.

Variable cfg : Config.
Variable capability : list Role -> Role -> Directive.

Lemma run_from_invariant (budget : nat) :
  forall seq current,
    length seq <= max_handoffs cfg ->
    run_invariant cfg capability budget seq (run_from cfg capability budget seq current).
Proof.
  induction budget as [|budget IH]; intros seq current Hseq.
  - simpl. unfold run_invariant. simpl.
    repeat split; try discriminate; lia.
  - simpl.
    assert (L : length (seq ++ [current]) = S (length seq))
      by (rewrite length_app; simpl; lia).
    destruct (capability seq current) as [target| | |] eqn:D.
    + destruct (max_handoffs cfg <=? length seq) eqn:E.
      * apply Nat.leb_le in E. unfold run_invariant. simpl.
        repeat split; try discriminate; try lia.
        intros _. exists seq, current, target. auto.
      * apply Nat.leb_gt in E.
        destruct (repetitive cfg (seq ++ [current])).
        -- unfold run_invariant. simpl. repeat split; try discriminate; lia.
        -- assert (H : length (seq ++ [current]) <= max_handoffs cfg) by lia.
           destruct (IH (seq ++ [current]) target H) as (A & B & C & F & G).
           unfold run_invariant. repeat split; try assumption; try lia.
           intros T. specialize (G T). lia.
    + unfold run_invariant. simpl. repeat split; try discriminate; try lia.
      intros _. exists seq, current. auto.
    + unfold run_invariant. simpl. repeat split; try discriminate; lia.
    + unfold run_invariant. simpl. repeat split; try discriminate; lia.
Qed.

Lemma snoc_inj (s s' : list Role) (c c' : Role) :
  s ++ [c] = s' ++ [c'] -> s = s' /\ c = c'.
Proof.
  intros H. apply app_inj_tail in H. exact H.
Qed.

(** C9. A run never records more than [max_iterations] activations nor
    more than [max_handoffs] transitions. When the last recorded agent
    asked for a handoff, the run ended with a failure tag and the
    transition was not taken; a run that ended normally ended on an
    agent that gave no directive. *)
Theorem run_respects_bounds :
  length (fst (run cfg capability)) <= max_iterations cfg
  /\ transitions (fst (run cfg capability)) <= max_handoffs cfg
  /\ (snd (run cfg capability) = Finished ->
      exists s c, fst (run cfg capability) = s ++ [c] /\ capability s c = NoDirective)
  /\ (forall s c target,
        fst (run cfg capability) = s ++ [c] ->
        capability s c = Handoff target ->
        is_failure (snd (run cfg capability)) = true)
  /\ (snd (run cfg capability) = HandoffLimit ->
      transitions (fst (run cfg capability)) = max_handoffs cfg)
  /\ (snd (run cfg capability) = IterationLimit ->
      length (fst (run cfg capability)) = max_iterations cfg).
Proof.
  unfold run.
  destruct (run_from_invariant (max_iterations cfg) [] requirements (Nat.le_0_l _))
    as (A & B & C & F & G).
  simpl in A, G.
  set (out := run_from cfg capability (max_iterations cfg) [] requirements) in *.
  assert (T : transitions (fst out) <= max_handoffs cfg).
  { unfold transitions. destruct (1 <? length (fst out)); lia. }
  repeat split; try assumption.
  - intros s c target Hs Hc.
    destruct (snd out) eqn:Tag; try reflexivity.
    destruct (C eq_refl) as (s' & c' & Hs' & Hc').
    rewrite Hs in Hs'. apply snoc_inj in Hs' as [-> ->]. congruence.
  - intros Tag. destruct (F Tag) as (s & c & target & Hs & _ & Hm).
    unfold transitions. rewrite Hs in *. rewrite length_app in *. simpl in *.
    destruct (1 <? length s + 1) eqn:E.
    + lia.
    + apply Nat.ltb_ge in E. lia.
Qed.

End Run.

(** The bounds with the configuration of [CodeCollabSwarm.__init__]:
    two agents that hand the task to each other for ever are stopped by
    the repetitive-handoff test. *)
Lemma run_respects_bounds_witness :
  let ping_pong := fun (_ : list Role) (current : Role) =>
                     match current with
                     | builder => Handoff quality
                     | _ => Handoff builder
                     end in
  length (fst (run swarm_config ping_pong)) <= 10
  /\ transitions (fst (run swarm_config ping_pong)) <= 10
  /\ is_failure (snd (run swarm_config ping_pong)) = true.
Proof.
  intros ping_pong.
  destruct (run_respects_bounds swarm_config ping_pong) as (A & B & _).
  split; [exact A|]. split; [exact B|]. reflexivity.
Defined.

End MachineProofs.

(* ================================================================= *)
(** * [process_task] as a whole *)

Module ProcessProofs.

Import PyStr SwarmOrchestrator SpecWords.
Local Open Scope string_scope.

Lemma py_and_true (a : PyVal) (b : bool) :
  py_and a (PyBool b) = PyBool true <-> truthy a = true /\ b = true.
Proof.
  unfold py_and. destruct (truthy a) eqn:T.
  - split.
    + intros H. injection H as ->. auto.
    + intros [_ ->]. reflexivity.
  - split.
    + intros ->. simpl in T. discriminate.
    + intros [H _]. discriminate.
Qed.

Lemma success_status_truthy (r : SwarmResult) :
  truthy (success_status_of r) = true <-> run_ok r.
Proof.
  destruct r as [o|d s]; simpl.
  - destruct (status o) as [st|]; simpl.
    + rewrite String.eqb_eq. split.
      * intros ->. now left.
      * intros [H|H]; [now injection H | discriminate].
    + split; auto.
  - destruct (get d "success"); simpl; tauto.
Qed.

(** The record built by the body of the [try] block. *)
Lemma process_task_body_inv (swarm : string -> result SwarmResult)
    (task : string) (rec : RunRecord) :
  process_task_body swarm task = Ok rec ->
  exists r,
    swarm task = Ok r
    /\ task_description rec = task
    /\ final_result rec = final_result_str_of r
    /\ deliverables rec = extract_code (final_result_str_of r) (builder_text r)
    /\ success rec =
       py_and (success_status_of r)
              (PyBool (String.eqb (extract_decision (final_result_str_of r)) "COMPLETE")).
Proof.
  unfold process_task_body.
  destruct (swarm task) as [r|e]; [|discriminate]. cbn [bind].
  destruct (_extract_quality_score r) as [q|e]; [|discriminate]. cbn [bind].
  match goal with
  | |- bind ?m _ = _ -> _ => destruct m as [pay|e]; [|discriminate]
  end.
  cbn [bind]. intros H. injection H as <-.
  exists r. cbn [task_description final_result deliverables success].
  repeat split.
Qed.

(** C1, as the code has it. [process_task] always hands a record to its
    caller. When the swarm call or the processing of its result raises,
    the record has success false, the task description and the text of
    the exception as its error. Otherwise the record is the run result,
    and its success is true exactly when the final decision is COMPLETE
    and the run counts as terminated normally: the status is "success",
    or the result has no status and, for a mock dict, its 'success'
    entry is missing or truthy. *)
Theorem process_task_never_raises (swarm : string -> result SwarmResult) (task : string) :
  (exists e,
     process_task_body swarm task = Raise e
     /\ process_task swarm task = ErrorResponse false task e
     /\ response_success (process_task swarm task) = PyBool false
     /\ response_error (process_task swarm task) = Some e)
  \/ (exists r rec,
        swarm task = Ok r
        /\ process_task swarm task = RunResponse rec
        /\ task_description rec = task
        /\ (response_success (process_task swarm task) = PyBool true
            <-> run_ok r /\ extract_decision (final_result_str_of r) = "COMPLETE")).
Proof.
  unfold process_task.
  destruct (process_task_body swarm task) as [rec|e] eqn:B;
    cbv beta iota; cbn [response_success response_error].
  - right. destruct (process_task_body_inv swarm task rec B) as (r & Hr & Ht & _ & _ & Hs).
    exists r, rec. split; [exact Hr|]. split; [reflexivity|]. split; [exact Ht|].
    rewrite Hs, py_and_true, success_status_truthy, String.eqb_eq. reflexivity.
  - left. exists e. repeat split.
Qed.

(** C1, as worded, fails: a result without a status attribute and a
    COMPLETE decision is reported as a success. *)
Lemma success_without_status :
  let r := result_with_agent None "escalation_agent" "DECISION: COMPLETE" in
  response_success (process_task (fun _ => Ok r) "add two numbers") = PyBool true
  /\ ~ status_is_success r.
Proof.
  cbv zeta. split.
  - vm_compute. reflexivity.
  - unfold status_is_success, result_with_agent. cbn [status]. discriminate.
Qed.

(** An exception of the swarm call, and one of the processing, both end
    in the error record. *)
Lemma process_task_error_examples :
  process_task (fun _ => Raise "Connection reset") "add two numbers"
  = ErrorResponse false "add two numbers" "Connection reset"
  /\ response_error
       (process_task
          (fun _ => Ok (ResultObj
             {| node_history := None;
                execution_time := Some (2 ^ 1024)%Z;
                results := None;
                status := Some "success";
                accumulated_usage := None;
                repr := "result" |}))
          "add two numbers")
     = Some "int too large to convert to float".
Proof. split; vm_compute; reflexivity. Qed.

End ProcessProofs.

(* ================================================================= *)
(** * More about the pricing *)

Module PaymentMore.

Import PyInt Float64 Float64Facts PaymentCalculator SpecWords MoreWords PaymentProofs.
Local Open Scope Q_scope.
Local Open Scope string_scope.

Lemma lit_1000_pos : 0 < lit 1000.
Proof. vm_compute. reflexivity. Qed.

Lemma fdiv_mono_l (a b c : Q) : 0 < c -> 0 <= a -> a <= b -> fdiv a c <= fdiv b c.
Proof.
  intros Hc Ha Hab. unfold fdiv. apply RN_mono.
  - apply Qle_shift_div_l; [exact Hc|]. rewrite Qmult_0_l. exact Ha.
  - apply Qmult_le_compat_r; [exact Hab|].
    apply Qlt_le_weak, Qinv_lt_0_compat, Hc.
Qed.

Lemma fdiv_nonneg (a c : Q) : 0 < c -> 0 <= a -> 0 <= fdiv a c.
Proof.
  intros Hc Ha. unfold fdiv. apply RN_nonneg.
  apply Qle_shift_div_l; [exact Hc|]. rewrite Qmult_0_l. exact Ha.
Qed.

Lemma fadd_mono_r (a b c : Q) : 0 <= a -> 0 <= b -> b <= c -> fadd a b <= fadd a c.
Proof. intros Ha Hb Hbc. unfold fadd. apply RN_mono; lra. Qed.

Lemma float_of_int_eq (n : Z) (r : Q) : float_of_int n = Ok r -> r = RN (inject_Z n).
Proof.
  unfold float_of_int. destruct (Qle_bool _ _); [discriminate|].
  intros H. injection H as <-. reflexivity.
Qed.

Lemma float_of_int_mono (m n : Z) (r s : Q) :
  (0 < m)%Z -> (m <= n)%Z -> float_of_int m = Ok r -> float_of_int n = Ok s -> r <= s.
Proof.
  intros Hm Hmn Hr Hs.
  apply float_of_int_eq in Hr. apply float_of_int_eq in Hs. subst r s.
  apply RN_mono.
  - change 0 with (inject_Z 0). rewrite <- Zle_Qle. lia.
  - rewrite <- Zle_Qle. exact Hmn.
Qed.

Lemma seconds_of_nonneg (t : Z) (s : Q) : seconds_of t = Ok s -> 0 <= s.
Proof.
  unfold seconds_of. destruct (t >? 0)%Z eqn:Ht.
  - destruct (float_of_int t) as [ms|e] eqn:F; cbn [bind]; [|discriminate].
    intros H. injection H as <-.
    apply fdiv_nonneg; [exact lit_1000_pos|].
    apply (@float_of_int_nonneg t ms); [lia | exact F].
  - intros H. injection H as <-. apply Qle_refl.
Qed.

(** A longer run never takes fewer seconds. *)
Lemma seconds_of_mono (t1 t2 : Z) (s1 s2 : Q) :
  (t1 <= t2)%Z -> seconds_of t1 = Ok s1 -> seconds_of t2 = Ok s2 -> s1 <= s2.
Proof.
  intros Ht H1 H2.
  pose proof (seconds_of_nonneg t2 s2 H2) as N2.
  unfold seconds_of in H1, H2.
  destruct (t1 >? 0)%Z eqn:E1.
  - assert (E2 : (t2 >? 0)%Z = true) by lia. rewrite E2 in H2.
    destruct (float_of_int t1) as [m1|e1] eqn:F1; cbn [bind] in H1; [|discriminate].
    destruct (float_of_int t2) as [m2|e2] eqn:F2; cbn [bind] in H2; [|discriminate].
    injection H1 as <-. injection H2 as <-.
    apply fdiv_mono_l; [exact lit_1000_pos | |].
    + apply (@float_of_int_nonneg t1 m1); [lia | exact F1].
    + apply (float_of_int_mono t1 t2 m1 m2); [lia | exact Ht | exact F1 | exact F2].
  - injection H1 as <-. exact N2.
Qed.


Lemma flt_true (a b : Q) : a < b -> flt a b = true.
Proof.
  intros H. unfold flt. destruct (Qle_bool b a) eqn:E; [|reflexivity].
  apply Qle_bool_iff in E. exfalso. exact (Qlt_not_le _ _ H E).
Qed.

Lemma flt_false (a b : Q) : b <= a -> flt a b = false.
Proof.
  intros H. unfold flt. apply Qle_bool_iff in H. rewrite H. reflexivity.
Qed.

Lemma fle_true (a b : Q) : a <= b -> fle a b = true.
Proof. intros H. unfold fle. apply Qle_bool_iff. exact H. Qed.

Lemma fle_false (a b : Q) : b < a -> fle a b = false.
Proof.
  intros H. unfold fle. destruct (Qle_bool a b) eqn:E; [|reflexivity].
  apply Qle_bool_iff in E. exfalso. exact (Qlt_not_le _ _ H E).
Qed.

(** The seconds at the six milliseconds next to the thresholds. *)
Lemma seconds_at_thresholds :
  exists a b c d e f,
    seconds_of 29999 = Ok a /\ seconds_of 30000 = Ok b
    /\ seconds_of 59999 = Ok c /\ seconds_of 60000 = Ok d
    /\ seconds_of 120000 = Ok e /\ seconds_of 120001 = Ok f
    /\ a < 30 /\ 30 <= b /\ c < 60 /\ 60 <= d /\ e <= 120 /\ 120 < f.
Proof.
  exists (fdiv (RN (inject_Z 29999)) (lit 1000)), (fdiv (RN (inject_Z 30000)) (lit 1000)),
         (fdiv (RN (inject_Z 59999)) (lit 1000)), (fdiv (RN (inject_Z 60000)) (lit 1000)),
         (fdiv (RN (inject_Z 120000)) (lit 1000)), (fdiv (RN (inject_Z 120001)) (lit 1000)).
  split; [vm_compute; reflexivity|]. split; [vm_compute; reflexivity|].
  split; [vm_compute; reflexivity|]. split; [vm_compute; reflexivity|].
  split; [vm_compute; reflexivity|]. split; [vm_compute; reflexivity|].
  split; [qdecide|]. split; [qdecide|]. split; [qdecide|].
  split; [qdecide|]. split; qdecide.
Qed.

(** The float division by 1000 does not blur the thresholds: the tier
    of the seconds is the tier of the milliseconds. *)
Lemma time_tier_of_seconds (t : Z) (s : Q) :
  seconds_of t = Ok s -> _get_time_tier s = tier_of_ms t.
Proof.
  intros Hs.
  destruct seconds_at_thresholds
    as (a & b & c & d & e & f & Sa & Sb & Sc & Sd & Se & Sf & Ha & Hb & Hc & Hd & He & Hf).
  unfold _get_time_tier, tier_of_ms.
  destruct (t <? 30000)%Z eqn:E1.
  { apply Z.ltb_lt in E1.
    assert (s <= a) by (apply (seconds_of_mono t 29999); [lia | exact Hs | exact Sa]).
    rewrite flt_true; [reflexivity|]. apply Qle_lt_trans with a; assumption. }
  apply Z.ltb_ge in E1.
  assert (L1 : b <= s) by (apply (seconds_of_mono 30000 t); [lia | exact Sb | exact Hs]).
  rewrite flt_false by (apply Qle_trans with b; assumption).
  destruct (t <? 60000)%Z eqn:E2.
  { apply Z.ltb_lt in E2.
    assert (s <= c) by (apply (seconds_of_mono t 59999); [lia | exact Hs | exact Sc]).
    rewrite flt_true; [reflexivity|]. apply Qle_lt_trans with c; assumption. }
  apply Z.ltb_ge in E2.
  assert (L2 : d <= s) by (apply (seconds_of_mono 60000 t); [lia | exact Sd | exact Hs]).
  rewrite flt_false by (apply Qle_trans with d; assumption).
  destruct (t <=? 120000)%Z eqn:E3.
  { apply Z.leb_le in E3.
    assert (s <= e) by (apply (seconds_of_mono t 120000); [lia | exact Hs | exact Se]).
    rewrite fle_true; [reflexivity|]. apply Qle_trans with e; assumption. }
  apply Z.leb_gt in E3.
  assert (L3 : f <= s) by (apply (seconds_of_mono 120001 t); [lia | exact Sf | exact Hs]).
  rewrite fle_false; [reflexivity|]. apply Qlt_le_trans with f; assumption.
Qed.

(** X4. The time tier of a returned payment is decided by the
    milliseconds alone: very_fast below 30000, fast below 60000,
    normal up to 120000 included, slow beyond. *)
Theorem time_tier_thresholds (c : string) (q t k l : Z) (p : Payment) :
  calculate_payment c q t k l = Ok p ->
  time_tier (breakdown p) = tier_of_ms t.
Proof.
  intros H.
  destruct (calculate_payment_inv _ _ _ _ _ _ H) as (ts & tc & Hs & _ & _ & Ht & _).
  rewrite Ht. apply time_tier_of_seconds. exact Hs.
Qed.

Lemma time_tier_thresholds_witness :
  exists p, calculate_payment "medium" 80 120000 0 0 = Ok p
            /\ time_tier (breakdown p) = normal.
Proof.
  destruct (calculate_payment_returns "medium" 80 120000 0 0 eq_refl eq_refl eq_refl) as [p Hp].
  exists p. split; [exact Hp|].
  exact (time_tier_thresholds "medium" 80 120000 0 0 p Hp).
Defined.


Lemma quality_tier_mono (q1 q2 : Z) :
  (q1 <= q2)%Z ->
  (quality_rank (_get_quality_tier q1) <= quality_rank (_get_quality_tier q2))%nat.
Proof.
  intros H. unfold _get_quality_tier.
  destruct (q1 >=? 95)%Z eqn:A1; destruct (q1 >=? 85)%Z eqn:B1;
    destruct (q1 >=? 70)%Z eqn:C1;
    destruct (q2 >=? 95)%Z eqn:A2; destruct (q2 >=? 85)%Z eqn:B2;
    destruct (q2 >=? 70)%Z eqn:C2; cbv [quality_rank]; lia.
Qed.

Lemma tier_of_ms_mono (t1 t2 : Z) :
  (t1 <= t2)%Z -> (speed_rank (tier_of_ms t2) <= speed_rank (tier_of_ms t1))%nat.
Proof.
  intros H. unfold tier_of_ms.
  destruct (t1 <? 30000)%Z eqn:A1; destruct (t1 <? 60000)%Z eqn:B1;
    destruct (t1 <=? 120000)%Z eqn:C1;
    destruct (t2 <? 30000)%Z eqn:A2; destruct (t2 <? 60000)%Z eqn:B2;
    destruct (t2 <=? 120000)%Z eqn:C2; cbv [speed_rank]; lia.
Qed.

(** X1. A higher quality score never lowers the amount, and a longer
    execution never raises it, whatever the code line counts. *)
Theorem amount_monotone_in_score_and_time
    (c : string) (k q1 q2 t1 t2 l1 l2 : Z) (p1 p2 : Payment) :
  calculate_payment c q1 t1 k l1 = Ok p1 ->
  calculate_payment c q2 t2 k l2 = Ok p2 ->
  (q1 <= q2)%Z -> (t2 <= t1)%Z ->
  amount p1 <= amount p2.
Proof.
  intros H1 H2 Hq Ht.
  apply (amount_mono c k q1 q2 t1 t2 l1 l2 p1 p2 H1 H2).
  - destruct (calculate_payment_inv _ _ _ _ _ _ H1) as (ts1 & tc1 & _ & _ & Q1 & _).
    destruct (calculate_payment_inv _ _ _ _ _ _ H2) as (ts2 & tc2 & _ & _ & Q2 & _).
    rewrite Q1, Q2. apply quality_tier_mono. exact Hq.
  - destruct (calculate_payment_inv _ _ _ _ _ _ H1) as (ts1 & tc1 & S1 & _ & _ & T1 & _).
    destruct (calculate_payment_inv _ _ _ _ _ _ H2) as (ts2 & tc2 & S2 & _ & _ & T2 & _).
    rewrite T1, T2, (time_tier_of_seconds _ _ S1), (time_tier_of_seconds _ _ S2).
    apply tier_of_ms_mono. exact Ht.
Qed.

Lemma amount_monotone_in_score_and_time_witness :
  exists p1 p2,
    calculate_payment "complex" 69 60001 500 0 = Ok p1
    /\ calculate_payment "complex" 70 59999 500 0 = Ok p2
    /\ amount p1 <= amount p2.
Proof.
  destruct (calculate_payment_returns "complex" 69 60001 500 0 eq_refl eq_refl eq_refl) as [p1 H1].
  destruct (calculate_payment_returns "complex" 70 59999 500 0 eq_refl eq_refl eq_refl) as [p2 H2].
  exists p1, p2. split; [exact H1|]. split; [exact H2|].
  apply (amount_monotone_in_score_and_time "complex" 500 69 70 60001 59999 0 0 p1 p2 H1 H2);
    discriminate.
Defined.

Lemma token_cost_of_mono (k1 k2 : Z) (c1 c2 : Q) :
  (k1 <= k2)%Z -> token_cost_of k1 = Ok c1 -> token_cost_of k2 = Ok c2 -> c1 <= c2.
Proof.
  intros Hk H1 H2.
  pose proof (token_cost_of_nonneg k2 c2 H2) as N2.
  unfold token_cost_of in H1, H2.
  destruct (k1 >? 0)%Z eqn:E1.
  - assert (E2 : (k2 >? 0)%Z = true) by lia. rewrite E2 in H2.
    destruct (float_of_int k1) as [m1|e1] eqn:F1; cbn [bind] in H1; [|discriminate].
    destruct (float_of_int k2) as [m2|e2] eqn:F2; cbn [bind] in H2; [|discriminate].
    injection H1 as <-. injection H2 as <-.
    assert (P1 : 0 <= m1) by (apply (@float_of_int_nonneg k1 m1); [lia | exact F1]).
    apply fmul_mono_l.
    + apply Qle_bool_iff. vm_compute. reflexivity.
    + apply fdiv_nonneg; [exact lit_1000_pos | exact P1].
    + apply fdiv_mono_l; [exact lit_1000_pos | exact P1 |].
      apply (float_of_int_mono k1 k2 m1 m2); [lia | exact Hk | exact F1 | exact F2].
  - injection H1 as <-. exact N2.
Qed.

Lemma price_mono_tokens (base qm tm c1 c2 : Q) :
  0 <= base -> 0 <= qm -> 0 <= tm -> 0 <= c1 -> c1 <= c2 ->
  price base qm tm c1 <= price base qm tm c2.
Proof.
  intros Hb Hq Ht H1 H12.
  assert (A : 0 <= fmul (fmul base qm) tm).
  { apply fmul_nonneg; [|exact Ht]. apply fmul_nonneg; assumption. }
  apply (Qle_eq _ _ _ _ (price_unfold base qm tm c1) (price_unfold base qm tm c2)).
  apply floor_mono.
  - apply fadd_nonneg; assumption.
  - apply fadd_mono_r; assumption.
Qed.

(** X2. More tokens never lower the amount. *)
Theorem amount_monotone_in_tokens
    (c : string) (q t k1 k2 l1 l2 : Z) (p1 p2 : Payment) :
  calculate_payment c q t k1 l1 = Ok p1 ->
  calculate_payment c q t k2 l2 = Ok p2 ->
  (k1 <= k2)%Z ->
  amount p1 <= amount p2.
Proof.
  intros H1 H2 Hk.
  destruct (calculate_payment_inv _ _ _ _ _ _ H1)
    as (ts1 & tc1 & S1 & Htc1 & G1 & T1 & Hb1 & Hc1 & Hq1 & Ht1 & Ha1).
  destruct (calculate_payment_inv _ _ _ _ _ _ H2)
    as (ts2 & tc2 & S2 & Htc2 & G2 & T2 & Hb2 & Hc2 & Hq2 & Ht2 & Ha2).
  assert (ts2 = ts1) by congruence. subst ts2.
  assert (Eb : base_price (breakdown p2) = base_price (breakdown p1)) by congruence.
  assert (Eq : quality_multiplier (breakdown p2) = quality_multiplier (breakdown p1))
    by congruence.
  assert (Et : time_multiplier (breakdown p2) = time_multiplier (breakdown p1))
    by congruence.
  rewrite Eb, Eq, Et in Ha2.
  apply (Qle_eq _ _ _ _ Ha1 Ha2).
  apply price_mono_tokens.
  - rewrite Hb1. apply BASE_PRICING_nonneg.
  - rewrite Hq1. apply QUALITY_MULTIPLIERS_nonneg.
  - rewrite Ht1. apply TIME_BONUS_nonneg.
  - exact (token_cost_of_nonneg _ _ Htc1).
  - exact (token_cost_of_mono k1 k2 tc1 tc2 Hk Htc1 Htc2).
Qed.

Lemma amount_monotone_in_tokens_witness :
  exists p1 p2,
    calculate_payment "simple" 90 1000 0 0 = Ok p1
    /\ calculate_payment "simple" 90 1000 250000 0 = Ok p2
    /\ amount p1 <= amount p2.
Proof.
  destruct (calculate_payment_returns "simple" 90 1000 0 0 eq_refl eq_refl eq_refl) as [p1 H1].
  destruct (calculate_payment_returns "simple" 90 1000 250000 0 eq_refl eq_refl eq_refl) as [p2 H2].
  exists p1, p2. split; [exact H1|]. split; [exact H2|].
  apply (amount_monotone_in_tokens "simple" 90 1000 0 250000 0 0 p1 p2 H1 H2).
  discriminate.
Defined.


(** Without token cost the price lies between 2 and 29 cents. *)
Lemma price_without_tokens (key : string) (tq : QualityTier) (tt : TimeTier) :
  cents 2 <= price (BASE_PRICING key) (QUALITY_MULTIPLIERS tq) (TIME_BONUS tt) 0
  /\ price (BASE_PRICING key) (QUALITY_MULTIPLIERS tq) (TIME_BONUS tt) 0 <= cents 29.
Proof.
  unfold BASE_PRICING.
  destruct (String.eqb key "simple"); [destruct tq, tt; split; qdecide|].
  destruct (String.eqb key "medium"); [destruct tq, tt; split; qdecide|].
  destruct (String.eqb key "complex"); destruct tq, tt; split; qdecide.
Qed.

(** X3. Every returned amount is at least 2 cents, so the minimum of
    one cent is never what is paid; when no token is charged the
    amount is at most 29 cents. *)
Theorem amount_range (c : string) (q t k l : Z) (p : Payment) :
  calculate_payment c q t k l = Ok p ->
  cents 2 <= amount p /\ ((k <= 0)%Z -> amount p <= cents 29).
Proof.
  intros H.
  destruct (calculate_payment_inv _ _ _ _ _ _ H)
    as (ts & tc & _ & Htc & _ & _ & Hb & _ & Hq & Ht & Ha).
  rewrite Hb, Hq, Ht in Ha.
  destruct (price_without_tokens (complexity (breakdown p)) (quality_tier (breakdown p))
              (time_tier (breakdown p))) as [Lo Hi].
  split.
  - apply Qle_trans with (price (BASE_PRICING (complexity (breakdown p)))
                                (QUALITY_MULTIPLIERS (quality_tier (breakdown p)))
                                (TIME_BONUS (time_tier (breakdown p))) 0); [exact Lo|].
    apply (Qle_eq _ _ _ _ eq_refl Ha).
    apply price_mono_tokens.
    + apply BASE_PRICING_nonneg.
    + apply QUALITY_MULTIPLIERS_nonneg.
    + apply TIME_BONUS_nonneg.
    + apply Qle_refl.
    + exact (token_cost_of_nonneg _ _ Htc).
  - intros Hk. unfold token_cost_of in Htc.
    assert (E : (k >? 0)%Z = false) by lia. rewrite E in Htc.
    injection Htc as <-. apply (Qle_eq _ _ _ _ Ha eq_refl). exact Hi.
Qed.

Lemma amount_range_witness :
  exists p, calculate_payment "simple" 10 500000 0 0 = Ok p
            /\ cents 2 <= amount p /\ amount p <= cents 29.
Proof.
  destruct (calculate_payment_returns "simple" 10 500000 0 0 eq_refl eq_refl eq_refl) as [p Hp].
  exists p. split; [exact Hp|].
  destruct (amount_range "simple" 10 500000 0 0 p Hp) as [Lo Hi].
  split; [exact Lo | apply Hi; discriminate].
Defined.


Lemma lower_upper_char (a : Ascii.ascii) :
  PyStr.lower_char (PyStr.upper_char a) = PyStr.lower_char a.
Proof. destruct a as [[] [] [] [] [] [] [] []]; vm_compute; reflexivity. Qed.

Lemma lower_upper (s : string) : PyStr.lower (PyStr.upper s) = PyStr.lower s.
Proof.
  induction s as [|a s IH]; [reflexivity|].
  unfold PyStr.lower, PyStr.upper in *. cbn [PyStr.map_string].
  rewrite lower_upper_char, IH. reflexivity.
Qed.

Lemma nonempty_upper (s : string) : PyStr.nonempty (PyStr.upper s) = PyStr.nonempty s.
Proof. destruct s; reflexivity. Qed.

Lemma BASE_PRICING_unknown : BASE_PRICING "unknown" = lit (5 # 100).
Proof. reflexivity. Qed.

Lemma BASE_PRICING_fallback (key : string) :
  String.eqb key "simple" || String.eqb key "medium" || String.eqb key "complex" = false ->
  BASE_PRICING key = lit (5 # 100).
Proof.
  intros H. apply orb_false_iff in H as [H Hc]. apply orb_false_iff in H as [Hs Hm].
  unfold BASE_PRICING. rewrite Hs, Hm, Hc. reflexivity.
Qed.

(** The amount of [calculate_payment], as one formula. *)
Lemma amount_of_calculate (c : string) (q t k l : Z) :
  amount_of (calculate_payment c q t k l) =
  bind (seconds_of t) (fun ts =>
  bind (token_cost_of k) (fun tc =>
  bind (format_int q) (fun _ =>
  bind (format_int k) (fun _ =>
    Ok (price (BASE_PRICING (if PyStr.nonempty c then PyStr.lower c else "unknown"))
              (QUALITY_MULTIPLIERS (_get_quality_tier q))
              (TIME_BONUS (_get_time_tier ts)) tc))))).
Proof.
  unfold calculate_payment, amount_of.
  change (if (t >? 0)%Z
          then let* ms := float_of_int t in Ok (fdiv ms (lit 1000))
          else Ok 0) with (seconds_of t).
  change (if (k >? 0)%Z
          then let* n := float_of_int k in Ok (fmul (fdiv n (lit 1000)) TOKEN_COST_PER_1K)
          else Ok 0) with (token_cost_of k).
  destruct (seconds_of t) as [ts|e]; [|reflexivity].
  destruct (token_cost_of k) as [tc|e]; [|reflexivity].
  cbn [bind].
  destruct (format_int q) as [[]|e]; [|reflexivity].
  destruct (format_int k) as [[]|e]; [|reflexivity].
  cbn [bind amount]. rewrite price_unfold. reflexivity.
Qed.

(** X5. An ASCII complexity tag is read without regard to case: in
    upper case it gives the same outcome. A tag that is none of
    simple, medium, complex after lower-casing (the empty one included)
    is priced as "unknown". *)
Theorem complexity_tag_reading (c : string) (q t k l : Z) :
  (is_ascii c = true ->
   calculate_payment (PyStr.upper c) q t k l = calculate_payment c q t k l)
  /\ (priced_tag c = false ->
      amount_of (calculate_payment c q t k l)
      = amount_of (calculate_payment "unknown" q t k l)).
Proof.
  split.
  - intros _. unfold calculate_payment. rewrite nonempty_upper, lower_upper. reflexivity.
  - intros H. rewrite !amount_of_calculate.
    assert (E : BASE_PRICING (if PyStr.nonempty c then PyStr.lower c else "unknown")
                = BASE_PRICING (if PyStr.nonempty "unknown"
                                then PyStr.lower "unknown" else "unknown")).
    { change (if PyStr.nonempty "unknown" then PyStr.lower "unknown" else "unknown")
        with "unknown".
      rewrite BASE_PRICING_unknown.
      destruct (PyStr.nonempty c); [|exact BASE_PRICING_unknown].
      apply BASE_PRICING_fallback. exact H. }
    rewrite E. reflexivity.
Qed.

Lemma complexity_tag_reading_witness :
  calculate_payment "SIMPLE" 90 20000 0 0 = calculate_payment "simple" 90 20000 0 0
  /\ amount_of (calculate_payment "trivial" 90 20000 0 0)
     = amount_of (calculate_payment "unknown" 90 20000 0 0).
Proof.
  split.
  - exact (proj1 (complexity_tag_reading "simple" 90 20000 0 0) eq_refl).
  - exact (proj2 (complexity_tag_reading "trivial" 90 20000 0 0) eq_refl).
Defined.

End PaymentMore.

(* ================================================================= *)
(** * More about the fenced regions and the extracted code *)

Module CodeMore.

Import PyStr PyStrFacts SwarmOrchestrator SpecWords MoreWords ExtractorProofs.
Local Open Scope string_scope.
Local Open Scope nat_scope.

Lemma app_assoc (a b c : string) : (a ++ b) ++ c = a ++ b ++ c.
Proof. induction a as [|x a IH]; simpl; [reflexivity | now rewrite IH]. Qed.

Lemma drop_app (p s : string) : drop (String.length p) (p ++ s) = s.
Proof. induction p as [|a p IH]; simpl; [reflexivity | exact IH]. Qed.

Lemma starts_with_refl_app (p s : string) : starts_with p (p ++ s) = true.
Proof. apply starts_with_spec. now exists s. Qed.

Lemma starts_with_app (p x y : string) :
  starts_with p x = true -> starts_with p (x ++ y) = true.
Proof.
  intros H. apply starts_with_spec in H as [post ->].
  rewrite app_assoc. apply starts_with_refl_app.
Qed.

(** A pattern that begins with a backtick is found right after a
    prefix without backticks. *)
Lemma split_at_after_plain (p pre rest : string) :
  no_backtick pre = true ->
  split_at (String backtick p) (pre ++ String backtick p ++ rest) = Some (pre, rest).
Proof.
  induction pre as [|a pre IH]; intros H.
  - change (EmptyString ++ String backtick p ++ rest) with (String backtick p ++ rest).
    destruct (String backtick p ++ rest) eqn:E; [discriminate|].
    unfold split_at; fold split_at. rewrite <- E.
    rewrite starts_with_refl_app, drop_app. reflexivity.
  - cbn [no_backtick all_chars] in H. apply andb_true_iff in H as [Ha Hpre].
    change ((String a pre) ++ String backtick p ++ rest)
      with (String a (pre ++ String backtick p ++ rest)).
    unfold split_at; fold split_at.
    assert (S : starts_with (String backtick p)
                  (String a (pre ++ String backtick p ++ rest)) = false).
    { cbn [starts_with]. destruct (Ascii.eqb_spec backtick a) as [<-|ne]; [|reflexivity].
      rewrite Ascii.eqb_refl in Ha. discriminate. }
    rewrite S. fold (no_backtick pre) in Hpre. rewrite (IH Hpre). reflexivity.
Qed.

Lemma split_at_plain (p s : string) :
  no_backtick s = true -> split_at (String backtick p) s = None.
Proof.
  induction s as [|a s IH]; intros H.
  - reflexivity.
  - cbn [no_backtick all_chars] in H. apply andb_true_iff in H as [Ha Hs].
    unfold split_at; fold split_at.
    assert (S : starts_with (String backtick p) (String a s) = false).
    { cbn [starts_with]. destruct (Ascii.eqb_spec backtick a) as [<-|ne]; [|reflexivity].
      rewrite Ascii.eqb_refl in Ha. discriminate. }
    rewrite S. fold (no_backtick s) in Hs. rewrite (IH Hs). reflexivity.
Qed.

(** One step of the scan, whatever the fuel. *)
Lemma code_blocks_step (s pre rest body rest' : string) :
  split_at fence_open s = Some (pre, rest) ->
  split_at fence_close rest = Some (body, rest') ->
  code_blocks s = body :: code_blocks rest'.
Proof.
  intros S1 S2. unfold code_blocks.
  pose proof S1 as L1. apply split_at_length in L1.
  pose proof S2 as L2. apply split_at_length in L2.
  change (String.length fence_open) with 10 in L1.
  change (String.length fence_close) with 3 in L2.
  destruct (String.length s) as [|n] eqn:E; [lia|].
  cbn [findall_blocks]. rewrite S1, S2. f_equal.
  apply findall_blocks_fuel; lia.
Qed.

Lemma code_blocks_none (s : string) :
  split_at fence_open s = None -> code_blocks s = [].
Proof.
  intros S. unfold code_blocks. destruct (String.length s); [reflexivity|].
  cbn [findall_blocks]. now rewrite S.
Qed.

Lemma code_blocks_unclosed (s pre rest : string) :
  split_at fence_open s = Some (pre, rest) ->
  split_at fence_close rest = None ->
  code_blocks s = [].
Proof.
  intros S1 S2. unfold code_blocks. destruct (String.length s); [reflexivity|].
  cbn [findall_blocks]. now rewrite S1, S2.
Qed.


Lemma fence_open_backtick : fence_open = String backtick ("``python" ++ nl).
Proof. reflexivity. Qed.

Lemma fence_close_backtick : fence_close = String backtick "``".
Proof. reflexivity. Qed.

(** X6. Round trip of the fences: a text written as prose and fenced
    python regions, none of which holds a backtick, gives back exactly
    the bodies of its regions, in order. *)
Theorem code_blocks_document (parts : list (string * string)) (tail : string) :
  forallb (fun part => no_backtick (fst part) && no_backtick (snd part)) parts = true ->
  no_backtick tail = true ->
  code_blocks (document parts tail) = map snd parts.
Proof.
  intros Hparts Htail. induction parts as [|[prose body] parts IH].
  - cbn [document map]. apply code_blocks_none.
    rewrite fence_open_backtick. apply split_at_plain. exact Htail.
  - cbn [forallb fst snd] in Hparts. apply andb_true_iff in Hparts as [Hp Hrest].
    apply andb_true_iff in Hp as [Hprose Hbody].
    cbn [document map snd]. rewrite <- (IH Hrest).
    apply code_blocks_step with prose (body ++ fence_close ++ document parts tail).
    + unfold fenced. rewrite !app_assoc. rewrite fence_open_backtick at 1 2.
      apply split_at_after_plain. exact Hprose.
    + rewrite fence_close_backtick. apply split_at_after_plain. exact Hbody.
Qed.

Lemma code_blocks_document_witness :
  code_blocks (document [("First the tests: ", "import pytest" ++ nl);
                         (" and now the code: ", "def f(): return 1" ++ nl)]
                        " Done.")
  = ["import pytest" ++ nl; "def f(): return 1" ++ nl].
Proof.
  exact (code_blocks_document
           [("First the tests: ", "import pytest" ++ nl);
            (" and now the code: ", "def f(): return 1" ++ nl)]
           " Done." eq_refl eq_refl).
Defined.

Lemma split_at_first (p s pre post : string) :
  starts_with p EmptyString = false ->
  split_at p s = Some (pre, post) -> contains p pre = false.
Proof.
  intros Hp. revert pre post. induction s as [|a s IH]; intros pre post H.
  - cbn [split_at] in H. rewrite Hp in H. discriminate.
  - unfold split_at in H; fold split_at in H.
    destruct (starts_with p (String a s)) eqn:E.
    + injection H as <- _. cbn [contains]. now rewrite Hp.
    + destruct (split_at p s) as [[pre' post']|] eqn:S; [|discriminate].
      injection H as <- <-.
      pose proof (IH _ _ eq_refl) as C.
      unfold contains; fold contains. rewrite C.
      destruct (starts_with p (String a pre')) eqn:E'; [|reflexivity].
      apply split_at_spec in S. subst s.
      apply (starts_with_app _ _ (p ++ post')) in E'.
      cbn [append] in E'. congruence.
Qed.

Lemma occurs_extend (p s pre post : string) : occurs p s -> occurs p (pre ++ s ++ post).
Proof.
  intros (a & b & ->). exists (pre ++ a), (b ++ post).
  now rewrite !app_assoc.
Qed.

Lemma code_blocks_sound_upto (n : nat) : forall s block,
  String.length s <= n ->
  In block (code_blocks s) ->
  contains fence_close block = false
  /\ occurs (fence_open ++ block ++ fence_close) s.
Proof.
  induction n as [|n IH]; intros s block Hn Hin.
  - destruct s; [|simpl in Hn; lia]. contradiction.
  - destruct (split_at fence_open s) as [[pre rest]|] eqn:S1.
    2:{ rewrite (code_blocks_none _ S1) in Hin. contradiction. }
    destruct (split_at fence_close rest) as [[body rest']|] eqn:S2.
    2:{ rewrite (code_blocks_unclosed _ _ _ S1 S2) in Hin. contradiction. }
    rewrite (code_blocks_step _ _ _ _ _ S1 S2) in Hin.
    pose proof S1 as L1. apply split_at_length in L1.
    pose proof S2 as L2. apply split_at_length in L2.
    change (String.length fence_open) with 10 in L1.
    change (String.length fence_close) with 3 in L2.
    pose proof (split_at_first fence_close rest body rest' eq_refl S2) as F.
    apply split_at_spec in S1. apply split_at_spec in S2.
    destruct Hin as [<-|Hin].
    + split; [exact F|]. exists pre, rest'. rewrite S1, S2.
      now rewrite !app_assoc.
    + destruct (IH rest' block ltac:(lia) Hin) as [A B]. split; [exact A|].
      rewrite S1, S2.
      replace (pre ++ fence_open ++ body ++ fence_close ++ rest')
        with ((pre ++ fence_open ++ body ++ fence_close) ++ rest' ++ EmptyString).
      * apply occurs_extend. exact B.
      * rewrite !app_assoc. do 4 f_equal.
        clear. induction rest' as [|a r IHr]; simpl; [reflexivity | now rewrite IHr].
Qed.

(** X7. Every region that the scan returns stands in the text between
    an opening python fence and a closing fence, and holds no closing
    fence itself. *)
Theorem code_blocks_sound (s block : string) :
  In block (code_blocks s) ->
  contains fence_close block = false
  /\ occurs (fence_open ++ block ++ fence_close) s.
Proof. apply (code_blocks_sound_upto (String.length s)). apply Nat.le_refl. Qed.

Lemma code_blocks_sound_witness :
  occurs (fence_open ++ "x = 1" ++ fence_close) ("see " ++ fenced "x = 1" ++ " and so on").
Proof.
  exact (proj2 (code_blocks_sound ("see " ++ fenced "x = 1" ++ " and so on") "x = 1"
                  (or_introl eq_refl))).
Defined.


Lemma lstrip_head_solid (s : string) : head_solid (lstrip s) = true.
Proof.
  induction s as [|a s IH]; [reflexivity|].
  cbn [lstrip]. destruct (is_space a) eqn:E; [exact IH|].
  cbn [head_solid]. now rewrite E.
Qed.

Lemma lstrip_of_head_solid (s : string) : head_solid s = true -> lstrip s = s.
Proof.
  destruct s as [|a s]; [reflexivity|]. cbn [head_solid lstrip].
  destruct (is_space a); [discriminate | reflexivity].
Qed.

Lemma rstrip_head_solid (s : string) : head_solid s = true -> head_solid (rstrip s) = true.
Proof.
  destruct s as [|a s]; [reflexivity|]. cbn [head_solid rstrip]. intros H.
  destruct (rstrip s); [|exact H].
  destruct (is_space a) eqn:E; cbn [head_solid]; [reflexivity | now rewrite E].
Qed.

Lemma rstrip_idempotent (s : string) : rstrip (rstrip s) = rstrip s.
Proof.
  induction s as [|a s IH]; [reflexivity|].
  cbn [rstrip]. destruct (rstrip s) as [|b r] eqn:R.
  - destruct (is_space a) eqn:E; [reflexivity|]. cbn [rstrip]. now rewrite E.
  - change (rstrip (String a (String b r)))
      with (match rstrip (String b r) with
            | EmptyString => if is_space a then EmptyString else String a EmptyString
            | String c r0 => String a (String c r0)
            end).
    rewrite IH. reflexivity.
Qed.

(** [strip] leaves a stripped text alone. *)
Lemma strip_idempotent (s : string) : strip (strip s) = strip s.
Proof.
  unfold strip.
  rewrite (lstrip_of_head_solid (rstrip (lstrip s))).
  - apply rstrip_idempotent.
  - apply rstrip_head_solid, lstrip_head_solid.
Qed.

Lemma first_main_member (test : string -> bool) (blocks : list string) (c : string) :
  first_main test blocks = Some c -> exists x, In x blocks /\ c = strip x.
Proof.
  induction blocks as [|b bs IH]; cbn [first_main]; [discriminate|].
  destruct (test b).
  - intros H. injection H as <-. exists b. split; [now left | reflexivity].
  - intros H. destruct (IH H) as (x & Hx & E). exists x. split; [now right | exact E].
Qed.

Lemma select_block_member (test : string -> bool) (blocks : list string) (c : string) :
  select_block test blocks = Some c -> exists x, In x blocks /\ c = strip x.
Proof.
  unfold select_block. destruct blocks as [|first rest]; [discriminate|].
  destruct (first_main test (first :: rest)) as [m|] eqn:F.
  - intros H. injection H as <-. exact (first_main_member _ _ _ F).
  - intros H. injection H as <-. exists first. split; [now left | reflexivity].
Qed.

(** X8. The code deliverable, when there is one, is never made up: it
    is the stripped body of a fenced python region of the terminal
    text or, failing that, of the builder's text, and it has no white
    space at either end. *)
Theorem extract_code_sound (terminal : string) (fallback : option string) (code : string) :
  extract_code terminal fallback = Some code ->
  strip code = code
  /\ exists block,
       code = strip block
       /\ (In block (code_blocks terminal)
           \/ exists builder, fallback = Some builder /\ In block (code_blocks builder)).
Proof.
  rewrite extract_code_design_eq. unfold extract_code_design. intros H.
  assert (M : exists block,
             code = strip block
             /\ (In block (code_blocks terminal)
                 \/ exists builder, fallback = Some builder
                                    /\ In block (code_blocks builder))).
  { destruct (has_code (select_block is_main_terminal (code_blocks terminal))).
    - destruct (select_block_member _ _ _ H) as (x & Hx & E). exists x. auto.
    - destruct fallback as [b|].
      + destruct (select_block is_main_builder (code_blocks b)) as [c|] eqn:S.
        * injection H as <-. destruct (select_block_member _ _ _ S) as (x & Hx & E).
          exists x. split; [exact E|]. right. exists b. auto.
        * destruct (select_block_member _ _ _ H) as (x & Hx & E). exists x. auto.
      + destruct (select_block_member _ _ _ H) as (x & Hx & E). exists x. auto. }
  split; [|exact M].
  destruct M as (block & -> & _). apply strip_idempotent.
Qed.

Lemma extract_code_sound_witness :
  strip "def f(): return 1" = "def f(): return 1".
Proof.
  exact (proj1 (extract_code_sound
                  ("DECISION: COMPLETE " ++ fenced ("def f(): return 1" ++ nl))
                  None "def f(): return 1" eq_refl)).
Defined.

End CodeMore.

(* ================================================================= *)
(** * The extracted code, against the regions of the texts *)

Module CodeProofs.

Import PyStr PyStrFacts SwarmOrchestrator SpecWords MoreWords ExtractorProofs CodeMore.
Local Open Scope string_scope.
Local Open Scope nat_scope.

(** ** First occurrences *)

Lemma app_same_head (p x y : string) : p ++ x = p ++ y -> x = y.
Proof.
  induction p as [|a p IH]; simpl; intros H; [exact H|].
  injection H as H. exact (IH H).
Qed.

(** [split_at] cuts at the first occurrence, and only there. *)
Lemma split_at_first_occurrence (p s : string) : forall pre post,
  split_at p s = Some (pre, post) -> first_occurrence p s pre post.
Proof.
  intros pre post H. split; [exact (@split_at_spec p s pre post H)|].
  revert pre post H. induction s as [|a s IH]; intros pre post H pre' post' E.
  - cbn [split_at] in H. destruct (starts_with p EmptyString); [|discriminate].
    injection H as <- _. simpl. lia.
  - unfold split_at in H; fold split_at in H.
    destruct (starts_with p (String a s)) eqn:S.
    + injection H as <- _. simpl. lia.
    + destruct (split_at p s) as [[pre1 post1]|] eqn:S1; [|discriminate].
      injection H as <- <-.
      destruct pre' as [|b pre'].
      * exfalso. simpl in E.
        assert (T : starts_with p (String a s) = true)
          by (apply starts_with_spec; now exists post').
        congruence.
      * simpl in E. injection E as _ E.
        specialize (IH pre1 post1 eq_refl pre' post' E). simpl. lia.
Qed.

Lemma first_occurrence_split_at (p s pre post : string) :
  first_occurrence p s pre post -> split_at p s = Some (pre, post).
Proof.
  intros [E M]. destruct (split_at p s) as [[pre1 post1]|] eqn:S.
  - apply split_at_first_occurrence in S as [E1 M1].
    pose proof (M _ _ E1). pose proof (M1 _ _ E).
    rewrite E in E1.
    destruct (@app_same_length pre pre1 (p ++ post) (p ++ post1) E1) as [-> Hp]; [lia|].
    apply app_same_head in Hp. now subst.
  - exfalso. apply split_at_none in S. apply contains_false_iff in S.
    apply S. now exists pre, post.
Qed.

Lemma not_occurs_split_at (p s : string) : ~ occurs p s <-> split_at p s = None.
Proof. rewrite split_at_none. symmetry. apply contains_false_iff. Qed.

(** ** The regions are those that the scan returns *)

Lemma regions_of_code_blocks_upto (n : nat) : forall s,
  String.length s <= n -> fenced_regions s (code_blocks s).
Proof.
  induction n as [|n IH]; intros s Hn.
  - destruct s; [|simpl in Hn; lia].
    apply regions_no_opener. apply not_occurs_split_at. reflexivity.
  - destruct (split_at fence_open s) as [[pre rest]|] eqn:S1.
    + destruct (split_at fence_close rest) as [[body rest']|] eqn:S2.
      * rewrite (code_blocks_step s pre rest body rest' S1 S2).
        apply regions_next with pre rest rest'.
        -- now apply split_at_first_occurrence.
        -- now apply split_at_first_occurrence.
        -- apply IH.
           pose proof (@split_at_length _ _ _ _ S1) as L1.
           pose proof (@split_at_length _ _ _ _ S2) as L2.
           change (String.length fence_open) with 10 in L1.
           change (String.length fence_close) with 3 in L2. lia.
      * rewrite (code_blocks_unclosed s pre rest S1 S2).
        apply regions_unclosed with pre rest.
        -- now apply split_at_first_occurrence.
        -- now apply not_occurs_split_at.
    + rewrite (code_blocks_none s S1).
      apply regions_no_opener. now apply not_occurs_split_at.
Qed.

Lemma regions_of_code_blocks (s : string) : fenced_regions s (code_blocks s).
Proof. apply (regions_of_code_blocks_upto (String.length s)). apply Nat.le_refl. Qed.

Lemma regions_functional (s : string) (regions : list string) :
  fenced_regions s regions -> code_blocks s = regions.
Proof.
  induction 1 as [s H | s pre rest H1 H2 | s pre rest body rest' regions H1 H2 H3 IH].
  - apply code_blocks_none. now apply not_occurs_split_at.
  - apply code_blocks_unclosed with pre rest.
    + now apply first_occurrence_split_at.
    + now apply not_occurs_split_at.
  - rewrite (code_blocks_step s pre rest body rest'), IH; [reflexivity | |];
      now apply first_occurrence_split_at.
Qed.

(** ** The preferred region is the one that the loop selects *)

Lemma implementation_region_test (region : string) :
  implementation_region region <-> is_main_terminal region = true.
Proof.
  unfold implementation_region, is_main_terminal, has_definition.
  rewrite !andb_true_iff, !negb_true_iff, orb_true_iff.
  rewrite <- !contains_occurs.
  destruct (contains "def test_" region); destruct (contains "import pytest" region);
    intuition congruence.
Qed.

Lemma not_implementation_region_test (region : string) :
  ~ implementation_region region <-> is_main_terminal region = false.
Proof.
  rewrite implementation_region_test. destruct (is_main_terminal region);
    split; congruence.
Qed.

Lemma first_main_found (test : string -> bool) (before : list string) (region : string)
    (after : list string) :
  (forall r, In r before -> test r = false) -> test region = true ->
  first_main test (before ++ region :: after) = Some (strip region).
Proof.
  intros Hb Hr. induction before as [|b before IH]; cbn [app first_main].
  - now rewrite Hr.
  - rewrite (Hb b) by now left. apply IH. intros r Hin. apply Hb. now right.
Qed.

Lemma first_main_none (test : string -> bool) (blocks : list string) :
  (forall r, In r blocks -> test r = false) -> first_main test blocks = None.
Proof.
  intros H. induction blocks as [|b blocks IH]; cbn [first_main]; [reflexivity|].
  rewrite (H b) by now left. apply IH. intros r Hin. apply H. now right.
Qed.

Lemma select_block_found (test : string -> bool) (blocks : list string) (c : string) :
  first_main test blocks = Some c -> select_block test blocks = Some c.
Proof.
  unfold select_block. destruct blocks as [|first rest]; [discriminate|].
  now intros ->.
Qed.

Lemma preferred_region_selected (regions : list string) (region : string) :
  preferred_region regions region ->
  select_block is_main_terminal regions = Some (strip region).
Proof.
  intros [before r after Hb Hr | r rest Hall].
  - apply select_block_found, first_main_found.
    + intros x Hx. apply not_implementation_region_test. now apply Hb.
    + now apply implementation_region_test.
  - unfold select_block. rewrite first_main_none; [reflexivity|].
    intros x Hx. apply not_implementation_region_test. now apply Hall.
Qed.

Lemma preferred_region_exists (regions : list string) :
  regions <> [] -> exists region, preferred_region regions region.
Proof.
  assert (G : forall l : list string,
            (forall r, In r l -> ~ implementation_region r)
            \/ exists before region after,
                 l = (before ++ region :: after)%list
                 /\ (forall r, In r before -> ~ implementation_region r)
                 /\ implementation_region region).
  { induction l as [|a l IH].
    - left. intros r [].
    - destruct (is_main_terminal a) eqn:T.
      + right. exists [], a, l. split; [reflexivity|]. split; [intros r []|].
        now apply implementation_region_test.
      + apply not_implementation_region_test in T.
        destruct IH as [Hall | (before & region & after & -> & Hb & Hr)].
        * left. intros r [<-|Hin]; [exact T | now apply Hall].
        * right. exists (a :: before), region, after. split; [reflexivity|].
          split; [|exact Hr]. intros r [<-|Hin]; [exact T | now apply Hb]. }
  intros Hne. destruct regions as [|first rest]; [congruence|].
  destruct (G (first :: rest)) as [Hall | (before & region & after & E & Hb & Hr)].
  - exists first. now apply preferred_first.
  - exists region. rewrite E. now apply preferred_implementation.
Qed.

Lemma implementation_region_solid (region : string) :
  implementation_region region -> strip region <> EmptyString.
Proof.
  intros H. apply implementation_region_test in H.
  pose proof (@strip_solid _ (@has_definition_solid _ (@is_main_terminal_definition _ H))) as N.
  intros E. rewrite E in N. discriminate.
Qed.

(** The two scans judge alike the regions on which they agree. *)
Lemma scans_agree_test (region : string) :
  scans_agree_on region -> is_main_builder region = is_main_terminal region.
Proof.
  unfold scans_agree_on, is_main_builder, is_main_terminal, has_definition.
  rewrite <- !contains_occurs.
  destruct (contains "def " region); destruct (contains "class " region);
    destruct (contains "def test_" region);
    destruct (contains "import pytest" region);
    destruct (contains "import unittest" region);
    cbn [negb andb orb]; intros H; try reflexivity; exfalso;
    match type of H with
    | ?X -> ?Y -> _ =>
        assert (A : X) by (first [now left | now right]);
        assert (B : Y) by discriminate
    end;
    destruct (H A B) as [P U]; solve [discriminate (P eq_refl) | discriminate (U eq_refl)].
Qed.

Lemma scans_agree_of_test (region : string) :
  is_main_builder region = is_main_terminal region -> scans_agree_on region.
Proof.
  unfold scans_agree_on, is_main_builder, is_main_terminal, has_definition.
  rewrite <- !contains_occurs.
  destruct (contains "def " region); destruct (contains "class " region);
    destruct (contains "def test_" region);
    destruct (contains "import pytest" region);
    destruct (contains "import unittest" region);
    cbn [negb andb orb]; intros H A B; try discriminate H;
    try (split; intros E; (exact E || reflexivity || discriminate E));
    try (exfalso; apply B; reflexivity);
    destruct A as [A|A]; discriminate A.
Qed.

(** The scans agree on all the regions that they judge alike. *)
Lemma scans_agree_until_all (regions : list string) :
  forallb (fun r => Bool.eqb (is_main_builder r) (is_main_terminal r)) regions = true ->
  scans_agree_until regions.
Proof.
  intros H before region after E _. apply scans_agree_of_test.
  rewrite forallb_forall in H. apply Bool.eqb_prop. apply H.
  rewrite E. apply in_or_app. right. now left.
Qed.

(** The scan of the builder's text selects the preferred region when
    it judges as the first scan the regions that the search looks
    at. *)
Lemma preferred_region_selected_builder (regions : list string) (region : string) :
  scans_agree_until regions ->
  preferred_region regions region ->
  select_block is_main_builder regions = Some (strip region).
Proof.
  intros Hagree Hp. revert Hagree.
  destruct Hp as [before r after Hb Hr | r rest Hall]; intros Hagree.
  - apply select_block_found, first_main_found.
    + intros x Hx. apply in_split in Hx as (b1 & b2 & ->).
      rewrite scans_agree_test.
      * apply not_implementation_region_test. apply Hb.
        apply in_or_app. right. now left.
      * apply (Hagree b1 x (b2 ++ r :: after)%list).
        -- rewrite <- List.app_assoc. reflexivity.
        -- intros y Hy. apply Hb. apply in_or_app. now left.
    + rewrite scans_agree_test; [now apply implementation_region_test|].
      now apply (Hagree before r after).
  - unfold select_block. rewrite first_main_none; [reflexivity|].
    intros x Hx. apply in_split in Hx as (b1 & b2 & E).
    rewrite scans_agree_test.
    + apply not_implementation_region_test. apply Hall. rewrite E.
      apply in_or_app. right. now left.
    + apply (Hagree b1 x b2 E). intros y Hy. apply Hall. rewrite E.
      apply in_or_app. now left.
Qed.

(** ** The claim *)

(** C6, as the code has it. The regions of a text are the bodies
    between an opening python fence and the next closing fence, from
    left to right; the preferred region is the first one that holds a
    def or a class and no mark of a test module, else the first region.
    If the stripped preferred region of the terminal text is not empty,
    it is the code. Otherwise the terminal text leaves nothing, or the
    empty text when its preferred region is blank, and this is the
    result when the builder has no message or its text has no region;
    when the builder's text has regions, the code is its stripped
    preferred region, provided that the scan of the builder's text
    judges the regions that the search looks at as the scan of the
    terminal text does. In
    particular, with two regions in the terminal text, the first a test
    module and the second an implementation, the second one is
    returned. *)
Theorem extract_code_prefers_implementation (terminal : string) (fallback : option string) :
  exists regions,
    fenced_regions terminal regions
    /\ (forall l, fenced_regions terminal l -> l = regions)
    /\ (regions <> [] -> exists region, preferred_region regions region)
    /\ (forall region,
          preferred_region regions region -> strip region <> EmptyString ->
          extract_code terminal fallback = Some (strip region))
    /\ (forall left_over,
          no_code_in regions left_over ->
          (fallback = None -> extract_code terminal fallback = left_over)
          /\ forall builder builder_regions,
               fallback = Some builder ->
               fenced_regions builder builder_regions ->
               (builder_regions = [] -> extract_code terminal fallback = left_over)
               /\ (scans_agree_until builder_regions ->
                   forall region,
                     preferred_region builder_regions region ->
                     extract_code terminal fallback = Some (strip region)))
    /\ (forall b1 b2,
          regions = [b1; b2] ->
          occurs "def test_" b1 \/ occurs "import pytest" b1 ->
          implementation_region b2 ->
          extract_code terminal fallback = Some (strip b2)).
Proof.
  exists (code_blocks terminal).
  assert (Found : forall region,
            preferred_region (code_blocks terminal) region ->
            strip region <> EmptyString ->
            extract_code terminal fallback = Some (strip region)).
  { intros region Hp Hne. rewrite extract_code_design_eq. unfold extract_code_design.
    rewrite (preferred_region_selected _ _ Hp). cbn [has_code].
    destruct (strip region); [congruence | reflexivity]. }
  split; [apply regions_of_code_blocks|].
  split; [intros l Hl; symmetry; now apply regions_functional|].
  split; [apply preferred_region_exists|].
  split; [exact Found|].
  split.
  - intros left_over Hno.
    assert (C : select_block is_main_terminal (code_blocks terminal) = left_over
                /\ has_code left_over = false).
    { destruct Hno as [|regions region Hp Hb].
      - split; reflexivity.
      - rewrite (preferred_region_selected _ _ Hp), Hb. split; reflexivity. }
    destruct C as [C1 C2].
    rewrite extract_code_design_eq. unfold extract_code_design. rewrite C1, C2.
    split; [now intros ->|].
    intros builder builder_regions -> Hr. apply regions_functional in Hr. rewrite Hr.
    split; [now intros ->|].
    intros Hagree region Hp.
    rewrite (preferred_region_selected_builder _ _ Hagree Hp). reflexivity.
  - intros b1 b2 E Htest Himpl. apply Found; [|now apply implementation_region_solid].
    rewrite E. apply (@preferred_implementation [b1] b2 []); [|exact Himpl].
    intros r [<-|[]]. intros (_ & N1 & N2). destruct Htest; contradiction.
Qed.

Lemma extract_code_prefers_implementation_witness :
  extract_code
    ("Tests first: " ++ fenced ("import pytest" ++ nl ++ "def test_add(): assert add(1, 2) == 3" ++ nl)
     ++ " then the code: " ++ fenced ("def add(a, b):" ++ nl ++ "    return a + b" ++ nl))
    (Some ("Here you go: " ++ fenced ("def add(a, b): return a + b" ++ nl)))
  = Some ("def add(a, b):" ++ nl ++ "    return a + b")
  /\ extract_code
       "DECISION: COMPLETE"
       (Some ("The code: " ++ fenced ("def add(a, b): return a + b" ++ nl)
              ++ " and its tests: "
              ++ fenced ("import pytest" ++ nl ++ "def test_add(): assert add(1, 2) == 3" ++ nl)))
     = Some "def add(a, b): return a + b".
Proof.
  split.
  - destruct (extract_code_prefers_implementation
                ("Tests first: "
                 ++ fenced ("import pytest" ++ nl ++ "def test_add(): assert add(1, 2) == 3" ++ nl)
                 ++ " then the code: "
                 ++ fenced ("def add(a, b):" ++ nl ++ "    return a + b" ++ nl))
                (Some ("Here you go: " ++ fenced ("def add(a, b): return a + b" ++ nl))))
      as (regions & _ & Unique & _ & _ & _ & Two).
    apply (Two ("import pytest" ++ nl ++ "def test_add(): assert add(1, 2) == 3" ++ nl)
               ("def add(a, b):" ++ nl ++ "    return a + b" ++ nl)).
    + symmetry. apply Unique. apply regions_of_code_blocks.
    + left. apply contains_occurs. reflexivity.
    + split; [left; apply contains_occurs; reflexivity|].
      split; apply contains_false_iff; reflexivity.
  - destruct (extract_code_prefers_implementation
                "DECISION: COMPLETE"
                (Some ("The code: " ++ fenced ("def add(a, b): return a + b" ++ nl)
                       ++ " and its tests: "
                       ++ fenced ("import pytest" ++ nl
                                  ++ "def test_add(): assert add(1, 2) == 3" ++ nl))))
      as (regions & _ & Unique & _ & _ & Fallback & _).
    assert (E : [] = regions).
    { apply Unique. exact (regions_of_code_blocks "DECISION: COMPLETE"). }
    destruct E.
    destruct (Fallback None no_region) as [_ Builder].
    destruct (Builder
                ("The code: " ++ fenced ("def add(a, b): return a + b" ++ nl)
                 ++ " and its tests: "
                 ++ fenced ("import pytest" ++ nl
                            ++ "def test_add(): assert add(1, 2) == 3" ++ nl))
                ["def add(a, b): return a + b" ++ nl;
                 "import pytest" ++ nl ++ "def test_add(): assert add(1, 2) == 3" ++ nl]
                eq_refl) as [_ Preferred].
    + exact (regions_of_code_blocks
               ("The code: " ++ fenced ("def add(a, b): return a + b" ++ nl)
                ++ " and its tests: "
                ++ fenced ("import pytest" ++ nl
                           ++ "def test_add(): assert add(1, 2) == 3" ++ nl))).
    + apply (Preferred
               (scans_agree_until_all
                  ["def add(a, b): return a + b" ++ nl;
                   "import pytest" ++ nl ++ "def test_add(): assert add(1, 2) == 3" ++ nl]
                  eq_refl)
               ("def add(a, b): return a + b" ++ nl)).
      apply (@preferred_implementation []
               ("def add(a, b): return a + b" ++ nl)
               ["import pytest" ++ nl ++ "def test_add(): assert add(1, 2) == 3" ++ nl]).
      * intros r [].
      * split; [left; apply contains_occurs; reflexivity|].
        split; apply contains_false_iff; reflexivity.
Defined.

(** C6, as worded, fails: the terminal text has a fenced region, a
    blank one, which the claim makes the code; yet the code goes on to
    the builder's text. *)
Lemma blank_region_falls_back :
  let terminal := "DECISION: COMPLETE " ++ fenced ("   " ++ nl) in
  let builder := fenced ("def add(a, b): return a + b" ++ nl) in
  fenced_regions terminal ["   " ++ nl]
  /\ preferred_region ["   " ++ nl] ("   " ++ nl)
  /\ extract_code_spec terminal builder = Some (strip ("   " ++ nl))
  /\ extract_code terminal (Some builder) = Some "def add(a, b): return a + b"
  /\ extract_code terminal (Some builder) <> extract_code_spec terminal builder.
Proof.
  cbv zeta. split; [|split; [|split; [|split]]].
  - exact (regions_of_code_blocks ("DECISION: COMPLETE " ++ fenced ("   " ++ nl))).
  - apply preferred_first. intros r [<-|[]].
    apply not_implementation_region_test. reflexivity.
  - reflexivity.
  - reflexivity.
  - vm_compute. discriminate.
Qed.

End CodeProofs.

(* ================================================================= *)
(** * More about the orchestrator *)

Module OrchestratorMore.

Import PyStr PyStrFacts SwarmOrchestrator SwarmOrchestratorMore SpecWords MoreWords.
Local Open Scope string_scope.
Local Open Scope nat_scope.

(** ** Dicts *)

Lemma get_dict_set_same {V : Type} (d : Dict V) (k : string) (v : V) :
  get (dict_set d k v) k = Some v.
Proof.
  induction d as [|[k' v'] d IH]; cbn [dict_set get].
  - now rewrite String.eqb_refl.
  - destruct (String.eqb k' k) eqn:E; cbn [get]; rewrite E; [reflexivity | exact IH].
Qed.

Lemma get_dict_set_other {V : Type} (d : Dict V) (k k0 : string) (v : V) :
  String.eqb k k0 = false -> get (dict_set d k v) k0 = get d k0.
Proof.
  intros Hk. induction d as [|[k' v'] d IH]; cbn [dict_set get].
  - now rewrite Hk.
  - destruct (String.eqb k' k) eqn:E; cbn [get].
    + apply String.eqb_eq in E. subst k'. now rewrite Hk.
    + now rewrite IH.
Qed.

Lemma dict_set_keys {V : Type} (d : Dict V) (k : string) (v : V) (k0 : string) :
  In k0 (map fst (dict_set d k v)) <-> k0 = k \/ In k0 (map fst d).
Proof.
  induction d as [|[k' v'] d IH]; cbn [dict_set map fst In].
  - intuition auto.
  - destruct (String.eqb k' k) eqn:E; cbn [map fst In].
    + apply String.eqb_eq in E. subst k'. intuition auto.
    + rewrite IH. intuition auto.
Qed.

Lemma dict_set_NoDup {V : Type} (d : Dict V) (k : string) (v : V) :
  NoDup (map fst d) -> NoDup (map fst (dict_set d k v)).
Proof.
  induction d as [|[k' v'] d IH]; cbn [dict_set map fst]; intros H.
  - constructor; [intros [] | constructor].
  - inversion H as [|x l Hx Hl]; subst.
    destruct (String.eqb k' k) eqn:E; cbn [map fst].
    + constructor; assumption.
    + constructor; [|now apply IH].
      rewrite dict_set_keys. intros [->|Hin]; [|contradiction].
      rewrite String.eqb_refl in E. discriminate.
Qed.

Lemma dict_set_values {V : Type} (P : V -> Prop) (d : Dict V) (k : string) (v : V) :
  P v -> (forall e, In e d -> P (snd e)) ->
  forall e, In e (dict_set d k v) -> P (snd e).
Proof.
  intros Hv. induction d as [|[k' v'] d IH]; cbn [dict_set]; intros Hd e He.
  - destruct He as [<-|[]]. exact Hv.
  - destruct (String.eqb k' k).
    + destruct He as [<-|He]; [exact Hv | apply Hd; now right].
    + destruct He as [<-|He]; [apply (Hd (k', v')); now left|].
      apply IH; [|exact He]. intros e' He'. apply Hd. now right.
Qed.

Lemma take_length (n : nat) (s : string) : String.length (take n s) <= n.
Proof.
  unfold take. revert s. induction n as [|n IH]; intros s.
  - destruct s; simpl; lia.
  - destruct s as [|a s]; simpl; [lia|]. specialize (IH s). lia.
Qed.

(** ** Shared knowledge *)

Lemma record_knowledge_get (acc : Dict Knowledge) (node : HistoryNode) (id : string) :
  get (record_knowledge acc node) id =
  match (if String.eqb (node_id (hn_node node)) id then knowledge_entry node else None) with
  | Some k => Some k
  | None => get acc id
  end.
Proof.
  unfold record_knowledge, knowledge_entry.
  destruct (hn_context node) as [context|].
  - destruct (String.eqb (node_id (hn_node node)) id) eqn:E.
    + apply String.eqb_eq in E. subst id. apply get_dict_set_same.
    + now apply get_dict_set_other.
  - now destruct (String.eqb (node_id (hn_node node)) id).
Qed.

Lemma fold_knowledge_get (nodes : list HistoryNode) : forall acc id,
  get (fold_left record_knowledge nodes acc) id =
  match latest id nodes with
  | Some k => Some k
  | None => get acc id
  end.
Proof.
  induction nodes as [|node rest IH]; intros acc id; cbn [fold_left latest].
  - reflexivity.
  - rewrite IH. destruct (latest id rest); [reflexivity|].
    apply record_knowledge_get.
Qed.

Lemma fold_knowledge_invariant (nodes : list HistoryNode) : forall acc,
  NoDup (map fst acc) ->
  (forall e, In e acc -> String.length (contribution (snd e)) <= 200) ->
  NoDup (map fst (fold_left record_knowledge nodes acc))
  /\ (forall e, In e (fold_left record_knowledge nodes acc) ->
                String.length (contribution (snd e)) <= 200)
  /\ (forall k, In k (map fst (fold_left record_knowledge nodes acc)) ->
                In k (map fst acc)
                \/ exists node, In node nodes /\ node_id (hn_node node) = k
                                /\ hn_context node <> None).
Proof.
  induction nodes as [|node rest IH]; intros acc Hn Hl; cbn [fold_left].
  - repeat split; auto.
  - assert (Hn' : NoDup (map fst (record_knowledge acc node))).
    { unfold record_knowledge. destruct (hn_context node); [|exact Hn].
      now apply dict_set_NoDup. }
    assert (Hl' : forall e, In e (record_knowledge acc node) ->
                            String.length (contribution (snd e)) <= 200).
    { unfold record_knowledge. destruct (hn_context node) as [context|]; [|exact Hl].
      apply (dict_set_values (fun v => String.length (contribution v) <= 200)).
      - cbn [contribution]. apply take_length.
      - exact Hl. }
    destruct (IH _ Hn' Hl') as (A & B & C). split; [exact A|]. split; [exact B|].
    intros k Hk. destruct (C k Hk) as [Hin|(n & Hn0 & Hid & Hc)].
    + unfold record_knowledge in Hin.
      destruct (hn_context node) as [context|] eqn:Ec; [|now left].
      apply dict_set_keys in Hin as [->|Hin]; [|now left].
      right. exists node. repeat split; [now left | congruence].
    + right. exists n. repeat split; [now right | exact Hid | exact Hc].
Qed.

(** X9. In the shared knowledge, the entry of an agent is the one of
    its last activation that had a context (the latest wins), agents
    without any context have no entry, no key occurs twice, every key
    is the id of a node of the history, and every contribution is at
    most 200 characters long. *)
Theorem shared_knowledge_latest_wins (node_history : list HistoryNode) :
  (forall id, get (_extract_shared_knowledge node_history) id = latest id node_history)
  /\ NoDup (map fst (_extract_shared_knowledge node_history))
  /\ (forall e, In e (_extract_shared_knowledge node_history) ->
                String.length (contribution (snd e)) <= 200
                /\ exists node, In node node_history
                                /\ node_id (hn_node node) = fst e
                                /\ hn_context node <> None).
Proof.
  unfold _extract_shared_knowledge.
  destruct (fold_knowledge_invariant node_history []) as (A & B & C).
  { constructor. }
  { intros e []. }
  split; [|split; [exact A|]].
  - intros id. rewrite fold_knowledge_get. now destruct (latest id node_history).
  - intros e He. split; [now apply B|].
    destruct (C (fst e)) as [[]|H]; [now apply in_map | exact H].
Qed.


(** ** The record of a run *)

(** Every field of the record built by the body of the [try] block. *)
Lemma process_task_body_record (swarm : string -> result SwarmResult)
    (task : string) (rec : RunRecord) :
  process_task_body swarm task = Ok rec ->
  exists r q,
    swarm task = Ok r
    /\ _extract_quality_score r = Ok q
    /\ PaymentCalculator.calculate_task_payment
         (_extract_complexity r) q (execution_time_ms rec) (total_tokens rec)
         (match deliverables rec with
          | Some c => if nonempty c then count_lines c else 0%Z
          | None => 0%Z
          end) = Ok (payment rec)
    /\ task_description rec = task
    /\ agent_sequence rec =
       match node_history_of r with Some h => map node_id h | None => [] end
    /\ handoff_count rec =
       (if 1 <? length (agent_sequence rec)
        then (Z.of_nat (length (agent_sequence rec)) - 1)%Z else 0%Z)
    /\ execution_time_ms rec =
       match execution_time_of r with Some t => t | None => 0%Z end
    /\ final_result rec = final_result_str_of r
    /\ final_message rec = take 300 (final_result rec)
    /\ deliverables rec = extract_code (final_result_str_of r) (builder_text r)
    /\ code rec =
       match mock_get r "code" with
       | Some v => v
       | None => match deliverables rec with Some c => PyStr c | None => PyNone end
       end
    /\ final_decision rec =
       match mock_get r "final_decision" with
       | Some v => v
       | None => PyStr (extract_decision (final_result rec))
       end
    /\ success rec =
       py_and (success_status_of r)
              (PyBool (String.eqb (extract_decision (final_result rec)) "COMPLETE"))
    /\ passthrough rec = mock_extra r.
Proof.
  unfold process_task_body.
  destruct (swarm task) as [r|e]; [|discriminate]. cbn [bind].
  destruct (_extract_quality_score r) as [q|e] eqn:Q; [|discriminate]. cbn [bind].
  match goal with
  | |- bind ?m _ = _ -> _ => destruct m as [pay|e] eqn:P; [|discriminate]
  end.
  cbn [bind]. intros H. injection H as <-.
  exists r, q.
  cbn [task_description final_result final_message deliverables success agent_sequence
       handoff_count execution_time_ms total_tokens code final_decision payment passthrough].
  split; [reflexivity|]. split; [exact Q|]. split; [exact P|].
  repeat split.
Qed.


Lemma extract_decision_values (s : string) :
  extract_decision s = "COMPLETE" \/ extract_decision s = "ESCALATE".
Proof.
  unfold extract_decision.
  destruct (contains "DECISION: ESCALATE" s); [now right|].
  destruct (contains "DECISION: COMPLETE" s); [now left|].
  destruct (contains "ESCALATE" (upper s) && negb (contains "DO NOT ESCALATE" (upper s)));
    [now right | now left].
Qed.

Lemma handoff_count_pred (n : nat) :
  (if 1 <? n then (Z.of_nat n - 1)%Z else 0%Z) = Z.of_nat (Nat.pred n).
Proof. destruct (Nat.ltb_spec 1 n); lia. Qed.

Lemma take_all (n : nat) (s : string) : String.length s <= n -> take n s = s.
Proof.
  unfold take. revert s. induction n as [|n IH]; intros [|a s] H; simpl in *;
    try reflexivity; try lia.
  rewrite IH; [reflexivity | lia].
Qed.

Lemma take_empty (n : nat) (s : string) : take (S n) s = EmptyString -> s = EmptyString.
Proof. destruct s; [reflexivity | discriminate]. Qed.

Lemma final_result_str_empty (r : SwarmResult) :
  final_result_str_of r = EmptyString -> str_of r = EmptyString.
Proof.
  unfold final_result_str_of.
  match goal with
  | |- (if nonempty ?s then _ else _) = _ -> _ => destruct s as [|a s2]
  end; cbn [nonempty].
  - apply take_empty.
  - discriminate.
Qed.

Lemma py_and_bool (a b : bool) : py_and (PyBool a) (PyBool b) = PyBool (a && b).
Proof. now destruct a. Qed.

(** X10. The record of a run is coherent: it names the task it was
    given, its handoff count is the number of steps between the agents
    of its sequence, its final message is its final result cut after
    300 characters, and the final result is empty only when the text
    form of the swarm's result is. When the swarm's result is not a
    mock dict, moreover, the success is a boolean that is true only for
    a COMPLETE decision, the decision is COMPLETE or ESCALATE, the code
    is the extracted deliverable, and no further key is copied. *)
Theorem run_record_coherent (swarm : string -> result SwarmResult)
    (task : string) (rec : RunRecord) :
  process_task swarm task = RunResponse rec ->
  task_description rec = task
  /\ handoff_count rec = Z.of_nat (Nat.pred (length (agent_sequence rec)))
  /\ final_message rec = take 300 (final_result rec)
  /\ String.length (final_message rec) <= 300
  /\ (String.length (final_result rec) <= 300 -> final_message rec = final_result rec)
  /\ (exists r, swarm task = Ok r
                /\ (final_result rec = EmptyString -> str_of r = EmptyString))
  /\ ((forall d s, swarm task <> Ok (ResultDict d s)) ->
      (exists b, success rec = PyBool b)
      /\ (final_decision rec = PyStr "COMPLETE" \/ final_decision rec = PyStr "ESCALATE")
      /\ (success rec = PyBool true -> final_decision rec = PyStr "COMPLETE")
      /\ code rec = match deliverables rec with Some c => PyStr c | None => PyNone end
      /\ passthrough rec = []).
Proof.
  unfold process_task.
  destruct (process_task_body swarm task) as [rec'|e] eqn:B; [|discriminate].
  intros H. injection H as ->.
  destruct (process_task_body_record swarm task rec B)
    as (r & q & Hr & _ & _ & Ht & _ & Hh & _ & Hf & Hm & _ & Hc & Hd & Hs & Hp).
  split; [exact Ht|].
  split; [rewrite Hh; apply handoff_count_pred|].
  split; [exact Hm|].
  split; [rewrite Hm; apply take_length|].
  split; [intros Hl; rewrite Hm; now apply take_all|].
  split.
  { exists r. split; [exact Hr|]. rewrite Hf. apply final_result_str_empty. }
  intros Hobj. destruct r as [o|d s]; [|now destruct (Hobj d s)].
  cbn [mock_get] in Hc, Hd. unfold mock_extra in Hp. cbn [mock_get flat_map app] in Hp.
  assert (Hst : exists a, success_status_of (ResultObj o) = PyBool a).
  { cbn [success_status_of]. destruct (status o); eexists; reflexivity. }
  destruct Hst as [a Ha]. rewrite Ha, py_and_bool in Hs.
  split; [eexists; exact Hs|].
  split.
  { rewrite Hd. destruct (extract_decision_values (final_result rec)) as [-> | ->]; auto. }
  split.
  { rewrite Hs, Hd. intros Hb. injection Hb as Hb.
    apply andb_true_iff in Hb as [_ Hb]. apply String.eqb_eq in Hb. now rewrite Hb. }
  split; [exact Hc | exact Hp].
Qed.

Lemma run_record_coherent_witness :
  exists rec,
    process_task (fun _ => Ok (result_with_agent (Some "success") "escalation_agent"
                                 "DECISION: COMPLETE")) "add two numbers"
    = RunResponse rec
    /\ handoff_count rec = 0%Z
    /\ final_decision rec = PyStr "COMPLETE".
Proof.
  assert (H : exists rec,
    process_task (fun _ => Ok (result_with_agent (Some "success") "escalation_agent"
                                 "DECISION: COMPLETE")) "add two numbers"
    = RunResponse rec
    /\ agent_sequence rec = [] /\ success rec = PyBool true).
  { vm_compute. eexists. split; [reflexivity|]. split; reflexivity. }
  destruct H as (rec & H & Hseq & Hsucc). exists rec. split; [exact H|].
  destruct (run_record_coherent _ _ _ H) as (_ & Hh & _ & _ & _ & _ & Hobj).
  split; [rewrite Hh, Hseq; reflexivity|].
  destruct Hobj as (_ & _ & Hd & _); [discriminate|].
  exact (Hd Hsucc).
Defined.

(** ** The two entry points *)

(** X11. On the same outcome of the swarm, the asynchronous entry
    point agrees with [process_task]: when the latter hands back the
    record of a run, the former does too, with the same task, agent
    sequence, handoff count and execution time, and it reports success
    whenever [process_task] does. When [process_task] hands back an
    error record, the asynchronous entry point hands back the same
    error if the swarm raised it, and the record of a run otherwise. *)
Theorem async_agrees_with_sync (swarm invoke_async : string -> result SwarmResult)
    (task : string) :
  invoke_async task = swarm task ->
  (forall rec, process_task swarm task = RunResponse rec ->
     exists a, process_task_async invoke_async task = AsyncRun a
               /\ a_task_description a = task_description rec
               /\ a_agent_sequence a = agent_sequence rec
               /\ a_handoff_count a = handoff_count rec
               /\ a_execution_time_ms a = execution_time_ms rec
               /\ (success rec = PyBool true -> a_success a = PyBool true))
  /\ (forall e, process_task swarm task = ErrorResponse false task e ->
        (swarm task = Raise e
         /\ process_task_async invoke_async task = AsyncError false task e)
        \/ (exists a, process_task_async invoke_async task = AsyncRun a)).
Proof.
  intros Hsame. split.
  - unfold process_task. intros rec.
    destruct (process_task_body swarm task) as [rec'|e] eqn:B; [|discriminate].
    intros H. injection H as ->.
    destruct (process_task_body_record swarm task rec B)
      as (r & q & Hr & _ & _ & Ht & Hseq & Hh & Hx & _ & _ & _ & _ & _ & Hs & _).
    unfold process_task_async. rewrite Hsame, Hr.
    eexists. split; [reflexivity|].
    cbn [a_task_description a_agent_sequence a_handoff_count a_execution_time_ms a_success].
    rewrite <- Hseq, <- Hh, <- Hx, Ht.
    split; [reflexivity|]. split; [reflexivity|]. split; [reflexivity|].
    split; [reflexivity|].
    rewrite Hs. intros Hb. destruct r as [o|d s]; [|reflexivity].
    cbn [success_status_of] in Hb. destruct (status o) as [st|]; [|reflexivity].
    rewrite py_and_bool in Hb. injection Hb as Hb.
    apply andb_true_iff in Hb as [Hb _]. now rewrite Hb.
  - intros e H. unfold process_task_async. rewrite Hsame.
    destruct (swarm task) as [r|e'] eqn:Hr.
    + right. eexists. reflexivity.
    + left. unfold process_task, process_task_body in H. rewrite Hr in H.
      cbn [bind] in H. injection H as <-. split; reflexivity.
Qed.

Lemma async_agrees_with_sync_witness :
  exists a,
    process_task_async
      (fun _ => Ok (result_with_agent (Some "success") "escalation_agent"
                      "DECISION: COMPLETE")) "add two numbers" = AsyncRun a
    /\ a_success a = PyBool true.
Proof.
  assert (H : exists rec,
    process_task (fun _ => Ok (result_with_agent (Some "success") "escalation_agent"
                                 "DECISION: COMPLETE")) "add two numbers"
    = RunResponse rec
    /\ success rec = PyBool true).
  { vm_compute. eexists. split; reflexivity. }
  destruct H as (rec & H & Hsucc).
  destruct (async_agrees_with_sync
              (fun _ => Ok (result_with_agent (Some "success") "escalation_agent"
                              "DECISION: COMPLETE"))
              (fun _ => Ok (result_with_agent (Some "success") "escalation_agent"
                              "DECISION: COMPLETE"))
              "add two numbers" eq_refl) as [Hrun _].
  destruct (Hrun rec H) as (a & Ha & _ & _ & _ & _ & Hs).
  exists a. split; [exact Ha | exact (Hs Hsucc)].
Defined.

End OrchestratorMore.

(* ================================================================= *)
(** * The payment of a run *)

Module RunPaymentMore.

Import PyStr PyInt Float64 Float64Facts PaymentCalculator SwarmOrchestrator SpecWords.
Import PaymentProofs PaymentMore OrchestratorMore.
Local Open Scope string_scope.

(** The entries of the breakdown that echo the arguments. *)
Lemma calculate_payment_echo (c : string) (q t k l : Z) (p : Payment) :
  calculate_payment c q t k l = Ok p ->
  currency p = "USD"
  /\ quality_score (breakdown p) = q
  /\ tokens_used (breakdown p) = k
  /\ code_lines (breakdown p) = l.
Proof.
  unfold calculate_payment.
  change (if (t >? 0)%Z
          then let* ms := float_of_int t in Ok (fdiv ms (lit 1000))
          else Ok 0) with (seconds_of t).
  change (if (k >? 0)%Z
          then let* n := float_of_int k in Ok (fmul (fdiv n (lit 1000)) TOKEN_COST_PER_1K)
          else Ok 0) with (token_cost_of k).
  destruct (seconds_of t) as [ts|e]; [|discriminate].
  destruct (token_cost_of k) as [tc|e]; [|discriminate].
  cbn [bind].
  destruct (format_int q) as [[]|e]; [|discriminate].
  destruct (format_int k) as [[]|e]; [|discriminate].
  cbn [bind]. intros H. injection H as <-.
  cbn [currency breakdown quality_score tokens_used code_lines].
  split; [reflexivity|]. split; [reflexivity|]. split; reflexivity.
Qed.

Lemma amount_at_least_two_cents (c : string) (q t k l : Z) (p : Payment) :
  calculate_payment c q t k l = Ok p -> cents 2 <= amount p.
Proof.
  intros H.
  destruct (calculate_payment_inv _ _ _ _ _ _ H)
    as (ts & tc & _ & Htc & _ & _ & Hb & _ & Hq & Ht & Ha).
  rewrite Hb, Hq, Ht in Ha.
  destruct (price_without_tokens (complexity (breakdown p)) (quality_tier (breakdown p))
              (time_tier (breakdown p))) as [Lo _].
  apply Qle_trans with (price (BASE_PRICING (complexity (breakdown p)))
                              (QUALITY_MULTIPLIERS (quality_tier (breakdown p)))
                              (TIME_BONUS (time_tier (breakdown p))) 0); [exact Lo|].
  apply (Qle_eq _ _ _ _ eq_refl Ha).
  apply price_mono_tokens.
  - apply BASE_PRICING_nonneg.
  - apply QUALITY_MULTIPLIERS_nonneg.
  - apply TIME_BONUS_nonneg.
  - apply Qle_refl.
  - exact (token_cost_of_nonneg _ _ Htc).
Qed.

Lemma complexity_of_text_values (text : string) :
  In (complexity_of_text text) ["simple"; "medium"; "complex"; "unknown"].
Proof.
  unfold complexity_of_text.
  repeat match goal with
         | |- In (if ?b then _ else _) _ => destruct b
         end; cbn [In]; auto.
Qed.

Lemma extract_complexity_values (r : SwarmResult) :
  In (_extract_complexity r) ["simple"; "medium"; "complex"; "unknown"].
Proof.
  unfold _extract_complexity.
  destruct (agent_entry r "requirements_agent") as [nr|]; [|cbn [In]; auto].
  destruct (agent_joined_text nr) as [text|]; [|cbn [In]; auto].
  apply complexity_of_text_values.
Qed.

Lemma count_lines_pos (s : string) : (0 < count_lines s)%Z.
Proof.
  induction s as [|a s IH]; cbn [count_lines]; [lia|].
  destruct (Ascii.eqb a (ascii_of_nat 10)); lia.
Qed.

(** X12. Every run that is reported carries a payment, whatever its
    decision and success: the amount is at least 2 cents, in USD, the
    complexity of the breakdown is one of simple, medium, complex and
    unknown, the tokens of the breakdown are the tokens of the run, and
    the code lines are counted from the deliverable, none when there is
    no code. *)
Theorem run_is_paid (swarm : string -> result SwarmResult)
    (task : string) (rec : RunRecord) :
  process_task swarm task = RunResponse rec ->
  cents 2 <= amount (payment rec)
  /\ currency (payment rec) = "USD"
  /\ In (complexity (breakdown (payment rec))) ["simple"; "medium"; "complex"; "unknown"]
  /\ tokens_used (breakdown (payment rec)) = total_tokens rec
  /\ (0 <= code_lines (breakdown (payment rec)))%Z
  /\ (deliverables rec = None -> code_lines (breakdown (payment rec)) = 0%Z).
Proof.
  unfold process_task.
  destruct (process_task_body swarm task) as [rec'|e] eqn:B; [|discriminate].
  intros H. injection H as ->.
  destruct (process_task_body_record swarm task rec B) as (r & q & _ & _ & Hp & _).
  unfold calculate_task_payment in Hp.
  destruct (calculate_payment_echo _ _ _ _ _ _ Hp) as (Hc & _ & Hk & Hl).
  destruct (calculate_payment_inv _ _ _ _ _ _ Hp) as (_ & _ & _ & _ & _ & _ & _ & Hx & _).
  split; [exact (amount_at_least_two_cents _ _ _ _ _ _ Hp)|].
  split; [exact Hc|].
  split.
  { rewrite Hx. pose proof (extract_complexity_values r) as Hv. cbn [In] in Hv.
    destruct Hv as [<-|[<-|[<-|[<-|[]]]]]; cbn [In]; auto. }
  split; [exact Hk|].
  rewrite Hl. split.
  - destruct (deliverables rec) as [c|]; [|lia].
    destruct (nonempty c); [|lia]. pose proof (count_lines_pos c). lia.
  - intros ->. reflexivity.
Qed.

Lemma run_is_paid_witness :
  exists rec,
    process_task (fun _ => Ok (result_with_agent (Some "success") "escalation_agent"
                                 "DECISION: ESCALATE")) "add two numbers"
    = RunResponse rec
    /\ success rec = PyBool false
    /\ cents 2 <= amount (payment rec).
Proof.
  assert (H : exists rec,
    process_task (fun _ => Ok (result_with_agent (Some "success") "escalation_agent"
                                 "DECISION: ESCALATE")) "add two numbers"
    = RunResponse rec
    /\ success rec = PyBool false).
  { vm_compute. eexists. split; reflexivity. }
  destruct H as (rec & H & Hs). exists rec. split; [exact H|]. split; [exact Hs|].
  destruct (run_is_paid _ _ _ H) as (Lo & _). exact Lo.
Defined.

End RunPaymentMore.

(* ================================================================= *)
(** * More about the server *)

Module ServerMore.

Import PyStr PyStrFacts SwarmOrchestrator ApiServer ApiHandler SpecWords MoreWords.
Local Open Scope list_scope.
Local Open Scope nat_scope.

Section Window.

Variable Entry : Type.

Lemma last_n_short (n : nat) (l : list Entry) : length l <= n -> last_n n l = l.
Proof.
  intros H. unfold last_n. replace (length l - n) with 0 by lia. reflexivity.
Qed.

Lemma last_n_length (n : nat) (l : list Entry) : length (last_n n l) = Nat.min (length l) n.
Proof. unfold last_n. rewrite length_skipn. lia. Qed.

Lemma last_n_snoc (n : nat) (l : list Entry) (x : Entry) :
  last_n (S n) (l ++ [x]) = last_n n l ++ [x].
Proof.
  unfold last_n. rewrite List.length_app, skipn_app. cbn [length].
  replace (length l + 1 - S n) with (length l - n) by lia.
  replace (length l - n - length l) with 0 by lia. reflexivity.
Qed.

Lemma last_n_last_n (n m : nat) (l : list Entry) :
  n <= m -> last_n n (last_n m l) = last_n n l.
Proof.
  intros H. unfold last_n. rewrite length_skipn, skipn_skipn. f_equal. lia.
Qed.

(** Storing in the window of the last 50 gives the window of the
    longer log. *)
Lemma store_last_n (log : list Entry) (response : Entry) :
  store (last_n 50 log) response = last_n 50 (log ++ [response]).
Proof.
  unfold store. rewrite List.length_app, last_n_length. cbn [length].
  destruct (Nat.le_gt_cases 50 (length log)) as [Hfull|Hshort].
  - replace (50 <? Nat.min (length log) 50 + 1) with true
      by (symmetry; apply Nat.ltb_lt; lia).
    rewrite (last_n_snoc 49 log response). unfold last_n.
    replace (length log - 49) with (1 + (length log - 50)) by lia.
    rewrite <- skipn_skipn.
    destruct (skipn (length log - 50) log) as [|a rest] eqn:E.
    + apply (f_equal (@length Entry)) in E. rewrite length_skipn in E.
      cbn [length] in E. lia.
    + reflexivity.
  - replace (50 <? Nat.min (length log) 50 + 1) with false
      by (symmetry; apply Nat.ltb_ge; lia).
    rewrite (last_n_short 50 log) by lia.
    rewrite last_n_short; [reflexivity|].
    rewrite List.length_app. cbn [length]. lia.
Qed.

Lemma handle_last_n (log : list Entry) (req : Request Entry) :
  handle (last_n 50 log) req = last_n 50 (record_response log req).
Proof.
  destruct req as [[response|]| |]; cbn [handle record_response].
  - apply store_last_n.
  - reflexivity.
  - reflexivity.
  - reflexivity.
Qed.

Lemma fold_handle_last_n (reqs : list (Request Entry)) : forall log,
  fold_left (@handle Entry) reqs (last_n 50 log)
  = last_n 50 (fold_left (@record_response Entry) reqs log).
Proof.
  induction reqs as [|req reqs IH]; intros log; cbn [fold_left].
  - reflexivity.
  - rewrite handle_last_n. apply IH.
Qed.

(** X13. The task history is a window on the responses sent since the
    history was last cleared: it holds the last 50 of them, oldest
    first, and [GET /api/history] shows the last 10, at most 10
    entries, the newest response at the end. *)
Theorem task_history_window (reqs : list (Request Entry)) :
  serve reqs = last_n 50 (responses_since_clear reqs)
  /\ history_view (serve reqs) = last_n 10 (responses_since_clear reqs)
  /\ length (history_view (serve reqs)) <= 10
  /\ forall response,
       history_view (serve (reqs ++ [PostProcess (Some response)]))
       = last_n 9 (responses_since_clear reqs) ++ [response].
Proof.
  assert (W : forall rs : list (Request Entry),
            serve rs = last_n 50 (responses_since_clear rs)).
  { intros rs. unfold serve, responses_since_clear.
    rewrite <- fold_handle_last_n. reflexivity. }
  assert (V : forall rs : list (Request Entry),
            history_view (serve rs) = last_n 10 (responses_since_clear rs)).
  { intros rs. rewrite W. apply last_n_last_n. lia. }
  split; [apply W|]. split; [apply V|]. split.
  - rewrite V, last_n_length. lia.
  - intros response. rewrite V. unfold responses_since_clear.
    rewrite fold_left_app. cbn [fold_left record_response].
    apply last_n_snoc.
Qed.

End Window.

End ServerMore.

(* ================================================================= *)
(** * The answers of the server *)

Module HandlerMore.

Import PyStr PyStrFacts SwarmOrchestrator ApiServer ApiHandler SpecWords MoreWords.
Import OrchestratorMore RunPaymentMore.
Local Open Scope string_scope.

Lemma process_task_error (sw : string -> result SwarmResult) (t : string)
    (s : bool) (t' e : string) :
  process_task sw t = ErrorResponse s t' e -> s = false /\ t' = t.
Proof.
  unfold process_task. destruct (process_task_body sw t); [discriminate|].
  intros H. injection H as <- <- _. split; reflexivity.
Qed.

(** X14. A run that ends in an exception is answered as a failure that
    looks like a finished run: success false, but the decision
    COMPLETE, the five agents of the display, 2500 ms, 500 tokens and
    the default payment; neither a result nor the text of the error is
    part of the answer. *)
Theorem failed_run_answer (sw : string -> result SwarmResult)
    (req : ProcessRequest) (e : string) :
  nonempty (task req) = true ->
  response_error (process_task sw (full_task_of req)) = Some e ->
  answer (Some sw) req =
  FromSwarm {| ans_success := PyBool false;
               ans_task_description := task req;
               ans_github_url := github_url req;
               ans_requirements := requirements req;
               ans_agent_sequence := display_agents;
               ans_final_result := None;
               ans_code := PyNone;
               ans_final_decision := PyStr "COMPLETE";
               ans_execution_time_ms := 2500;
               ans_tokens_used := PyInt 500;
               ans_payment := DefaultPayment |}.
Proof.
  intros Ht He. unfold answer. rewrite Ht.
  destruct (process_task sw (full_task_of req)) as [r|s t' e'] eqn:P;
    cbn [response_error] in He; [discriminate|].
  destruct (process_task_error _ _ _ _ _ P) as [-> _].
  reflexivity.
Qed.

Lemma failed_run_answer_witness :
  exists a,
    answer (Some (fun _ => Raise "Connection reset"))
           {| task := "add two numbers"; github_url := EmptyString;
              requirements := EmptyString |} = FromSwarm a
    /\ ans_success a = PyBool false
    /\ ans_final_decision a = PyStr "COMPLETE".
Proof.
  eexists. split.
  - apply (failed_run_answer (fun _ => Raise "Connection reset")
             {| task := "add two numbers"; github_url := EmptyString;
                requirements := EmptyString |} "Connection reset");
      vm_compute; reflexivity.
  - split; reflexivity.
Defined.

(** X15. The answer built from a swarm whose result is not a mock dict:
    it echoes the task of the request, its token count is always 500,
    whatever the run used, its decision is COMPLETE or ESCALATE, and a
    success comes with the decision COMPLETE and with the payment of
    the run, at least 2 cents; the default payment is given exactly
    when there is no final result, which is when the run failed. *)
Theorem swarm_answer_invariants (sw : string -> result SwarmResult)
    (req : ProcessRequest) :
  nonempty (task req) = true ->
  (forall d s, sw (full_task_of req) <> Ok (ResultDict d s)) ->
  exists a,
    answer (Some sw) req = FromSwarm a
    /\ ans_task_description a = task req
    /\ ans_tokens_used a = PyInt 500
    /\ (ans_final_decision a = PyStr "COMPLETE" \/ ans_final_decision a = PyStr "ESCALATE")
    /\ (ans_success a = PyBool true ->
        ans_final_decision a = PyStr "COMPLETE"
        /\ exists p, ans_payment a = RunPayment p
                     /\ (cents 2 <= PaymentCalculator.amount p)%Q)
    /\ (ans_payment a = DefaultPayment <-> ans_final_result a = None)
    /\ (ans_final_result a = None <->
        exists e, response_error (process_task sw (full_task_of req)) = Some e).
Proof.
  intros Ht Hobj. unfold answer. rewrite Ht. eexists. split; [reflexivity|].
  unfold process_task.
  destruct (process_task_body sw (full_task_of req)) as [rec|e] eqn:B;
    cbn [answer_of_result ans_task_description ans_tokens_used ans_final_decision
         ans_success ans_payment ans_final_result response_error].
  - destruct (process_task_body_record sw (full_task_of req) rec B)
      as (r & q & Hr & _ & Hp & _ & _ & _ & _ & _ & _ & _ & _ & Hd & Hs & Hx).
    destruct r as [o|d s]; [|now destruct (Hobj d s)].
    cbn [mock_get] in Hd. unfold mock_extra in Hx. cbn [mock_get flat_map app] in Hx.
    assert (Hst : exists a, success_status_of (ResultObj o) = PyBool a).
    { cbn [success_status_of]. destruct (status o); eexists; reflexivity. }
    destruct Hst as [a Ha]. rewrite Ha, py_and_bool in Hs.
    split; [reflexivity|].
    split; [rewrite Hx; reflexivity|].
    split.
    { rewrite Hd. destruct (extract_decision_values (final_result rec)) as [-> | ->]; auto. }
    split.
    { rewrite Hs, Hd. intros Hb. injection Hb as Hb.
      apply andb_true_iff in Hb as [_ Hb]. apply String.eqb_eq in Hb. rewrite Hb.
      split; [reflexivity|]. exists (payment rec). split; [reflexivity|].
      exact (amount_at_least_two_cents _ _ _ _ _ _ Hp). }
    split.
    { split; discriminate. }
    split; [discriminate|]. intros [e He]. discriminate.
  - split; [reflexivity|]. split; [reflexivity|]. split; [now left|].
    split; [discriminate|]. split; [split; reflexivity|].
    split; [intros _; exists e; reflexivity | reflexivity].
Qed.

Lemma swarm_answer_invariants_witness :
  exists a,
    answer (Some (fun _ => Ok (ResultObj
              {| node_history := None;
                 execution_time := Some 42000%Z;
                 results := Some [("escalation_agent",
                                   {| nr_result := Some {| message :=
                                        Some [TextItem "DECISION: COMPLETE"] |};
                                      nr_context := None |})];
                 status := Some "success";
                 accumulated_usage := Some [("totalTokens", 1200%Z)];
                 repr := "result" |})))
           {| task := "add two numbers"; github_url := EmptyString;
              requirements := EmptyString |} = FromSwarm a
    /\ ans_success a = PyBool true
    /\ ans_tokens_used a = PyInt 500.
Proof.
  destruct (swarm_answer_invariants
              (fun _ => Ok (ResultObj
                 {| node_history := None;
                    execution_time := Some 42000%Z;
                    results := Some [("escalation_agent",
                                      {| nr_result := Some {| message :=
                                           Some [TextItem "DECISION: COMPLETE"] |};
                                         nr_context := None |})];
                    status := Some "success";
                    accumulated_usage := Some [("totalTokens", 1200%Z)];
                    repr := "result" |}))
              {| task := "add two numbers"; github_url := EmptyString;
                 requirements := EmptyString |})
    as (a & Ha & _ & Hk & _).
  - reflexivity.
  - intros d s. discriminate.
  - exists a. split; [exact Ha|]. split; [|exact Hk].
    vm_compute in Ha. injection Ha as <-. reflexivity.
Defined.

Lemma is_complex_occurs (t : string) :
  is_complex t = true <-> exists word, In word complex_words /\ occurs word (lower t).
Proof.
  unfold is_complex. rewrite existsb_exists. unfold complex_words.
  split; intros (word & Hin & Hw); exists word; (split; [exact Hin|]);
    now apply contains_occurs.
Qed.

(** X16. Without a swarm, or for an empty task, the request is never
    run: it gets the mock answer, always a success, which escalates
    exactly when the lower-cased task mentions microservice,
    architecture or distributed, carries code exactly when it does not
    escalate, and reports a repository as analysed exactly when a URL
    was given. An empty task is answered COMPLETE. *)
Theorem mock_answer_cases (swarm : option (string -> result SwarmResult))
    (req : ProcessRequest) :
  swarm = None \/ task req = EmptyString ->
  exists m,
    answer swarm req = FromMock m
    /\ mock_success m = true
    /\ mock_task_description m = task req
    /\ (mock_final_decision m = "ESCALATE" <->
        exists word, In word complex_words /\ occurs word (lower (task req)))
    /\ (mock_final_decision m = "ESCALATE" \/ mock_final_decision m = "COMPLETE")
    /\ (mock_code m = None <-> mock_final_decision m = "ESCALATE")
    /\ (task req = EmptyString -> mock_final_decision m = "COMPLETE")
    /\ (mock_github_analyzed m = true <-> github_url req <> EmptyString).
Proof.
  intros H. exists (mock_answer req). split.
  { unfold answer. destruct H as [-> | H]; [reflexivity|].
    rewrite H. now destruct swarm. }
  unfold mock_answer.
  cbn [mock_success mock_task_description mock_final_decision mock_code
       mock_github_analyzed].
  split; [reflexivity|]. split; [reflexivity|].
  split.
  { rewrite <- is_complex_occurs. destruct (is_complex (task req)); split;
      try reflexivity; discriminate. }
  split; [destruct (is_complex (task req)); auto|].
  split.
  { destruct (is_complex (task req)); cbn [negb]; split; try reflexivity; discriminate. }
  split.
  { intros ->. reflexivity. }
  destruct (github_url req); cbn [nonempty]; split; try reflexivity;
    try discriminate; intros E; now destruct E.
Qed.

Lemma mock_answer_cases_witness :
  exists m,
    answer None {| task := "Design a Distributed cache";
                   github_url := EmptyString; requirements := EmptyString |}
    = FromMock m
    /\ mock_final_decision m = "ESCALATE".
Proof.
  destruct (mock_answer_cases None
              {| task := "Design a Distributed cache";
                 github_url := EmptyString; requirements := EmptyString |}
              (or_introl eq_refl))
    as (m & Hm & _ & _ & Hd & _).
  exists m. split; [exact Hm|]. apply Hd.
  exists "distributed". split; [vm_compute; tauto|].
  exists "design a ", " cache". reflexivity.
Defined.

End HandlerMore.
